(** * Audio-reactive mandala engine: feature extraction, beat detection,
      pattern and symmetry transitions, fractal tree, hue accumulator.

    Shallow embedding of the per-frame code of [MandalaVisualizer] (the later
    revision, with the energy-trend and beat heuristics), of the earlier
    revision's fractal tree, and of the hue update of [FrequencyBars] and
    [WaveformVisualizer].

    Numbers.  A JavaScript number is embedded as an exact rational, extended
    with [NaN] and the two infinities ([jsnum]); the rounding of IEEE doubles
    is not modelled.  Quantities that the code only ever computes from finite
    constants (the transition progresses, the beat confidence) are typed [Q];
    integer-valued counters and byte sums are typed [Z].  Zero has no sign:
    every zero divisor of the embedded code is a non-negative count, i.e. +0.

    Scope.  Of [draw] the embedding keeps the feature extraction, the two
    histories, the beat detector, the bass impact, the pattern and symmetry
    state machines, the fractal parameters and the replication of the pattern
    layers.  The global rotation, the mandala's own hue, the blur filter and
    the canvas painting of the individual patterns do not feed back into
    that state and are left out.  The frames of a run are the callbacks of
    [requestAnimationFrame]; a processed frame is one that passes the
    frame-skip test.

    Further components.  The index and loop-step expressions of the pattern
    functions, the bar loop of [FrequencyBars], the particle update of
    [AudioVisualizer], the state machine of the earlier revision's draw loop
    and, of the player [App], the clock text and the two skip handlers are
    embedded after the engine; what they leave out is said where they are
    defined. *)

From Stdlib Require Import ZArith QArith Qminmax Qround Qabs List Lia Lqa Bool.
From Stdlib Require Import Qpower.
From Stdlib Require String Ascii DecimalString.
Import String.StringSyntax.
Import ListNotations.
Open Scope Q_scope.
Delimit Scope string_scope with string.

(* ===================================================================== *)
(** ** JavaScript numbers *)
(* ===================================================================== *)

Inductive jsnum : Type :=
| Fin (q : Q)
| NaN
| Inf (negative : bool).

Definition Qneg_b (q : Q) : bool := negb (Qle_bool 0 q).
Definition Qzero_b (q : Q) : bool := Qeq_bool q 0.
Definition Qlt_b (a b : Q) : bool := negb (Qle_bool b a).

(** [a + b] *)
Definition jadd (a b : jsnum) : jsnum :=
  match a, b with
  | NaN, _ | _, NaN => NaN
  | Fin x, Fin y => Fin (x + y)
  | Inf s, Fin _ | Fin _, Inf s => Inf s
  | Inf s, Inf s' => if Bool.eqb s s' then Inf s else NaN
  end.

Definition jneg (a : jsnum) : jsnum :=
  match a with
  | Fin x => Fin (- x)
  | NaN => NaN
  | Inf s => Inf (negb s)
  end.

(** [a - b] *)
Definition jsub (a b : jsnum) : jsnum := jadd a (jneg b).

(** [a * b] *)
Definition jmul (a b : jsnum) : jsnum :=
  match a, b with
  | NaN, _ | _, NaN => NaN
  | Fin x, Fin y => Fin (x * y)
  | Inf s, Fin y | Fin y, Inf s =>
      if Qzero_b y then NaN else Inf (xorb s (Qneg_b y))
  | Inf s, Inf s' => Inf (xorb s s')
  end.

(** [a / b]; a finite zero divisor is +0. *)
Definition jdiv (a b : jsnum) : jsnum :=
  match a, b with
  | NaN, _ | _, NaN => NaN
  | Fin x, Fin y =>
      if Qzero_b y
      then (if Qzero_b x then NaN else Inf (Qneg_b x))
      else Fin (x / y)
  | Fin _, Inf _ => Fin 0
  | Inf s, Fin y => Inf (xorb s (Qneg_b y))
  | Inf _, Inf _ => NaN
  end.

(** [Math.abs] *)
Definition jabs (a : jsnum) : jsnum :=
  match a with
  | Fin x => Fin (Qabs x)
  | NaN => NaN
  | Inf _ => Inf false
  end.

(** [Math.floor] *)
Definition jfloor (a : jsnum) : jsnum :=
  match a with
  | Fin x => Fin (inject_Z (Qfloor x))
  | other => other
  end.

(** [a < b]; every comparison with [NaN] is false. *)
Definition jlt (a b : jsnum) : bool :=
  match a, b with
  | NaN, _ | _, NaN => false
  | Fin x, Fin y => Qlt_b x y
  | Fin _, Inf s => negb s
  | Inf s, Fin _ => s
  | Inf s, Inf s' => s && negb s'
  end.

(** [a > b] *)
Definition jgt (a b : jsnum) : bool := jlt b a.

(** Equality of numbers up to the representation of the rational. *)
Definition jsnum_eq (a b : jsnum) : Prop :=
  match a, b with
  | Fin x, Fin y => x == y
  | NaN, NaN => True
  | Inf s, Inf s' => s = s'
  | _, _ => False
  end.

(** [Math.round] on a finite number: the nearest integer, halves upwards. *)
Definition jsRound (x : Q) : Z := Qfloor (x + 0.5).

(** [Math.floor] on a finite number. *)
Definition jsFloor (x : Q) : Z := Qfloor x.

(** [x % y] on finite numbers with [y] non-zero: the remainder of the
    division truncated towards zero (it takes the sign of [x]). *)
Definition Qtrunc (x : Q) : Z := if Qneg_b x then Qceiling x else Qfloor x.
Definition jsRem (x y : Q) : Q := x - y * inject_Z (Qtrunc (x / y)).

(* ===================================================================== *)
(** ** Feature extraction (the band-energy block of [draw]) *)
(* ===================================================================== *)

Record Sums : Type := mkSums {
  bassSum : Z;
  lowMidSum : Z;
  highMidSum : Z;
  trebleSum : Z;
  totalSum : Z
}.

Record Ranges : Type := mkRanges {
  bassRange : Z;
  lowMidRange : Z;
  highMidRange : Z;
  trebleRange : Z
}.

Definition ranges (bufferLength : Z) : Ranges :=
  {| bassRange := Z.min 10 bufferLength;
     lowMidRange := Z.min 40 bufferLength;
     highMidRange := Z.min 100 bufferLength;
     trebleRange := Z.min 200 bufferLength |}.

(** One iteration of the loop body at index [i] with [value = dataArray[i]]. *)
Definition accumulate (r : Ranges) (i value : Z) (s : Sums) : Sums :=
  {| totalSum := totalSum s + value;
     bassSum := if (i <? bassRange r)%Z then bassSum s + value else bassSum s;
     lowMidSum :=
       if ((bassRange r <=? i) && (i <? lowMidRange r))%Z
       then lowMidSum s + value else lowMidSum s;
     highMidSum :=
       if ((lowMidRange r <=? i) && (i <? highMidRange r))%Z
       then highMidSum s + value else highMidSum s;
     trebleSum :=
       if ((highMidRange r <=? i) && (i <? trebleRange r))%Z
       then trebleSum s + value else trebleSum s |}%Z.

(** The loop [for (i = ...; i < Math.min(200, bufferLength); i++)], run over
    the values still to be read, starting at index [i]. *)
Fixpoint sumBands (r : Ranges) (i : Z) (values : list Z) (s : Sums) : Sums :=
  match values with
  | [] => s
  | value :: rest => sumBands r (i + 1) rest (accumulate r i value s)
  end.

Record Levels : Type := mkLevels {
  average : jsnum;
  bassLevel : jsnum;
  lowMidLevel : jsnum;
  highMidLevel : jsnum;
  trebleLevel : jsnum
}.

Definition ofZ (z : Z) : jsnum := Fin (inject_Z z).

(** [dataArray] holds [bufferLength] bytes; the loop reads its first
    [Math.min(200, bufferLength)] entries. *)
Definition extractFeatures (dataArray : list Z) : Levels :=
  let bufferLength := Z.of_nat (length dataArray) in
  let r := ranges bufferLength in
  let n := Z.min 200 bufferLength in
  let s := sumBands r 0 (firstn (Z.to_nat n) dataArray) (mkSums 0 0 0 0 0) in
  {| average := jdiv (jdiv (ofZ (totalSum s)) (ofZ n)) (Fin 255);
     bassLevel := jdiv (jdiv (ofZ (bassSum s)) (ofZ (bassRange r))) (Fin 255);
     lowMidLevel :=
       jdiv (jdiv (ofZ (lowMidSum s))
                  (ofZ (Z.max 1 (lowMidRange r - bassRange r)))) (Fin 255);
     highMidLevel :=
       jdiv (jdiv (ofZ (highMidSum s))
                  (ofZ (Z.max 1 (highMidRange r - lowMidRange r)))) (Fin 255);
     trebleLevel :=
       jdiv (jdiv (ofZ (trebleSum s))
                  (ofZ (Z.max 1 (trebleRange r - highMidRange r)))) (Fin 255) |}.

(* ===================================================================== *)
(** ** Quality profile ([performanceConfig], [detectPerformance]) *)
(* ===================================================================== *)

Record PerformanceConfig : Type := mkConfig {
  qualityLevel : Q;
  drawEveryNthFrame : Z;
  complexityReduction : bool;
  maxPoints : Z;
  useBlur : bool;
  maxSymmetry : Z;
  enableAdvancedEffects : bool;
  useGradients : bool
}.

Definition performanceConfig : PerformanceConfig :=
  {| qualityLevel := 2.2; drawEveryNthFrame := 2; complexityReduction := true;
     maxPoints := 120; useBlur := false; maxSymmetry := 10;
     enableAdvancedEffects := true; useGradients := false |}.

Definition lowEndConfig : PerformanceConfig :=
  {| qualityLevel := 4.0; drawEveryNthFrame := 3; complexityReduction := true;
     maxPoints := 60; useBlur := false; maxSymmetry := 6;
     enableAdvancedEffects := false; useGradients := false |}.

Definition midRangeConfig : PerformanceConfig :=
  {| qualityLevel := 2.8; drawEveryNthFrame := 2; complexityReduction := true;
     maxPoints := 90; useBlur := false; maxSymmetry := 8;
     enableAdvancedEffects := true; useGradients := false |}.

Definition highEndConfig : PerformanceConfig :=
  {| qualityLevel := 2.2; drawEveryNthFrame := 2; complexityReduction := true;
     maxPoints := 120; useBlur := false; maxSymmetry := 10;
     enableAdvancedEffects := true; useGradients := true |}.

Definition mobileConfig : PerformanceConfig :=
  {| qualityLevel := 4.0; drawEveryNthFrame := 3; complexityReduction := true;
     maxPoints := 50; useBlur := false; maxSymmetry := 4;
     enableAdvancedEffects := false; useGradients := false |}.

(** [hardwareConcurrency] is [None] where the browser leaves it undefined
    (every comparison with it is then false); [isMobile] is the outcome of
    the user-agent test.  The result is the profile and the initial
    [fractalDepth]. *)
Definition detectPerformance (hardwareConcurrency : option Z) (isMobile : bool)
  : PerformanceConfig * Z :=
  let cmp (f : Z -> bool) :=
    match hardwareConcurrency with Some h => f h | None => false end in
  let isLowEnd := cmp (fun h => h <=? 4)%Z in
  let isMidRange := cmp (fun h => (4 <? h) && (h <? 8))%Z in
  let isHighEnd := cmp (fun h => 8 <=? h)%Z in
  let byCores :=
    if isLowEnd then (lowEndConfig, 1%Z)
    else if isMidRange then (midRangeConfig, 2%Z)
    else if isHighEnd then (highEndConfig, 2%Z)
    else (performanceConfig, 3%Z) in
  if isMobile then (mobileConfig, 1%Z) else byCores.

(* ===================================================================== *)
(** ** Engine state *)
(* ===================================================================== *)

Inductive Pattern : Type :=
| SPIRAL | FLOWER | STARBURST | NESTED_CIRCLES
| FRACTAL_TREE | WAVE_PATTERN | SYMMETRICAL_WEB.

Definition patternIndex (p : Pattern) : Z :=
  match p with
  | SPIRAL => 0 | FLOWER => 1 | STARBURST => 2 | NESTED_CIRCLES => 3
  | FRACTAL_TREE => 4 | WAVE_PATTERN => 5 | SYMMETRICAL_WEB => 6
  end.

(** A pattern variable; [None] is JavaScript's [undefined] (an array read
    out of range). *)
Definition PatternVar : Type := option Pattern.

Definition strictEq (p : Pattern) (v : PatternVar) : bool :=
  match v with
  | Some p' => (patternIndex p =? patternIndex p')%Z
  | None => false
  end.

Record BeatDetector : Type := mkBeatDetector {
  history : list jsnum;
  threshold : Q;
  lastBeat : Z;
  confidence : Q
}.

Record AudioState : Type := mkAudioState {
  lastBassImpact : Z;
  bassImpactThreshold : Q;
  energyHistory : list jsnum;
  energyTrend : jsnum;
  beatDetector : BeatDetector
}.

Record Engine : Type := mkEngine {
  audioState : AudioState;
  frameCounter : Z;
  frame : Z;
  symmetry : Z;
  lastSymmetryChange : Z;
  targetSymmetry : Z;
  symmetryTransition : Q;
  fractalDepth : jsnum;
  fractalScale : jsnum;
  currentPattern : PatternVar;
  targetPattern : PatternVar;
  patternTransition : Q;
  patternChangeCounter : Z
}.

Definition initialAudioState : AudioState :=
  {| lastBassImpact := 0;
     bassImpactThreshold := 0.8;
     energyHistory := repeat (Fin 0.5) 8;
     energyTrend := Fin 0;
     beatDetector :=
       {| history := repeat (Fin 0) 5; threshold := 0.7;
          lastBeat := 0; confidence := 0 |} |}.

Definition initialEngine (depth0 : Z) : Engine :=
  {| audioState := initialAudioState;
     frameCounter := 0;
     frame := 0;
     symmetry := 8;
     lastSymmetryChange := 0;
     targetSymmetry := 8;
     symmetryTransition := 1;
     fractalDepth := ofZ depth0;
     fractalScale := Fin 0.7;
     currentPattern := Some FLOWER;
     targetPattern := Some FLOWER;
     patternTransition := 1;
     patternChangeCounter := 0 |}.

(** The component as mounted: profile and initial state. *)
Definition mount (hardwareConcurrency : option Z) (isMobile : bool)
  : PerformanceConfig * Engine :=
  let (cfg, depth0) := detectPerformance hardwareConcurrency isMobile in
  (cfg, initialEngine depth0).

(** What one processed frame reads from outside: the frequency bytes and the
    values returned by the calls of [Math.random()] it may make. *)
Record FrameInput : Type := mkInput {
  dataArray : list Z;
  rndPattern : Q;
  rndSymmetry : Q
}.

(* ===================================================================== *)
(** ** Histories, trend and beat detection *)
(* ===================================================================== *)

(** [h.shift(); h.push(v)] *)
Definition shiftPush (h : list jsnum) (v : jsnum) : list jsnum := tl h ++ [v].

(** [l.reduce((sum, val) => sum + val, 0)] *)
Definition sumList (l : list jsnum) : jsnum := fold_left jadd l (Fin 0).

(** [h.slice(-3)] *)
Definition sliceLast3 (h : list jsnum) : list jsnum := skipn (length h - 3) h.

(** [h.slice(0, 3)] *)
Definition sliceFirst3 (h : list jsnum) : list jsnum := firstn 3 h.

Definition trendOf (h : list jsnum) : jsnum :=
  let recentAvg := jdiv (sumList (sliceLast3 h)) (Fin 3) in
  let olderAvg := jdiv (sumList (sliceFirst3 h)) (Fin 3) in
  jsub recentAvg olderAvg.

(** The beat block of [draw] at frame number [frame] (already incremented)
    with this frame's [bassLevel]: the new detector and [isBeat]. *)
Definition beatStep (bd : BeatDetector) (frame : Z) (bass : jsnum)
  : BeatDetector * bool :=
  let h := shiftPush (history bd) bass in
  let beatAvg := jdiv (sumList h) (ofZ (Z.of_nat (length h))) in
  let isBeat :=
    jgt bass (jmul beatAvg (Fin 1.2))
    && jgt bass (Fin (threshold bd))
    && (10 <? frame - lastBeat bd)%Z in
  if isBeat
  then ({| history := h; threshold := threshold bd; lastBeat := frame;
           confidence := Qmin 1 (confidence bd + 0.1) |}, true)
  else ({| history := h; threshold := threshold bd; lastBeat := lastBeat bd;
           confidence := Qmax 0 (confidence bd - 0.01) |}, false).

(* ===================================================================== *)
(** ** Pattern selection and transition *)
(* ===================================================================== *)

(** [a[i]] for an integer-valued index. *)
Definition arrayGet {A : Type} (a : list A) (i : Z) : option A :=
  if (i <? 0)%Z then None else nth_error a (Z.to_nat i).

(** The candidate list after the dominant-band choice, before the current
    pattern is filtered out. *)
Definition candidatePatterns (cfg : PerformanceConfig) (lv : Levels)
  : list Pattern :=
  let availablePatterns :=
    if enableAdvancedEffects cfg
    then [SPIRAL; FLOWER; STARBURST; NESTED_CIRCLES;
          FRACTAL_TREE; WAVE_PATTERN; SYMMETRICAL_WEB]
    else [SPIRAL; FLOWER; STARBURST; NESTED_CIRCLES] in
  if jgt (bassLevel lv) (Fin 0.8) && jgt (bassLevel lv) (highMidLevel lv)
  then [STARBURST; NESTED_CIRCLES; SYMMETRICAL_WEB]
  else if jgt (highMidLevel lv) (Fin 0.7)
          && jgt (highMidLevel lv) (bassLevel lv)
  then [SPIRAL; WAVE_PATTERN; FLOWER]
  else if jgt (trebleLevel lv) (Fin 0.7)
  then [FRACTAL_TREE; NESTED_CIRCLES; FLOWER]
  else availablePatterns.

(** The new [targetPattern]; [random] is the value of [Math.random()]. *)
Definition selectPattern (cfg : PerformanceConfig) (lv : Levels)
    (current : PatternVar) (random : Q) : PatternVar :=
  let availablePatterns :=
    filter (fun p => negb (strictEq p current)) (candidatePatterns cfg lv) in
  arrayGet availablePatterns
    (jsFloor (random * inject_Z (Z.of_nat (length availablePatterns)))).

(** The condition of the pattern-change [if]; [counter] is
    [patternChangeCounter] after its increment. *)
Definition patternTrigger (bassImpact : bool) (trend : jsnum) (lv : Levels)
    (oldestBass : jsnum) (counter : Z) (progress : Q) : bool :=
  let energyChange := jgt (jabs trend) (Fin 0.07) in
  let frequencyShift :=
    jgt (jabs (jsub (bassLevel lv) (trebleLevel lv))) (Fin 0.3)
    && jgt (jabs (jsub (bassLevel lv) oldestBass)) (Fin 0.2) in
  let minPatternDuration := 180%Z in
  (bassImpact || (energyChange && frequencyShift))
  && (minPatternDuration <? counter)%Z
  && Qeq_bool progress 1.

(* ===================================================================== *)
(** ** Symmetry selection and interpolation *)
(* ===================================================================== *)

Definition symmetryTrigger (bassImpact : bool) (conf : Q) (frame lastChange : Z)
    (trend : jsnum) : bool :=
  (bassImpact && Qlt_b 0.6 conf)
  || ((120 <? frame - lastChange)%Z && jgt (jabs trend) (Fin 0.15)).

(** The new [targetSymmetry]; [random] is the value of [Math.random()]. *)
Definition chooseSymmetry (cfg : PerformanceConfig) (lv : Levels) (random : Q)
  : Z :=
  let minSymmetry := 4%Z in
  let maxSymm := maxSymmetry cfg in
  let raw :=
    if jgt (bassLevel lv) (Fin 0.7) && jgt (bassLevel lv) (highMidLevel lv)
    then (minSymmetry + jsFloor (random * 4) * 2)%Z
    else if jgt (lowMidLevel lv) (Fin 0.6)
    then (minSymmetry + 2 + jsFloor (random * 4) * 2)%Z
    else (minSymmetry + 4
          + jsFloor (random * inject_Z (maxSymm - 8) / 2) * 2)%Z in
  Z.min maxSymm (Z.max minSymmetry raw).

(** [Math.round(symmetry * (1 - t) + targetSymmetry * t)] *)
Definition interpolateSymmetry (symmetry target : Z) (t : Q) : Z :=
  jsRound (inject_Z symmetry * (1 - t) + inject_Z target * t).

(* ===================================================================== *)
(** ** Rendering with rotational symmetry *)
(* ===================================================================== *)

(** One rotated copy: the loop index [i] and the rotation, as the fraction
    [i / actualSymmetry] of a full turn. *)
Record Copy : Type := mkCopy {
  copyIndex : Z;
  copyTurn : Q
}.

(** One pattern drawn around the centre. *)
Record Layer : Type := mkLayer {
  layerPattern : PatternVar;
  layerAlpha : Q;
  layerCopies : list Copy
}.

(** The indices visited by [for (let i = 0; i < n; i++)], [n] an integer. *)
Definition forIndices (n : Z) : list Z := map Z.of_nat (seq 0 (Z.to_nat n)).

Definition symmetryCopies (actualSymmetry : Z) : list Copy :=
  map (fun i => {| copyIndex := i;
                   copyTurn := inject_Z i / inject_Z actualSymmetry |})
      (forIndices actualSymmetry).

(** The pattern layers of one frame: the cross-fade pair during a pattern
    transition, the current pattern alone otherwise. *)
Definition renderLayers (cfg : PerformanceConfig) (symmetry : Z)
    (current target : PatternVar) (progress : Q) : list Layer :=
  let actualSymmetry := Z.min symmetry (maxSymmetry cfg) in
  if Qlt_b progress 1
  then [ {| layerPattern := current; layerAlpha := 1 - progress;
            layerCopies := symmetryCopies actualSymmetry |};
         {| layerPattern := target; layerAlpha := progress;
            layerCopies := symmetryCopies actualSymmetry |} ]
  else [ {| layerPattern := current; layerAlpha := 1;
            layerCopies := symmetryCopies actualSymmetry |} ].

(* ===================================================================== *)
(** ** One frame of [draw] *)
(* ===================================================================== *)

Record FrameOutput : Type := mkOutput {
  outFrame : Z;
  outLevels : Levels;
  outIsBeat : bool;
  outBassImpact : bool;
  outPatternChange : bool;
  outSymmetryChange : bool;
  outLayers : list Layer
}.

(** The body of [draw] after the frame-skip test. *)
Definition processFrame (cfg : PerformanceConfig) (st : Engine)
    (inp : FrameInput) : Engine * FrameOutput :=
  let au := audioState st in
  let frame := (frame st + 1)%Z in
  let lv := extractFeatures (dataArray inp) in
  (* energy history and trend *)
  let energyHistory := shiftPush (energyHistory au) (average lv) in
  let energyTrend := trendOf energyHistory in
  (* beat detection *)
  let (bd, isBeat) := beatStep (beatDetector au) frame (bassLevel lv) in
  (* bass impact *)
  let bassImpact :=
    jgt (bassLevel lv) (Fin (bassImpactThreshold au))
    && (30 <? frame - lastBassImpact au)%Z in
  let lastBassImpact := if bassImpact then frame else lastBassImpact au in
  (* pattern change *)
  let counter := (patternChangeCounter st + 1)%Z in
  let patternChange :=
    patternTrigger bassImpact energyTrend lv (nth 0 (history bd) NaN)
                   counter (patternTransition st) in
  let targetPattern :=
    if patternChange
    then selectPattern cfg lv (currentPattern st) (rndPattern inp)
    else targetPattern st in
  let progress0 := if patternChange then 0 else patternTransition st in
  let counter := if patternChange then 0%Z else counter in
  (* pattern transition progress *)
  let progress :=
    if Qlt_b progress0 1 then Qmin 1 (progress0 + 0.025) else progress0 in
  let currentPattern :=
    if Qlt_b progress0 1 && Qeq_bool progress 1
    then targetPattern else currentPattern st in
  (* symmetry change *)
  let symmetryChange :=
    symmetryTrigger bassImpact (confidence bd) frame (lastSymmetryChange st)
                    energyTrend in
  let targetSymmetry :=
    if symmetryChange then chooseSymmetry cfg lv (rndSymmetry inp)
    else targetSymmetry st in
  let fractalDepth :=
    if symmetryChange
    then jadd (Fin 2) (jfloor (jmul (average lv) (Fin 2)))
    else fractalDepth st in
  let fractalScale :=
    if symmetryChange
    then jadd (Fin 0.5) (jmul (average lv) (Fin 0.3))
    else fractalScale st in
  let lastSymmetryChange :=
    if symmetryChange then frame else lastSymmetryChange st in
  let transition0 := if symmetryChange then 0 else symmetryTransition st in
  (* symmetry interpolation *)
  let symmetryTransition :=
    if Qlt_b transition0 1 then Qmin 1 (transition0 + 0.02) else transition0 in
  let symmetry :=
    if Qlt_b transition0 1
    then interpolateSymmetry (symmetry st) targetSymmetry symmetryTransition
    else symmetry st in
  ( {| audioState :=
         {| lastBassImpact := lastBassImpact;
            bassImpactThreshold := bassImpactThreshold au;
            energyHistory := energyHistory;
            energyTrend := energyTrend;
            beatDetector := bd |};
       frameCounter := frameCounter st;
       frame := frame;
       symmetry := symmetry;
       lastSymmetryChange := lastSymmetryChange;
       targetSymmetry := targetSymmetry;
       symmetryTransition := symmetryTransition;
       fractalDepth := fractalDepth;
       fractalScale := fractalScale;
       currentPattern := currentPattern;
       targetPattern := targetPattern;
       patternTransition := progress;
       patternChangeCounter := counter |},
    {| outFrame := frame;
       outLevels := lv;
       outIsBeat := isBeat;
       outBassImpact := bassImpact;
       outPatternChange := patternChange;
       outSymmetryChange := symmetryChange;
       outLayers :=
         renderLayers cfg symmetry currentPattern targetPattern progress |} ).

Definition tick (st : Engine) : Engine :=
  {| audioState := audioState st;
     frameCounter := frameCounter st + 1;
     frame := frame st;
     symmetry := symmetry st;
     lastSymmetryChange := lastSymmetryChange st;
     targetSymmetry := targetSymmetry st;
     symmetryTransition := symmetryTransition st;
     fractalDepth := fractalDepth st;
     fractalScale := fractalScale st;
     currentPattern := currentPattern st;
     targetPattern := targetPattern st;
     patternTransition := patternTransition st;
     patternChangeCounter := patternChangeCounter st |}%Z.

(** One animation callback: [frameCounter++], then either the early return
    of a skipped frame or a processed frame. *)
Definition draw (cfg : PerformanceConfig) (st : Engine) (inp : FrameInput)
  : Engine * option FrameOutput :=
  let st1 := tick st in
  if negb (Z.rem (frameCounter st1) (drawEveryNthFrame cfg) =? 0)%Z
  then (st1, None)
  else let (st2, out) := processFrame cfg st1 inp in (st2, Some out).

(** A run of animation callbacks: the final state and the outputs of the
    processed frames, oldest first. *)
Fixpoint runDraw (cfg : PerformanceConfig) (st : Engine)
    (inputs : list FrameInput) : Engine * list FrameOutput :=
  match inputs with
  | [] => (st, [])
  | inp :: rest =>
      let (st1, out) := draw cfg st inp in
      let (st2, outs) := runDraw cfg st1 rest in
      (st2, match out with Some o => o :: outs | None => outs end)
  end.

(** A run of processed frames. *)
Fixpoint runFrames (cfg : PerformanceConfig) (st : Engine)
    (inputs : list FrameInput) : Engine * list FrameOutput :=
  match inputs with
  | [] => (st, [])
  | inp :: rest =>
      let (st1, out) := processFrame cfg st inp in
      let (st2, outs) := runFrames cfg st1 rest in
      (st2, out :: outs)
  end.

(** The states the component can be in after mounting. *)
Inductive reachable (cfg : PerformanceConfig) (st0 : Engine) : Engine -> Prop :=
| reach_mount : reachable cfg st0 st0
| reach_draw st inp :
    reachable cfg st0 st -> reachable cfg st0 (fst (draw cfg st inp)).

(* ===================================================================== *)
(** ** Fractal tree *)
(* ===================================================================== *)

(** The drawing operations of [drawBranch]: a stroked branch and a filled
    leaf.  A branch is identified by its length,
    by its direction as a signed number of [branchAngle] steps away from the
    trunk direction, and by its depth; the end points, which need sine and
    cosine, are not embedded. *)
Inductive DrawOp : Type :=
| StrokeBranch (length : jsnum) (angleSteps : Z) (depth : jsnum)
| FillLeaf (angleSteps : Z).

(** [a === b] on numbers. *)
Definition jeqb (a b : jsnum) : bool :=
  match a, b with
  | Fin x, Fin y => Qeq_bool x y
  | Inf s, Inf s' => Bool.eqb s s'
  | _, _ => false
  end.

(** [drawBranch] of the later revision.  [fuel] bounds the nesting of calls;
    [None] means the recursion did not return within it. *)
Fixpoint drawBranch (fuel : nat) (lv : Levels) (fractalScale : jsnum)
    (length : jsnum) (angle : Z) (depth : jsnum) : option (list DrawOp) :=
  match fuel with
  | O => None
  | S fuel' =>
      if jeqb depth (Fin 0) then Some []
      else
        let branch := [StrokeBranch length angle depth] in
        let leaf := if jeqb depth (Fin 1) then [FillLeaf angle] else [] in
        let newLength := jmul length fractalScale in
        match drawBranch fuel' lv fractalScale newLength (angle + 1)
                         (jsub depth (Fin 1)) with
        | None => None
        | Some rightOps =>
            match drawBranch fuel' lv fractalScale newLength (angle - 1)
                             (jsub depth (Fin 1)) with
            | None => None
            | Some leftOps =>
                if jgt depth (Fin 1)
                   && (jgt (bassLevel lv) (Fin 0.6)
                       || jgt (lowMidLevel lv) (Fin 0.7))
                then
                  match drawBranch fuel' lv fractalScale
                                   (jmul newLength (Fin 0.8)) angle
                                   (jsub depth (Fin 1)) with
                  | None => None
                  | Some middleOps =>
                      Some (branch ++ leaf ++ rightOps ++ leftOps ++ middleOps)
                  end
                else Some (branch ++ leaf ++ rightOps ++ leftOps)
            end
        end
  end.

Definition drawFractalTree (fuel : nat) (lv : Levels)
    (fractalDepth fractalScale : jsnum) : option (list DrawOp) :=
  let length :=
    jadd (jadd (Fin 70) (jmul (bassLevel lv) (Fin 70)))
         (jmul (lowMidLevel lv) (Fin 30)) in
  drawBranch fuel lv fractalScale length 0 fractalDepth.

(** The earlier revision ([components/MandalaVisualizer.tsx]): the middle
    branch is taken when [Math.random() < 0.5].  [random k] is the value of
    the [k]-th call of [Math.random()]; the number of calls made so far is
    threaded through. *)
Module EarlierRevision.

Fixpoint drawBranch (fuel : nat) (random : nat -> Q) (fractalScale : jsnum)
    (length : jsnum) (angle : Z) (depth : jsnum) (calls : nat)
  : option (list DrawOp * nat) :=
  match fuel with
  | O => None
  | S fuel' =>
      if jeqb depth (Fin 0) then Some ([], calls)
      else
        let branch := [StrokeBranch length angle depth] in
        let leaf := if jeqb depth (Fin 1) then [FillLeaf angle] else [] in
        let newLength := jmul length fractalScale in
        match drawBranch fuel' random fractalScale newLength (angle + 1)
                         (jsub depth (Fin 1)) calls with
        | None => None
        | Some (rightOps, calls1) =>
            match drawBranch fuel' random fractalScale newLength (angle - 1)
                             (jsub depth (Fin 1)) calls1 with
            | None => None
            | Some (leftOps, calls2) =>
                if jgt depth (Fin 1)
                then
                  if Qlt_b (random calls2) 0.5
                  then
                    match drawBranch fuel' random fractalScale
                                     (jmul newLength (Fin 0.8)) angle
                                     (jsub depth (Fin 1)) (S calls2) with
                    | None => None
                    | Some (middleOps, calls3) =>
                        Some (branch ++ leaf ++ rightOps ++ leftOps ++ middleOps,
                              calls3)
                    end
                  else Some (branch ++ leaf ++ rightOps ++ leftOps, S calls2)
                else Some (branch ++ leaf ++ rightOps ++ leftOps, calls2)
            end
        end
  end.

Definition drawFractalTree (fuel : nat) (random : nat -> Q)
    (bassLevel fractalDepth fractalScale : jsnum)
  : option (list DrawOp * nat) :=
  let length := jadd (Fin 100) (jmul bassLevel (Fin 100)) in
  drawBranch fuel random fractalScale length 0 fractalDepth 0.

End EarlierRevision.

Definition isStroke (op : DrawOp) : bool :=
  match op with StrokeBranch _ _ _ => true | FillLeaf _ => false end.

(** Number of branch strokes among the drawing operations. *)
Definition branchCount (ops : list DrawOp) : nat :=
  length (filter isStroke ops).

(** The calls of context methods behind one drawing operation: [beginPath],
    [moveTo], [lineTo] and [stroke] for a branch; [beginPath], [arc] and
    [fill] for a leaf.  (The assignments to [strokeStyle], [lineWidth] and
    [fillStyle] are not calls.) *)
Definition canvasCalls (op : DrawOp) : nat :=
  match op with
  | StrokeBranch _ _ _ => 4
  | FillLeaf _ => 3
  end.

Definition canvasCallCount (ops : list DrawOp) : nat :=
  list_sum (map canvasCalls ops).

(* ===================================================================== *)
(** ** Hue accumulator of the simpler visualizers *)
(* ===================================================================== *)

Module FrequencyBars.
(** [hue = (hue + 0.5) % 360] *)
Definition updateHue (hue : Q) : Q := jsRem (hue + 0.5) 360.
End FrequencyBars.

Module WaveformVisualizer.
(** [hue = (hue + 0.5) % 360] *)
Definition updateHue (hue : Q) : Q := jsRem (hue + 0.5) 360.
End WaveformVisualizer.

(* ===================================================================== *)
(** ** Vocabulary of the statements *)
(* ===================================================================== *)

Definition sumZ (l : list Z) : Z := fold_right Z.add 0%Z l.

(** [l.slice(lo, hi)] *)
Definition slice (lo hi : nat) (l : list Z) : list Z :=
  firstn (hi - lo) (skipn lo l).

(** A finite number within the unit interval. *)
Definition unitLevel (x : jsnum) : Prop :=
  match x with Fin q => 0 <= q <= 1 | _ => False end.

(** The bytes a [Uint8Array] can hold. *)
Definition isByte (v : Z) : Prop := (0 <= v <= 255)%Z.

(** A frequency frame with the ten bass bins at 255 and [others] further
    bins at 0. *)
Definition bassOnlyFrame (others : nat) : list Z :=
  repeat 255%Z 10 ++ repeat 0%Z others.

Definition frameOf (data : list Z) : FrameInput :=
  {| dataArray := data; rndPattern := 0; rndSymmetry := 0 |}.

Definition beatCount (outs : list FrameOutput) : nat :=
  length (filter outIsBeat outs).

(** Beats of a run, oldest first, are more than ten frames apart. *)
Definition beatsApart (o1 o2 : FrameOutput) : Prop :=
  outIsBeat o1 = true -> outIsBeat o2 = true ->
  (outFrame o2 - outFrame o1 > 10)%Z.

(** The patterns outside the list kept for less capable devices. *)
Definition advancedOnly (p : Pattern) : bool :=
  match p with
  | FRACTAL_TREE | WAVE_PATTERN | SYMMETRICAL_WEB => true
  | _ => false
  end.

(** The part of the loop's remaining [values], read from index [i] on, that
    falls into the band [lo <= index < hi]. *)
Fixpoint bandSum (lo hi i : Z) (values : list Z) : Z :=
  match values with
  | [] => 0
  | value :: rest =>
      ((if (lo <=? i) && (i <? hi) then value else 0)
       + bandSum lo hi (i + 1) rest)%Z
  end.

(** The beat detector of an engine state. *)
Definition bdOf (st : Engine) : BeatDetector := beatDetector (audioState st).

(** The bass level of a frame whose ten bass bins are all 255. *)
Definition fullBass : jsnum := jdiv (jdiv (ofZ 2550) (ofZ 10)) (Fin 255).

(** A frame input with the bass-only bytes and the given random values. *)
Definition bassOnlyInput (others : nat) (rnd : Q * Q) : FrameInput :=
  {| dataArray := bassOnlyFrame others;
     rndPattern := fst rnd; rndSymmetry := snd rnd |}.

(** The detector after [k] frames of full bass on which no beat fired. *)
Definition saturating (k : nat) : BeatDetector :=
  {| history := repeat (Fin 0) (5 - k) ++ repeat fullBass (Nat.min 5 k);
     threshold := 0.7; lastBeat := 0; confidence := 0 |}.

(** One of the dominant-band branches of the pattern choice applies. *)
Definition dominantBand (lv : Levels) : bool :=
  (jgt (bassLevel lv) (Fin 0.8) && jgt (bassLevel lv) (highMidLevel lv))
  || (jgt (highMidLevel lv) (Fin 0.7)
      && jgt (highMidLevel lv) (bassLevel lv))
  || jgt (trebleLevel lv) (Fin 0.7).

(** What every frame preserves about the symmetry variables.  [cap] is the
    larger of the initial symmetry 8 and the profile's [maxSymmetry]. *)
Definition symmetryInvariant (cfg : PerformanceConfig) (st : Engine) : Prop :=
  let cap := Z.max 8 (maxSymmetry cfg) in
  0 <= symmetryTransition st <= 1
  /\ (4 <= symmetry st <= cap)%Z
  /\ (4 <= targetSymmetry st <= cap)%Z
  /\ ((0 < lastSymmetryChange st)%Z ->
      Z.even (targetSymmetry st) = true
      /\ (4 <= targetSymmetry st <= maxSymmetry cfg)%Z)
  /\ (symmetryTransition st == 1 -> symmetry st = targetSymmetry st)
  /\ (0 <= frame st)%Z.

(** What every frame preserves about the time before the first symmetry
    change: [lastSymmetryChange] is 0 until a change sets it to the (positive)
    frame number, and until then [symmetry] is its initial 8 and no
    transition runs. *)
Definition symmetryFresh (st : Engine) : Prop :=
  (0 <= lastSymmetryChange st)%Z
  /\ ((lastSymmetryChange st = 0)%Z ->
      symmetry st = 8%Z /\ symmetryTransition st == 1).

(** Sample inputs with sixteen bins (the smallest [frequencyBinCount]):
    silence, and every bin at 255. *)
Definition silentInput : FrameInput := frameOf (repeat 0%Z 16).
Definition loudInput : FrameInput := frameOf (repeat 255%Z 16).

(** What a processed frame can read: a non-empty [Uint8Array] and values of
    [Math.random()], which lie in [0, 1). *)
Definition validInput (inp : FrameInput) : Prop :=
  dataArray inp <> [] /\ Forall isByte (dataArray inp)
  /\ 0 <= rndPattern inp < 1 /\ 0 <= rndSymmetry inp < 1.

(** The pattern progress is a whole number of steps of 0.025, at most 40. *)
Definition patternSteps (st : Engine) : Prop :=
  exists k : Z, (1 <= k <= 40)%Z /\ patternTransition st == inject_Z k * 0.025.

(** What every processed frame on valid input preserves about the audio
    histories, the pattern variables and the fractal depth. *)
Definition engineInvariant (st : Engine) : Prop :=
  let au := audioState st in
  length (energyHistory au) = 8%nat
  /\ Forall unitLevel (energyHistory au)
  /\ length (history (bdOf st)) = 5%nat
  /\ Forall unitLevel (history (bdOf st))
  /\ (exists t, energyTrend au = Fin t /\ -(1) <= t <= 1)
  /\ patternSteps st
  /\ (exists p, currentPattern st = Some p)
  /\ (exists p, targetPattern st = Some p)
  /\ (patternTransition st == 1 -> currentPattern st = targetPattern st)
  /\ (patternTransition st < 1 -> currentPattern st <> targetPattern st)
  /\ (exists d : nat, (1 <= d <= 4)%nat
                      /\ jsnum_eq (fractalDepth st) (ofZ (Z.of_nat d))).

Definition patternChangesApart (o1 o2 : FrameOutput) : Prop :=
  outPatternChange o1 = true -> outPatternChange o2 = true ->
  (outFrame o2 - outFrame o1 > 180)%Z.

Definition bassImpactsApart (o1 o2 : FrameOutput) : Prop :=
  outBassImpact o1 = true -> outBassImpact o2 = true ->
  (outFrame o2 - outFrame o1 > 30)%Z.

(* ===================================================================== *)
(** ** Index and loop expressions of the pattern functions *)
(* ===================================================================== *)

(** [Math.floor((i / n) * m)], the index used to pick a frequency or
    waveform sample for the [i]-th of [n] points out of [m] samples. *)
Definition scaledIndex (i n m : Q) : Z := jsFloor (i / n * m).

(** [drawSpiral]: [Math.floor((i / maxPoints) * Math.min(64, dataArray.length))] *)
Definition spiralFreqIndex (i maxPoints : Q) (dataLength : Z) : Z :=
  scaledIndex i maxPoints (Qmin 64 (inject_Z dataLength)).

(** [drawStarburst]: [Math.floor((i / rayCount) * Math.min(128, dataArray.length))] *)
Definition starburstFreqIndex (i rayCount : Q) (dataLength : Z) : Z :=
  scaledIndex i rayCount (Qmin 128 (inject_Z dataLength)).

(** [drawNestedCircles]:
    [Math.floor((i / circleCount) * Math.min(100, dataArray.length))] *)
Definition circlesFreqIndex (i circleCount : Q) (dataLength : Z) : Z :=
  scaledIndex i circleCount (Qmin 100 (inject_Z dataLength)).

(** [drawSymmetricalWeb], rings: [Math.floor((i / 360) * bufferLength)] *)
Definition webFreqIndex (i : Q) (bufferLength : Z) : Z :=
  scaledIndex i 360 (inject_Z bufferLength).

(** [drawSymmetricalWeb], dots: [Math.floor((i / dotCount) * bufferLength)] *)
Definition webDotFreqIndex (i dotCount : Q) (bufferLength : Z) : Z :=
  scaledIndex i dotCount (inject_Z bufferLength).

(** [drawWavePattern]: [Math.floor((i / 360) * waveformArray.length)] *)
Definition waveIndex (i : Q) (waveformLength : Z) : Z :=
  scaledIndex i 360 (inject_Z waveformLength).

(** The values of [i] visited by [for (let i = 0; i < 360; i += step)],
    started at [i]; [None] when the loop has not ended within [fuel]
    iterations. *)
Fixpoint degreeLoop (fuel : nat) (i step : Q) : option (list Q) :=
  if Qlt_b i 360
  then match fuel with
       | O => None
       | S fuel' =>
           match degreeLoop fuel' (i + step) step with
           | Some rest => Some (i :: rest)
           | None => None
           end
       end
  else Some [].

(** The step sizes of the path loops, for finite levels. *)
(** [drawFlower]: [Math.max(2, 6 - Math.floor(trebleLevel * 4))] *)
Definition flowerStep (treble : Q) : Q :=
  Qmax 2 (6 - inject_Z (jsFloor (treble * 4))).

(** [drawFlower]: [Math.max(3, 10 - Math.floor((lowMidLevel + trebleLevel) * 5))] *)
Definition flowerDetailStep (lowMid treble : Q) : Q :=
  Qmax 3 (10 - inject_Z (jsFloor ((lowMid + treble) * 5))).

(** [drawWavePattern]: [Math.max(2, 5 - Math.floor(trebleLevel * 3))] *)
Definition waveAngleStep (treble : Q) : Q :=
  Qmax 2 (5 - inject_Z (jsFloor (treble * 3))).

(** [drawSymmetricalWeb]: [Math.max(2, 5 - Math.floor(trebleLevel * 4))] *)
Definition webAngleStep (treble : Q) : Q :=
  Qmax 2 (5 - inject_Z (jsFloor (treble * 4))).

(** [drawCenterMandala]: [Math.max(3, 6 - Math.floor(trebleLevel * 4))] *)
Definition centerAngleStep (treble : Q) : Q :=
  Qmax 3 (6 - inject_Z (jsFloor (treble * 4))).

(* ===================================================================== *)
(** ** The simpler visualizers *)
(* ===================================================================== *)

(** [dataArray.slice(0, 10).reduce((sum, value) => sum + value, 0) / 10 / 255],
    the bass level of [FrequencyBars], [WaveformVisualizer],
    [CircleVisualizer], [AudioVisualizer] and the earlier mandala. *)
Definition simpleBassLevel (dataArray : list Z) : Q :=
  inject_Z (sumZ (firstn 10 dataArray)) / 10 / 255.

Module FrequencyBarsFrame.

Record Bar : Type := mkBar {
  barIndex : Z;
  barX : Q;
  barY : Q;
  barW : Q;
  barHeight : Q;
  barHue : Q;
  barGlow : bool
}.

(** The bar loop from index [i] and abscissa [x] on, over the bytes and the
    previous heights still to be visited ([dataArray] and [prevBarHeights]
    both have [bufferLength] entries): the new heights and the bars drawn. *)
Fixpoint barsLoop (clientHeight barWidth barSpacing bassLevel hue : Q)
    (i : Z) (x : Q) (values : list Z) (prev : list Q)
  : list Q * list Bar :=
  match values, prev with
  | value :: values', p :: prev' =>
      let targetHeight := (inject_Z value / 255) * (clientHeight / 2) in
      let barHeight := p * 0.8 + targetHeight * 0.2 in
      let rest :=
        barsLoop clientHeight barWidth barSpacing bassLevel hue
                 (i + 1) (x + (barWidth + barSpacing)) values' prev' in
      if (i <? 2)%Z
      then (barHeight :: fst rest, snd rest)
      else
        (barHeight :: fst rest,
         {| barIndex := i;
            barX := x;
            barY := clientHeight / 2 - barHeight;
            barW := barWidth;
            barHeight := barHeight;
            barHue := jsRem (hue + inject_Z i) 360;
            barGlow := Qlt_b 0.7 bassLevel && (i <? 20)%Z |}
         :: snd rest)
  | _, _ => ([], [])
  end.

(** The bars of one frame: the new [prevBarHeights] and the bars drawn.  The
    heights beyond the usable range are left as they were. *)
Definition drawBars (clientWidth clientHeight hue : Q)
    (dataArray : list Z) (prevBarHeights : list Q) : list Q * list Bar :=
  let bufferLength := Z.of_nat (length dataArray) in
  let bassLevel := simpleBassLevel dataArray in
  let usableFrequencies := Z.min bufferLength 256 in
  let barWidth := (clientWidth / inject_Z usableFrequencies) * 1.5 in
  let barSpacing := barWidth * 0.2 in
  let n := Z.to_nat usableFrequencies in
  let r := barsLoop clientHeight barWidth barSpacing bassLevel hue 0 0
                    (firstn n dataArray) (firstn n prevBarHeights) in
  (fst r ++ skipn n prevBarHeights, snd r).

End FrequencyBarsFrame.

Module AudioVisualizer.






End AudioVisualizer.

(* ===================================================================== *)
(** ** The draw loop of the earlier mandala revision *)
(* ===================================================================== *)

Module EarlierMandala.

Record Engine : Type := mkEngine {
  hue : Q;
  rotation : Q;
  frame : Z;
  symmetry : Z;
  lastSymmetryChange : Z;
  fractalDepth : Z;
  fractalScale : Q;
  fractalTurn : Q;  (* [fractalRotation] as a fraction of 2 pi *)
  currentPattern : option Z;
  patternChangeCounter : Z;
  frameCounter : Z
}.

Definition initialEngine : Engine :=
  {| hue := 0; rotation := 0; frame := 0; symmetry := 8;
     lastSymmetryChange := 0; fractalDepth := 3; fractalScale := 0.7;
     fractalTurn := 0; currentPattern := Some 0%Z;
     patternChangeCounter := 0; frameCounter := 0 |}.

(** The table [patterns] of drawing functions. *)
Definition patterns : list Pattern :=
  [SPIRAL; FLOWER; STARBURST; NESTED_CIRCLES;
   FRACTAL_TREE; WAVE_PATTERN; SYMMETRICAL_WEB].

Definition mindBlowingPatterns : list Z := [6; 7; 8; 9]%Z.

Definition drawEveryNthFrame : Z := 1.

(** The values of [Math.random()] one frame may use. *)
Record Randoms : Type := mkRandoms {
  rndSymmetry : Q;
  rndDepth : Q;
  rndScale : Q;
  rndTurn : Q;
  rndSwitch : Q;
  rndMindBlowing : Q;
  rndPick : Q
}.

(** What one callback does on the canvas: nothing (frame skipped), the
    pattern functions called by the symmetry loop, or the [TypeError] raised
    when [patterns[currentPattern]] is not a function. *)
Inductive DrawResult : Type :=
| Skipped
| Drawn (calls : list Pattern)
| TypeError.

(** [patterns[currentPattern]] *)
Definition patternFunction (currentPattern : option Z) : option Pattern :=
  match currentPattern with
  | Some k => arrayGet patterns k
  | None => None
  end.

Definition draw (st : Engine) (dataArray : list Z) (rnd : Randoms)
  : Engine * DrawResult :=
  let frameCounter := (frameCounter st + 1)%Z in
  if negb (Z.rem frameCounter drawEveryNthFrame =? 0)%Z
  then ({| hue := hue st; rotation := rotation st; frame := frame st;
           symmetry := symmetry st;
           lastSymmetryChange := lastSymmetryChange st;
           fractalDepth := fractalDepth st; fractalScale := fractalScale st;
           fractalTurn := fractalTurn st;
           currentPattern := currentPattern st;
           patternChangeCounter := patternChangeCounter st;
           frameCounter := frameCounter |}, Skipped)
  else
    let bassLevel := simpleBassLevel dataArray in
    let hue := jsRem (hue st + 0.5 + bassLevel * 2) 360 in
    let rotation := rotation st + 0.005 + bassLevel * 0.02 in
    (* symmetry change *)
    let symmetryChange :=
      (60 <? frame st - lastSymmetryChange st)%Z && Qlt_b 0.7 bassLevel in
    let symmetry :=
      if symmetryChange
      then (4 + jsFloor (rndSymmetry rnd * 12) * 2)%Z else symmetry st in
    let lastSymmetryChange :=
      if symmetryChange then frame st else lastSymmetryChange st in
    let fractalDepth :=
      if symmetryChange
      then (2 + jsFloor (rndDepth rnd * 3))%Z else fractalDepth st in
    let fractalScale :=
      if symmetryChange then 0.5 + rndScale rnd * 0.4 else fractalScale st in
    let fractalTurn :=
      if symmetryChange then rndTurn rnd else fractalTurn st in
    (* pattern switch *)
    let counter := (patternChangeCounter st + 1)%Z in
    let switch :=
      Qlt_b 0.85 bassLevel && Qlt_b (rndSwitch rnd) 0.15 && (60 <? counter)%Z in
    let currentPattern :=
      if switch
      then
        if Qlt_b (rndMindBlowing rnd) 0.7
        then arrayGet mindBlowingPatterns
               (jsFloor (rndPick rnd
                         * inject_Z (Z.of_nat (length mindBlowingPatterns))))
        else Some (jsFloor (rndPick rnd
                            * inject_Z (Z.of_nat (length patterns))))
      else currentPattern st in
    let counter := if switch then 0%Z else counter in
    (* the symmetry loop calls patterns[currentPattern] once per copy *)
    let result :=
      if (0 <? symmetry)%Z
      then match patternFunction currentPattern with
           | Some p => Drawn (repeat p (Z.to_nat symmetry))
           | None => TypeError
           end
      else Drawn [] in
    ({| hue := hue; rotation := rotation; frame := frame st;
        symmetry := symmetry; lastSymmetryChange := lastSymmetryChange;
        fractalDepth := fractalDepth; fractalScale := fractalScale;
        fractalTurn := fractalTurn; currentPattern := currentPattern;
        patternChangeCounter := counter; frameCounter := frameCounter |},
     result).

(** One frame input: the frequency bytes and the random values. *)
Fixpoint run (st : Engine) (inputs : list (list Z * Randoms))
  : Engine * list DrawResult :=
  match inputs with
  | [] => (st, [])
  | (data, rnd) :: rest =>
      let (st1, res) := draw st data rnd in
      let (st2, results) := run st1 rest in
      (st2, res :: results)
  end.

End EarlierMandala.

(* ===================================================================== *)
(** ** The player ([App]) *)
(* ===================================================================== *)

Module App.

Definition sampleTracks : list (String.string * String.string) :=
  [ ("Electronic Beat",
     "https://assets.mixkit.co/music/preview/mixkit-tech-house-vibes-130.mp3");
    ("Ambient Atmosphere",
     "https://assets.mixkit.co/music/preview/mixkit-dreaming-big-31.mp3");
    ("Deep Bass",
     "https://assets.mixkit.co/music/preview/mixkit-hip-hop-02-738.mp3");
    ("Drum & Bass",
     "https://assets.mixkit.co/music/preview/mixkit-driving-ambition-32.mp3");
    ("Jazz Groove",
     "https://assets.mixkit.co/music/preview/mixkit-jazzy-lounge-95.mp3");
    ("Orchestral",
     "https://assets.mixkit.co/music/preview/mixkit-serene-view-443.mp3") ]%string.

(** [tracks.findIndex(track => track.name === name)], from index [i] on. *)
Fixpoint findIndexFrom (i : Z) (tracks : list (String.string * String.string))
    (name : String.string) : Z :=
  match tracks with
  | [] => (-1)%Z
  | track :: rest =>
      if String.eqb (fst track) name then i
      else findIndexFrom (i + 1) rest name
  end.

Definition findIndex (name : String.string) : Z :=
  findIndexFrom 0 sampleTracks name.

(** [!currentTrack]: the state is [null] or the empty string. *)
Definition noTrack (currentTrack : option String.string) : bool :=
  match currentTrack with
  | None => true
  | Some name => String.eqb name String.EmptyString
  end.

Definition trackName (currentTrack : option String.string) : String.string :=
  match currentTrack with Some name => name | None => String.EmptyString end.

(** The track handed to [playSampleTrack] by [skipToNextTrack]; [None] is
    [undefined] (no such entry). *)
Definition skipToNextTrack (currentTrack : option String.string)
  : option (String.string * String.string) :=
  if noTrack currentTrack then arrayGet sampleTracks 0
  else
    let currentIndex := findIndex (trackName currentTrack) in
    let nextIndex :=
      Z.rem (currentIndex + 1) (Z.of_nat (length sampleTracks)) in
    arrayGet sampleTracks nextIndex.

(** The track handed to [playSampleTrack] by [skipToPreviousTrack]. *)
Definition skipToPreviousTrack (currentTrack : option String.string)
  : option (String.string * String.string) :=
  if noTrack currentTrack
  then arrayGet sampleTracks (Z.of_nat (length sampleTracks) - 1)
  else
    let currentIndex := findIndex (trackName currentTrack) in
    let prevIndex :=
      Z.rem (currentIndex - 1 + Z.of_nat (length sampleTracks))
            (Z.of_nat (length sampleTracks)) in
    arrayGet sampleTracks prevIndex.

(** [currentTrack] after [playSampleTrack(track)] with the audio element
    present: [setCurrentTrack(track.name)]. *)
Definition playSampleTrack (track : String.string * String.string)
  : option String.string := Some (fst track).

(** [a % b] on numbers. *)
Definition jrem (a b : jsnum) : jsnum :=
  match a, b with
  | Fin x, Fin y => if Qzero_b y then NaN else Fin (jsRem x y)
  | Fin x, Inf _ => Fin x
  | _, _ => NaN
  end.

(** A whole number of magnitude below 2^53: the numbers whose text in a
    template literal is their decimal digits.  (From 2^53 on the text is the
    shortest digits that identify the double, which exact arithmetic does not
    give.) *)
Definition safeInteger (q : Q) : bool :=
  Qeq_bool q (inject_Z (Qfloor q)) && (Z.abs (Qfloor q) <? 2 ^ 53)%Z.

(** The text of a number in a template literal: of NaN, of the infinities
    and of a safe integer; [None] for the numbers whose text is not
    modelled. *)
Definition numberToString (a : jsnum) : option String.string :=
  match a with
  | Fin q =>
      if safeInteger q
      then Some (DecimalString.NilZero.string_of_int (Z.to_int (Qfloor q)))
      else None
  | NaN => Some "NaN"%string
  | Inf false => Some "Infinity"%string
  | Inf true => Some "-Infinity"%string
  end.

(** [s.padStart(2, '0')] *)
Definition padStart2 (s : String.string) : String.string :=
  match String.length s with
  | O => "00"%string
  | S O => String.append "0"%string s
  | _ => s
  end.

Definition isNaN (a : jsnum) : bool :=
  match a with NaN => true | _ => false end.

(** The finite times of magnitude below 2^53 seconds: there the quotient
    [time / 60] computed in doubles has the same floor as the exact one. *)
Definition exactTime (time : jsnum) : bool :=
  match time with
  | Fin q => Qlt_b (Qabs q) (inject_Z (2 ^ 53))
  | _ => true
  end.

(** [formatTime]; [None] outside the modelled range ([exactTime]). *)
Definition formatTime (time : jsnum) : option String.string :=
  if isNaN time then Some "0:00"%string
  else if negb (exactTime time) then None
  else
    let minutes := jfloor (jdiv time (Fin 60)) in
    let seconds := jfloor (jrem time (Fin 60)) in
    match numberToString minutes, numberToString seconds with
    | Some m, Some s =>
        Some (String.append m (String.append ":"%string (padStart2 s)))
    | _, _ => None
    end.

End App.

(** Vocabulary for the clock text: the decimal text of an integer and the
    two decimal digits of a number below 100. *)
Definition decimalText (z : Z) : String.string :=
  DecimalString.NilZero.string_of_int (Z.to_int z).

Definition twoDigits (s : Z) : String.string :=
  String.String (Ascii.ascii_of_nat (48 + Z.to_nat (s / 10)))
    (String.String (Ascii.ascii_of_nat (48 + Z.to_nat (s mod 10)))
       String.EmptyString).

(** The names of the sample tracks. *)
Definition sampleNames : list String.string := map fst App.sampleTracks.

(* ===================================================================== *)
(** * Properties *)
(* ===================================================================== *)

(** ** Arithmetic of the embedded numbers *)

Lemma Qlt_b_true a b : Qlt_b a b = true <-> a < b.
Proof.
  unfold Qlt_b. rewrite negb_true_iff. split; intro H.
  - apply Qnot_le_lt. intro Hle. apply Qle_bool_iff in Hle. congruence.
  - destruct (Qle_bool b a) eqn:E; [|reflexivity].
    apply Qle_bool_iff in E. exfalso. apply (Qlt_not_le _ _ H E).
Qed.

Lemma Qlt_b_false a b : Qlt_b a b = false <-> b <= a.
Proof.
  unfold Qlt_b. rewrite negb_false_iff. apply Qle_bool_iff.
Qed.

Lemma Qzero_b_inject k : (k <> 0)%Z -> Qzero_b (inject_Z k) = false.
Proof.
  intro Hk. unfold Qzero_b. destruct (Qeq_bool (inject_Z k) 0) eqn:E; auto.
  apply Qeq_bool_iff in E. unfold Qeq in E. simpl in E. lia.
Qed.

Lemma Qmin_unit a : 0 <= a -> 0 <= Qmin 1 a <= 1.
Proof.
  intro Ha. destruct (Q.min_spec 1 a) as [[H E]|[H E]]; rewrite E; lra.
Qed.

Lemma Qmax_unit a : a <= 1 -> 0 <= Qmax 0 a <= 1.
Proof.
  intro Ha. destruct (Q.max_spec 0 a) as [[H E]|[H E]]; rewrite E; lra.
Qed.

(** Rounding keeps a number between the integers that bound it. *)
Lemma jsRound_between lo hi x :
  inject_Z lo <= x -> x <= inject_Z hi -> (lo <= jsRound x <= hi)%Z.
Proof.
  intros Hlo Hhi. unfold jsRound. split.
  - rewrite <- (Qfloor_Z lo). apply Qfloor_resp_le. lra.
  - assert (H : (Qfloor (x + 0.5) < hi + 1)%Z); [|lia].
    rewrite Zlt_Qlt. eapply Qle_lt_trans; [apply Qfloor_le|].
    rewrite inject_Z_plus. change (inject_Z 1) with 1. lra.
Qed.

Lemma jsRound_Z z : jsRound (inject_Z z) = z.
Proof.
  unfold jsRound.
  assert (H : (z <= Qfloor (inject_Z z + 0.5) < z + 1)%Z); [|lia].
  split.
  - rewrite <- (Qfloor_Z z) at 1. apply Qfloor_resp_le. lra.
  - rewrite Zlt_Qlt. eapply Qle_lt_trans; [apply Qfloor_le|].
    rewrite inject_Z_plus. change (inject_Z 1) with 1. lra.
Qed.

(** ** Feature extraction *)

Lemma sumBands_spec r values : forall i s,
  sumBands r i values s =
  {| bassSum :=
       if (i <? 0)%Z then bassSum (sumBands r i values s)
       else bassSum s + bandSum 0 (bassRange r) i values;
     lowMidSum := lowMidSum s + bandSum (bassRange r) (lowMidRange r) i values;
     highMidSum :=
       highMidSum s + bandSum (lowMidRange r) (highMidRange r) i values;
     trebleSum :=
       trebleSum s + bandSum (highMidRange r) (trebleRange r) i values;
     totalSum := totalSum s + sumZ values |}%Z.
Proof.
  induction values as [|v rest IH]; intros i s.
  - destruct s; simpl. destruct (i <? 0)%Z; f_equal; lia.
  - simpl sumBands. destruct (i <? 0)%Z eqn:Ei.
    + rewrite IH at 1. simpl. f_equal; try lia.
      * destruct (i + 1 <? 0)%Z eqn:E1; [reflexivity|].
        rewrite IH. simpl. rewrite E1. reflexivity.
      * destruct ((bassRange r <=? i)%Z && (i <? lowMidRange r)%Z); lia.
      * destruct ((lowMidRange r <=? i)%Z && (i <? highMidRange r)%Z); lia.
      * destruct ((highMidRange r <=? i)%Z && (i <? trebleRange r)%Z); lia.
    + rewrite IH. simpl.
      assert (E1 : (i + 1 <? 0)%Z = false) by lia. rewrite E1.
      assert (E0 : (0 <=? i)%Z = true) by lia. rewrite E0. simpl.
      f_equal; try lia.
      * destruct (i <? bassRange r)%Z; lia.
      * destruct ((bassRange r <=? i)%Z && (i <? lowMidRange r)%Z); lia.
      * destruct ((lowMidRange r <=? i)%Z && (i <? highMidRange r)%Z); lia.
      * destruct ((highMidRange r <=? i)%Z && (i <? trebleRange r)%Z); lia.
Qed.

Lemma bandSum_bound lo hi values : forall i,
  Forall isByte values ->
  (0 <= bandSum lo hi i values
   <= 255 * Z.max 0 (Z.min hi (i + Z.of_nat (length values)) - Z.max lo i))%Z.
Proof.
  induction values as [|v rest IH]; intros i Hall.
  - cbn [bandSum length]. lia.
  - inversion Hall as [|? ? Hv Hrest]; subst.
    specialize (IH (i + 1)%Z Hrest). unfold isByte in Hv.
    cbn [bandSum length].
    destruct ((lo <=? i)%Z && (i <? hi)%Z) eqn:E.
    + apply andb_true_iff in E. destruct E as [E1 E2]. lia.
    + apply andb_false_iff in E. destruct E as [E|E]; lia.
Qed.

Lemma level_unit s k :
  (0 <= s <= 255 * k)%Z -> (1 <= k)%Z ->
  exists q, jdiv (jdiv (ofZ s) (ofZ k)) (Fin 255) = Fin q
            /\ q == inject_Z s / inject_Z k / 255 /\ 0 <= q <= 1.
Proof.
  intros Hs Hk. unfold ofZ, jdiv.
  rewrite (Qzero_b_inject k) by lia.
  change (Qzero_b 255) with false. cbv iota.
  eexists. split; [reflexivity|]. split; [reflexivity|].
  assert (Hk' : inject_Z 0 < inject_Z k) by (rewrite <- Zlt_Qlt; lia).
  assert (H0 : inject_Z 0 <= inject_Z s) by (rewrite <- Zle_Qle; lia).
  change (inject_Z 0) with 0 in Hk', H0.
  assert (H1 : inject_Z s <= 255 * inject_Z k).
  { change 255 with (inject_Z 255). rewrite <- inject_Z_mult.
    rewrite <- Zle_Qle. lia. }
  split.
  - apply Qle_shift_div_l; [lra|]. apply Qle_shift_div_l; [lra|]. lra.
  - apply Qle_shift_div_r; [lra|]. apply Qle_shift_div_r; [lra|]. lra.
Qed.

Lemma Forall_isByte_firstn n (data : list Z) :
  Forall isByte data -> Forall isByte (firstn n data).
Proof.
  intro H. rewrite <- (firstn_skipn n data) in H.
  apply Forall_app in H. tauto.
Qed.

(** Band sums of a whole frame, as computed by the loop. *)
Lemma frame_sums data :
  let N := Z.of_nat (length data) in
  let r := ranges N in
  let values := firstn (Z.to_nat (Z.min 200 N)) data in
  let s := sumBands r 0 values (mkSums 0 0 0 0 0) in
  bassSum s = bandSum 0 (bassRange r) 0 values
  /\ lowMidSum s = bandSum (bassRange r) (lowMidRange r) 0 values
  /\ highMidSum s = bandSum (lowMidRange r) (highMidRange r) 0 values
  /\ trebleSum s = bandSum (highMidRange r) (trebleRange r) 0 values
  /\ totalSum s = sumZ values.
Proof.
  intros N r values s. subst s. rewrite sumBands_spec. cbn.
  repeat split; reflexivity.
Qed.

Lemma sumZ_bound values :
  Forall isByte values ->
  (0 <= sumZ values <= 255 * Z.of_nat (length values))%Z.
Proof.
  induction 1 as [|v rest Hv _ IH]; cbn [sumZ fold_right length].
  - lia.
  - unfold isByte in Hv. fold (sumZ rest). lia.
Qed.

(** On a non-empty frame of bytes every level is a finite number of the
    unit interval, and [average] is the mean of the bins read. *)
Lemma extractFeatures_levels data :
  data <> [] -> Forall isByte data ->
  let n := Z.min 200 (Z.of_nat (length data)) in
  exists a b l h t,
    extractFeatures data =
      {| average := Fin a; bassLevel := Fin b; lowMidLevel := Fin l;
         highMidLevel := Fin h; trebleLevel := Fin t |}
    /\ 0 <= a <= 1 /\ 0 <= b <= 1 /\ 0 <= l <= 1 /\ 0 <= h <= 1 /\ 0 <= t <= 1
    /\ a == inject_Z (sumZ (firstn (Z.to_nat n) data)) / inject_Z n / 255.
Proof.
  intros Hne Hall n.
  assert (HN : (1 <= Z.of_nat (length data))%Z).
  { destruct data; [congruence | cbn [length]; lia]. }
  unfold extractFeatures.
  destruct (frame_sums data) as (Eb & El & Eh & Et & Ea).
  cbv zeta in Eb, El, Eh, Et, Ea. rewrite Eb, El, Eh, Et, Ea.
  fold n.
  set (values := firstn (Z.to_nat n) data).
  assert (Hvals : Forall isByte values) by (apply Forall_isByte_firstn; exact Hall).
  assert (Hlen : Z.of_nat (length values) = n).
  { unfold values. rewrite length_firstn. unfold n. lia. }
  pose proof (sumZ_bound values Hvals) as Ba.
  pose proof (bandSum_bound 0 (bassRange (ranges (Z.of_nat (length data))))
                values 0 Hvals) as Bb.
  pose proof (bandSum_bound (bassRange (ranges (Z.of_nat (length data))))
                (lowMidRange (ranges (Z.of_nat (length data))))
                values 0 Hvals) as Bl.
  pose proof (bandSum_bound (lowMidRange (ranges (Z.of_nat (length data))))
                (highMidRange (ranges (Z.of_nat (length data))))
                values 0 Hvals) as Bh.
  pose proof (bandSum_bound (highMidRange (ranges (Z.of_nat (length data))))
                (trebleRange (ranges (Z.of_nat (length data))))
                values 0 Hvals) as Bt.
  rewrite Hlen in Ba, Bb, Bl, Bh, Bt.
  cbn [ranges bassRange lowMidRange highMidRange trebleRange] in *.
  set (N := Z.of_nat (length data)) in *.
  assert (Hn : (1 <= n)%Z) by (unfold n; lia).
  assert (Ca : (0 <= sumZ values <= 255 * n)%Z) by lia.
  assert (Cb : (0 <= bandSum 0 (Z.min 10 N) 0 values <= 255 * Z.min 10 N)%Z)
    by (unfold n in *; lia).
  assert (Cl : (0 <= bandSum (Z.min 10 N) (Z.min 40 N) 0 values
                <= 255 * Z.max 1 (Z.min 40 N - Z.min 10 N))%Z)
    by (unfold n in *; lia).
  assert (Ch : (0 <= bandSum (Z.min 40 N) (Z.min 100 N) 0 values
                <= 255 * Z.max 1 (Z.min 100 N - Z.min 40 N))%Z)
    by (unfold n in *; lia).
  assert (Ct : (0 <= bandSum (Z.min 100 N) (Z.min 200 N) 0 values
                <= 255 * Z.max 1 (Z.min 200 N - Z.min 100 N))%Z)
    by (unfold n in *; lia).
  clear Ba Bb Bl Bh Bt.
  destruct (level_unit _ _ Ca Hn) as (a & Ea' & Eqa & Ha).
  destruct (level_unit _ (Z.min 10 N) Cb) as (b & Eb' & _ & Hb); [lia|].
  destruct (level_unit _ _ Cl) as (l & El' & _ & Hl); [lia|].
  destruct (level_unit _ _ Ch) as (h & Eh' & _ & Hh); [lia|].
  destruct (level_unit _ _ Ct) as (t & Et' & _ & Ht); [lia|].
  exists a, b, l, h, t.
  unfold n in *. fold N in Ea'. rewrite Ea', Eb', El', Eh', Et'.
  repeat split; tauto.
Qed.





(** C6.  For a non-empty frequency array of bytes, each band energy and the
    overall average are finite numbers in [0,1], and the average is the sum of
    the first min(200, N) bins divided by their number and by 255. *)
Theorem extractFeatures_unit_interval (data : list Z) :
  data <> [] -> Forall isByte data ->
  let lv := extractFeatures data in
  let n := Nat.min 200 (length data) in
  unitLevel (bassLevel lv) /\ unitLevel (lowMidLevel lv)
  /\ unitLevel (highMidLevel lv) /\ unitLevel (trebleLevel lv)
  /\ unitLevel (average lv)
  /\ jsnum_eq (average lv)
       (Fin (inject_Z (sumZ (firstn n data)) / inject_Z (Z.of_nat n) / 255)).
Proof.
  intros Hne Hall lv n.
  destruct (extractFeatures_levels data Hne Hall)
    as (a & b & l & h & t & E & Ha & Hb & Hl & Hh & Ht & Eqa).
  subst lv. rewrite E. cbn [bassLevel lowMidLevel highMidLevel trebleLevel
                             average unitLevel jsnum_eq].
  repeat split; try tauto.
  rewrite Eqa.
  assert (En : Z.min 200 (Z.of_nat (length data)) = Z.of_nat n)
    by (unfold n; lia).
  rewrite En. rewrite Nat2Z.id. reflexivity.
Qed.

Lemma extractFeatures_unit_interval_witness :
  unitLevel (bassLevel (extractFeatures [255; 0; 128]%Z))
  /\ jsnum_eq (average (extractFeatures [255; 0; 128]%Z))
       (Fin (inject_Z 383 / inject_Z 3 / 255)).
Proof.
  assert (Hne : [255; 0; 128]%Z <> []) by discriminate.
  assert (Hall : Forall isByte [255; 0; 128]%Z)
    by (repeat constructor; unfold isByte; lia).
  pose proof (extractFeatures_unit_interval [255; 0; 128]%Z Hne Hall) as H.
  cbv zeta in H. split; [apply H | apply H].
Defined.

(** ** Beat detector *)

Lemma processFrame_beat cfg st inp :
  let r := beatStep (bdOf st) (frame st + 1)
                    (bassLevel (extractFeatures (dataArray inp))) in
  bdOf (fst (processFrame cfg st inp)) = fst r
  /\ outIsBeat (snd (processFrame cfg st inp)) = snd r
  /\ outFrame (snd (processFrame cfg st inp)) = (frame st + 1)%Z
  /\ frame (fst (processFrame cfg st inp)) = (frame st + 1)%Z.
Proof.
  unfold processFrame, bdOf.
  destruct (beatStep (beatDetector (audioState st)) (frame st + 1)
              (bassLevel (extractFeatures (dataArray inp)))) as [bd b].
  cbn. repeat split; reflexivity.
Qed.

(** What one step of the detector does to the cooldown and the confidence. *)
Lemma beatStep_facts bd frame bass :
  let r := beatStep bd frame bass in
  (snd r = true ->
     lastBeat (fst r) = frame /\ (frame - lastBeat bd > 10)%Z
     /\ confidence (fst r) = Qmin 1 (confidence bd + 0.1))
  /\ (snd r = false ->
        lastBeat (fst r) = lastBeat bd
        /\ confidence (fst r) = Qmax 0 (confidence bd - 0.01)).
Proof.
  unfold beatStep.
  destruct (jgt bass _ && jgt bass _ && (10 <? frame - lastBeat bd)%Z) eqn:E;
    cbn; split; intro H; try discriminate.
  - apply andb_true_iff in E. destruct E as [_ E]. repeat split. lia.
  - split; reflexivity.
Qed.

Lemma bandSum_above lo hi values : forall i,
  (hi <= i)%Z -> bandSum lo hi i values = 0%Z.
Proof.
  induction values as [|v rest IH]; intros i Hi; cbn [bandSum].
  - reflexivity.
  - rewrite IH by lia.
    assert (E : (i <? hi)%Z = false) by lia. rewrite E, andb_false_r.
    reflexivity.
Qed.

(** The bass level of a bass-only frame, whatever the number of other bins. *)
Lemma bassOnlyFrame_bass others :
  bassLevel (extractFeatures (bassOnlyFrame others)) = fullBass.
Proof.
  unfold extractFeatures.
  destruct (frame_sums (bassOnlyFrame others)) as (Eb & _).
  cbv zeta in Eb. cbn [bassLevel]. rewrite Eb.
  assert (EN : Z.of_nat (length (bassOnlyFrame others))
               = (10 + Z.of_nat others)%Z).
  { unfold bassOnlyFrame. rewrite length_app, !repeat_length. lia. }
  rewrite EN. cbn [ranges bassRange].
  assert (E10 : Z.min 10 (10 + Z.of_nat others) = 10%Z) by lia.
  rewrite E10.
  unfold bassOnlyFrame.
  rewrite firstn_app, repeat_length.
  rewrite (firstn_all2 (repeat 255%Z 10))
    by (rewrite repeat_length; lia).
  cbn [repeat app bandSum Z.leb Z.ltb Z.compare Pos.compare Pos.compare_cont
       andb Z.add Pos.add Pos.succ Pos.add_carry].
  rewrite bandSum_above by lia.
  reflexivity.
Qed.

Lemma fullBass_is_one : jsnum_eq fullBass (Fin 1).
Proof. vm_compute. reflexivity. Qed.

(** Full bass never beats its own average by the margin of 1.2 once the
    history holds nothing else, and the cooldown blocks the frames before. *)
Lemma beatStep_saturating k :
  beatStep (saturating k) (Z.of_nat k + 1) fullBass = (saturating (S k), false).
Proof.
  destruct k as [|[|[|[|[|k]]]]]; vm_compute; reflexivity.
Qed.

Lemma runFrames_saturating cfg others rnds : forall st k,
  bdOf st = saturating k -> frame st = Z.of_nat k ->
  let r := runFrames cfg st (map (bassOnlyInput others) rnds) in
  Forall (fun o => outIsBeat o = false) (snd r)
  /\ bdOf (fst r) = saturating (k + length rnds).
Proof.
  induction rnds as [|rnd rest IH]; intros st k Hbd Hfr.
  - cbn. split; [constructor|]. rewrite Nat.add_0_r. exact Hbd.
  - cbn [map runFrames].
    destruct (processFrame_beat cfg st (bassOnlyInput others rnd))
      as (E1 & E2 & _ & E4).
    cbv zeta in E1, E2.
    cbn [bassOnlyInput dataArray] in E1, E2.
    rewrite bassOnlyFrame_bass, Hbd, Hfr, beatStep_saturating in E1, E2.
    cbn [fst snd] in E1, E2.
    destruct (processFrame cfg st (bassOnlyInput others rnd)) as [st1 out].
    cbn [fst snd] in E1, E2, E4.
    assert (Hfr1 : frame st1 = Z.of_nat (S k)) by lia.
    specialize (IH st1 (S k) E1 Hfr1). cbv zeta in IH.
    destruct (runFrames cfg st1 (map (bassOnlyInput others) rest))
      as [st2 outs].
    cbn [fst snd] in IH |- *. destruct IH as [IH1 IH2]. split.
    + constructor; assumption.
    + rewrite IH2. cbn [length]. f_equal. lia.
Qed.

Lemma beatCount_none outs :
  Forall (fun o => outIsBeat o = false) outs -> beatCount outs = 0%nat.
Proof.
  unfold beatCount. induction 1 as [|o rest Ho _ IH]; cbn [filter].
  - reflexivity.
  - rewrite Ho. exact IH.
Qed.

(** C3 (as amended).  From the initial detector state, frames whose ten bass
    bins are all 255 and whose other bins are 0 never make the detector fire,
    over 15 frames or any other number of them and for every buffer length:
    the cooldown blocks the first frames, and from the fifth frame on the
    history average equals the bass level, so bass > average * 1.2 fails.
    The confidence stays 0. *)
Theorem constant_full_bass_never_fires
    (cfg : PerformanceConfig) (depth0 : Z) (others : nat)
    (rnds : list (Q * Q)) :
  let r := runFrames cfg (initialEngine depth0)
                     (map (bassOnlyInput others) rnds) in
  Forall (fun o => outIsBeat o = false) (snd r)
  /\ beatCount (snd r) = 0%nat
  /\ confidence (bdOf (fst r)) = 0.
Proof.
  intro r.
  destruct (runFrames_saturating cfg others rnds (initialEngine depth0) 0)
    as [H1 H2]; [reflexivity | reflexivity |].
  fold r in H1, H2. split; [exact H1|]. split.
  - apply beatCount_none. exact H1.
  - rewrite H2. reflexivity.
Qed.

(** C3 (counterexample).  With a buffer of 128 bins under the high-end
    profile, 15 bass-only frames from the mounted state do not produce
    exactly one beat. *)
Lemma constant_full_bass_fires_once_fails :
  beatCount
    (snd (runFrames (fst (mount (Some 8%Z) false))
                    (snd (mount (Some 8%Z) false))
                    (repeat (frameOf (bassOnlyFrame 118)) 15)))
  <> 1%nat.
Proof. vm_compute. discriminate. Qed.

Lemma draw_cases cfg st inp :
  draw cfg st inp = (tick st, None)
  \/ draw cfg st inp =
       (fst (processFrame cfg (tick st) inp),
        Some (snd (processFrame cfg (tick st) inp))).
Proof.
  unfold draw.
  destruct (negb (Z.rem (frameCounter (tick st)) (drawEveryNthFrame cfg) =? 0)%Z).
  - left. reflexivity.
  - right. destruct (processFrame cfg (tick st) inp). reflexivity.
Qed.

(** Every beat of a run comes more than ten frames after the beat recorded
    in the starting state, and the beats of the run are that far apart. *)
Lemma runDraw_cooldown cfg inputs : forall st,
  let r := runDraw cfg st inputs in
  Forall (fun o => outIsBeat o = true ->
                   (outFrame o - lastBeat (bdOf st) > 10)%Z) (snd r)
  /\ ForallOrdPairs beatsApart (snd r).
Proof.
  induction inputs as [|inp rest IH]; intro st.
  - cbn. split; constructor.
  - cbn [runDraw]. destruct (draw_cases cfg st inp) as [E|E]; rewrite E.
    + specialize (IH (tick st)). cbv zeta in IH.
      destruct (runDraw cfg (tick st) rest) as [st2 outs].
      cbn [fst snd] in *. exact IH.
    + destruct (processFrame_beat cfg (tick st) inp) as (E1 & E2 & E3 & _).
      cbv zeta in E1, E2.
      pose proof (beatStep_facts (bdOf (tick st)) (frame (tick st) + 1)
                    (bassLevel (extractFeatures (dataArray inp)))) as F.
      cbv zeta in F. rewrite <- E1, <- E2 in F.
      set (st1 := fst (processFrame cfg (tick st) inp)) in *.
      set (out := snd (processFrame cfg (tick st) inp)) in *.
      specialize (IH st1). cbv zeta in IH.
      destruct (runDraw cfg st1 rest) as [st2 outs].
      cbn [fst snd] in *. destruct IH as [IH1 IH2].
      destruct F as [Ft Ff].
      change (bdOf (tick st)) with (bdOf st) in *.
      destruct (outIsBeat out) eqn:Eb.
      * destruct (Ft eq_refl) as (L1 & L2 & _). split.
        -- constructor; [intros _; lia|].
           eapply Forall_impl; [|exact IH1]. cbv beta. intros o Ho Hb.
           specialize (Ho Hb). lia.
        -- constructor; [|exact IH2].
           eapply Forall_impl; [|exact IH1]. cbv beta. intros o Ho.
           unfold beatsApart. intros _ Hb. specialize (Ho Hb). lia.
      * destruct (Ff eq_refl) as (L1 & _). split.
        -- constructor; [intro Hb; congruence|].
           rewrite <- L1. exact IH1.
        -- constructor; [|exact IH2].
           apply Forall_forall. intros o _. unfold beatsApart.
           intro Hb. congruence.
Qed.

(** The processed frames of a run are numbered consecutively. *)
Lemma runDraw_frames cfg inputs : forall st,
  let r := runDraw cfg st inputs in
  map outFrame (snd r)
  = map (fun k => (frame st + Z.of_nat k)%Z) (seq 1 (length (snd r))).
Proof.
  induction inputs as [|inp rest IH]; intro st.
  - reflexivity.
  - cbn [runDraw]. destruct (draw_cases cfg st inp) as [E|E]; rewrite E.
    + specialize (IH (tick st)). cbv zeta in IH.
      destruct (runDraw cfg (tick st) rest) as [st2 outs].
      cbn [fst snd] in *. exact IH.
    + destruct (processFrame_beat cfg (tick st) inp) as (_ & _ & E3 & E4).
      set (st1 := fst (processFrame cfg (tick st) inp)) in *.
      set (out := snd (processFrame cfg (tick st) inp)) in *.
      specialize (IH st1). cbv zeta in IH.
      destruct (runDraw cfg st1 rest) as [st2 outs].
      cbn [fst snd length] in *. cbn [seq map].
      change (frame (tick st)) with (frame st) in *.
      rewrite E3. apply f_equal2; [lia|].
      rewrite IH, E4, <- (seq_shift (length outs) 1), map_map.
      apply map_ext. intro k. lia.
Qed.

Lemma confidence_step_unit bd frame bass :
  0 <= confidence bd <= 1 ->
  0 <= confidence (fst (beatStep bd frame bass)) <= 1.
Proof.
  intro H. pose proof (beatStep_facts bd frame bass) as F. cbv zeta in F.
  destruct F as [Ft Ff]. destruct (snd (beatStep bd frame bass)).
  - destruct (Ft eq_refl) as (_ & _ & E). rewrite E. apply Qmin_unit. lra.
  - destruct (Ff eq_refl) as (_ & E). rewrite E. apply Qmax_unit. lra.
Qed.

Lemma runDraw_confidence cfg inputs : forall st,
  0 <= confidence (bdOf st) <= 1 ->
  0 <= confidence (bdOf (fst (runDraw cfg st inputs))) <= 1.
Proof.
  induction inputs as [|inp rest IH]; intros st H.
  - exact H.
  - cbn [runDraw]. destruct (draw_cases cfg st inp) as [E|E]; rewrite E.
    + specialize (IH (tick st) H).
      destruct (runDraw cfg (tick st) rest) as [st2 outs]. exact IH.
    + destruct (processFrame_beat cfg (tick st) inp) as (E1 & _).
      cbv zeta in E1.
      set (st1 := fst (processFrame cfg (tick st) inp)) in *.
      assert (H1 : 0 <= confidence (bdOf st1) <= 1).
      { rewrite E1. apply confidence_step_unit. exact H. }
      specialize (IH st1 H1).
      destruct (runDraw cfg st1 rest) as [st2 outs]. exact IH.
Qed.

(** C5.  In every run from the mounted state, whatever the inputs: the
    processed frames are numbered 1, 2, 3, ...; two beats are always more than
    10 frames apart, so no beat fires at a frame f' with 0 < f' - f <= 10
    after a beat at f; the confidence stays within [0,1]; and each processed
    frame sets it to min(1, confidence + 0.1) on a beat and to
    max(0, confidence - 0.01) otherwise. *)
Theorem beats_respect_cooldown
    (hardwareConcurrency : option Z) (isMobile : bool)
    (inputs : list FrameInput) :
  let cfg := fst (mount hardwareConcurrency isMobile) in
  let st0 := snd (mount hardwareConcurrency isMobile) in
  let st := fst (runDraw cfg st0 inputs) in
  let outs := snd (runDraw cfg st0 inputs) in
  map outFrame outs = map Z.of_nat (seq 1 (length outs))
  /\ ForallOrdPairs beatsApart outs
  /\ 0 <= confidence (bdOf st) <= 1
  /\ (forall st' inp,
        confidence (bdOf (fst (processFrame cfg st' inp)))
        = if outIsBeat (snd (processFrame cfg st' inp))
          then Qmin 1 (confidence (bdOf st') + 0.1)
          else Qmax 0 (confidence (bdOf st') - 0.01)).
Proof.
  intros cfg st0 st outs.
  assert (E0 : st0 = initialEngine (snd (detectPerformance hardwareConcurrency isMobile))).
  { unfold st0, mount. destruct (detectPerformance _ _). reflexivity. }
  split; [|split; [|split]].
  - unfold outs. rewrite runDraw_frames. apply map_ext.
    intro k. rewrite E0. cbn [initialEngine frame]. lia.
  - apply (runDraw_cooldown cfg inputs st0).
  - apply runDraw_confidence. rewrite E0. cbn. lra.
  - intros st' inp.
    destruct (processFrame_beat cfg st' inp) as (E1 & E2 & _).
    cbv zeta in E1, E2. rewrite E1, E2.
    pose proof (beatStep_facts (bdOf st') (frame st' + 1)
                  (bassLevel (extractFeatures (dataArray inp)))) as F.
    cbv zeta in F. destruct F as [Ft Ff].
    destruct (snd (beatStep (bdOf st') (frame st' + 1)
                     (bassLevel (extractFeatures (dataArray inp))))).
    + apply Ft. reflexivity.
    + apply Ff. reflexivity.
Qed.

(** ** Pattern transition *)

Lemma processFrame_pattern cfg st inp :
  let r := processFrame cfg st inp in
  let change := outPatternChange (snd r) in
  let p0 := if change then 0 else patternTransition st in
  let tgt :=
    if change
    then selectPattern cfg (extractFeatures (dataArray inp))
                       (currentPattern st) (rndPattern inp)
    else targetPattern st in
  (change = true -> patternTransition st == 1)
  /\ targetPattern (fst r) = tgt
  /\ patternTransition (fst r)
     = (if Qlt_b p0 1 then Qmin 1 (p0 + 0.025) else p0)
  /\ currentPattern (fst r)
     = (if Qlt_b p0 1 && Qeq_bool (patternTransition (fst r)) 1
        then tgt else currentPattern st).
Proof.
  unfold processFrame.
  destruct (beatStep (beatDetector (audioState st)) (frame st + 1)
              (bassLevel (extractFeatures (dataArray inp)))) as [bd b].
  cbn [fst snd outPatternChange targetPattern patternTransition currentPattern].
  split; [|repeat split; reflexivity].
  unfold patternTrigger. intro H.
  apply andb_true_iff in H. destruct H as [_ H].
  apply Qeq_bool_iff. exact H.
Qed.

(** Progress [j] steps of 0.025 into a transition, one more step. *)
Lemma pattern_progress_advance p (j : Z) :
  p == inject_Z j * 0.025 -> (0 <= j < 40)%Z ->
  Qlt_b p 1 = true
  /\ Qmin 1 (p + 0.025) == inject_Z (j + 1) * 0.025
  /\ (Qeq_bool (Qmin 1 (p + 0.025)) 1 = true <-> j = 39%Z).
Proof.
  intros Hp Hj.
  assert (H0 : inject_Z 0 <= inject_Z j) by (rewrite <- Zle_Qle; lia).
  assert (H1 : inject_Z j <= inject_Z 39) by (rewrite <- Zle_Qle; lia).
  change (inject_Z 0) with 0 in H0. change (inject_Z 39) with 39 in H1.
  assert (Hlt : p < 1) by lra.
  assert (Hmin : Qmin 1 (p + 0.025) == inject_Z (j + 1) * 0.025).
  { rewrite inject_Z_plus. change (inject_Z 1) with 1.
    destruct (Q.min_spec 1 (p + 0.025)) as [[H E]|[H E]]; rewrite E; lra. }
  split; [apply Qlt_b_true; exact Hlt|]. split; [exact Hmin|].
  rewrite Qeq_bool_iff, Hmin. split; intro H.
  - assert (H' : inject_Z (j + 1) == inject_Z 40).
    { change (inject_Z 40) with 40. lra. }
    apply (proj1 (inject_Z_injective _ _)) in H'. lia.
  - subst j. reflexivity.
Qed.

(** A transition that is [j] steps old runs undisturbed for the frames that
    take it to step 40 at most. *)
Lemma runFrames_pattern_progress cfg inputs : forall st (j : Z),
  patternTransition st == inject_Z j * 0.025 ->
  (1 <= j)%Z -> (j + Z.of_nat (length inputs) <= 40)%Z ->
  let r := runFrames cfg st inputs in
  patternTransition (fst r)
    == inject_Z (j + Z.of_nat (length inputs)) * 0.025
  /\ targetPattern (fst r) = targetPattern st
  /\ Forall (fun o => outPatternChange o = false) (snd r)
  /\ ((j + Z.of_nat (length inputs) < 40)%Z ->
      currentPattern (fst r) = currentPattern st)
  /\ ((j + Z.of_nat (length inputs) = 40)%Z -> inputs <> [] ->
      currentPattern (fst r) = targetPattern st).
Proof.
  induction inputs as [|inp rest IH]; intros st j Hp Hj Hlen.
  - cbn [runFrames fst snd length]. rewrite Z.add_0_r.
    repeat split; try assumption; try reflexivity; try constructor.
    intros _ H. congruence.
  - cbn [length] in Hlen |- *. cbn [runFrames].
    destruct (processFrame_pattern cfg st inp) as (Hc & Ht & Hpt & Hcur).
    cbv zeta in Hc, Ht, Hpt, Hcur.
    destruct (pattern_progress_advance _ j Hp) as (Hlt & Hmin & Hone);
      [lia|].
    assert (Hnc : outPatternChange (snd (processFrame cfg st inp)) = false).
    { destruct (outPatternChange (snd (processFrame cfg st inp))); auto.
      specialize (Hc eq_refl). apply Qlt_b_true in Hlt. lra. }
    rewrite Hnc in Ht, Hpt, Hcur. rewrite Hlt in Hpt, Hcur.
    rewrite Hpt in Hcur. cbn [andb] in Hcur.
    destruct (processFrame cfg st inp) as [st1 out].
    cbn [fst snd] in Ht, Hpt, Hcur, Hnc.
    assert (Hp1 : patternTransition st1 == inject_Z (j + 1) * 0.025)
      by (rewrite Hpt; exact Hmin).
    destruct rest as [|inp2 rest2].
    + cbn [runFrames fst snd length] in *.
      replace (j + Z.of_nat 1)%Z with (j + 1)%Z by lia.
      split; [exact Hp1|]. split; [exact Ht|].
      split; [constructor; [exact Hnc|constructor]|]. split.
      * intro H. rewrite Hcur.
        destruct (Qeq_bool (Qmin 1 (patternTransition st + 0.025)) 1);
          [|reflexivity].
        destruct Hone as [Hone _]. specialize (Hone eq_refl). lia.
      * intros H _. rewrite Hcur.
        destruct (Qeq_bool (Qmin 1 (patternTransition st + 0.025)) 1);
          [reflexivity|].
        destruct Hone as [_ Hone].
        assert (E' : j = 39%Z) by lia. specialize (Hone E'). discriminate.
    + specialize (IH st1 (j + 1)%Z Hp1). cbv zeta in IH.
      cbn [length] in IH, Hlen.
      destruct IH as (I1 & I2 & I3 & I4 & I5); [lia | lia |].
      assert (Hcur1 : currentPattern st1 = currentPattern st).
      { rewrite Hcur.
        destruct (Qeq_bool (Qmin 1 (patternTransition st + 0.025)) 1);
          [|reflexivity].
        destruct Hone as [Hone _]. specialize (Hone eq_refl). lia. }
      destruct (runFrames cfg st1 (inp2 :: rest2)) as [st2 outs].
      cbn [fst snd] in *.
      cbn [length].
      replace (j + Z.of_nat (S (S (length rest2))))%Z
        with (j + 1 + Z.of_nat (S (length rest2)))%Z by lia.
      split; [exact I1|]. split; [congruence|].
      split; [constructor; assumption|]. split.
      * intro H. rewrite I4 by exact H. exact Hcur1.
      * intros H _. rewrite I5; [exact Ht | exact H | discriminate].
Qed.

(** C4.  A pattern transition starts only from a completed one
    (progress = 1).  On the frame that starts it the progress is reset to 0
    and advanced to 0.025; [k] processed frames later it is (k + 1) * 0.025,
    no further change having started and the target being the one chosen;
    before the 40th frame the progress is below 1 and the current pattern is
    the old one, and on the 40th frame the progress is exactly 1 and the
    current pattern is the target. *)
Theorem pattern_transition_progress
    (cfg : PerformanceConfig) (st : Engine) (inp : FrameInput)
    (inputs : list FrameInput) :
  outPatternChange (snd (processFrame cfg st inp)) = true ->
  (length inputs <= 39)%nat ->
  let st1 := fst (processFrame cfg st inp) in
  let r := runFrames cfg st1 inputs in
  let k := Z.of_nat (length inputs) in
  patternTransition st == 1
  /\ targetPattern st1
     = selectPattern cfg (extractFeatures (dataArray inp))
                     (currentPattern st) (rndPattern inp)
  /\ patternTransition (fst r) == inject_Z (k + 1) * 0.025
  /\ targetPattern (fst r) = targetPattern st1
  /\ Forall (fun o => outPatternChange o = false) (snd r)
  /\ ((k < 39)%Z ->
      patternTransition (fst r) < 1
      /\ currentPattern (fst r) = currentPattern st)
  /\ ((k = 39)%Z ->
      patternTransition (fst r) == 1
      /\ currentPattern (fst r) = targetPattern (fst r)).
Proof.
  intros Hchange Hlen st1 r k.
  destruct (processFrame_pattern cfg st inp) as (Hc & Ht & Hpt & Hcur).
  cbv zeta in Hc, Ht, Hpt, Hcur.
  rewrite Hchange in Hc, Ht, Hpt, Hcur. fold st1 in Ht, Hpt, Hcur.
  change (Qlt_b 0 1) with true in Hpt, Hcur. cbv iota in Hpt.
  assert (Hp1 : patternTransition st1 == inject_Z 1 * 0.025).
  { rewrite Hpt. vm_compute. reflexivity. }
  assert (Hcur1 : currentPattern st1 = currentPattern st).
  { rewrite Hcur, Hpt. reflexivity. }
  destruct (runFrames_pattern_progress cfg inputs st1 1 Hp1)
    as (I1 & I2 & I3 & I4 & I5); [lia | lia |].
  fold r in I1, I2, I3, I4, I5.
  replace (1 + Z.of_nat (length inputs))%Z with (k + 1)%Z
    in I1, I4, I5 by (unfold k; lia).
  split; [apply Hc; reflexivity|]. split; [exact Ht|].
  split; [exact I1|]. split; [exact I2|]. split; [exact I3|]. split.
  - intro Hk. split.
    + rewrite I1.
      assert (H : inject_Z (k + 1) <= inject_Z 39)
        by (rewrite <- Zle_Qle; lia).
      change (inject_Z 39) with 39 in H. lra.
    + rewrite I4 by lia. exact Hcur1.
  - intro Hk. split.
    + rewrite I1, Hk. reflexivity.
    + rewrite I2. apply I5; [lia|].
      intro E. unfold k in Hk. rewrite E in Hk. discriminate.
Qed.

(** ** Pattern choice *)




(** ** Symmetry *)

Lemma mount_profile hardwareConcurrency isMobile :
  let cfg := fst (mount hardwareConcurrency isMobile) in
  (4 <= maxSymmetry cfg <= 10)%Z /\ Z.even (maxSymmetry cfg) = true
  /\ snd (mount hardwareConcurrency isMobile)
     = initialEngine (snd (detectPerformance hardwareConcurrency isMobile)).
Proof.
  unfold mount, detectPerformance.
  destruct isMobile; [cbn; repeat split; lia|].
  destruct hardwareConcurrency as [h|]; [|cbn; repeat split; lia].
  destruct (h <=? 4)%Z; [cbn; repeat split; lia|].
  destruct ((4 <? h)%Z && (h <? 8)%Z); [cbn; repeat split; lia|].
  destruct (8 <=? h)%Z; cbn; repeat split; lia.
Qed.

Lemma processFrame_symmetry cfg st inp :
  let r := processFrame cfg st inp in
  let change := outSymmetryChange (snd r) in
  let tgt :=
    if change
    then chooseSymmetry cfg (extractFeatures (dataArray inp)) (rndSymmetry inp)
    else targetSymmetry st in
  let t0 := if change then 0 else symmetryTransition st in
  targetSymmetry (fst r) = tgt
  /\ symmetryTransition (fst r)
     = (if Qlt_b t0 1 then Qmin 1 (t0 + 0.02) else t0)
  /\ symmetry (fst r)
     = (if Qlt_b t0 1
        then interpolateSymmetry (symmetry st) tgt (symmetryTransition (fst r))
        else symmetry st)
  /\ lastSymmetryChange (fst r)
     = (if change then (frame st + 1)%Z else lastSymmetryChange st)
  /\ change
     = symmetryTrigger (outBassImpact (snd r)) (confidence (bdOf (fst r)))
                       (frame st + 1) (lastSymmetryChange st)
                       (energyTrend (audioState (fst r)))
  /\ outLayers (snd r)
     = renderLayers cfg (symmetry (fst r)) (currentPattern (fst r))
                    (targetPattern (fst r)) (patternTransition (fst r)).
Proof.
  unfold processFrame, bdOf.
  destruct (beatStep (beatDetector (audioState st)) (frame st + 1)
              (bassLevel (extractFeatures (dataArray inp)))) as [bd b].
  cbn. repeat split; reflexivity.
Qed.

Lemma Even_even n : (exists m, n = 2 * m)%Z -> Z.even n = true.
Proof. intro H. apply Z.even_spec. exact H. Qed.

(** The chosen symmetry is even and within the profile's bounds, whatever
    [Math.random()] returns. *)
Lemma chooseSymmetry_range cfg lv random :
  (4 <= maxSymmetry cfg)%Z -> Z.even (maxSymmetry cfg) = true ->
  Z.even (chooseSymmetry cfg lv random) = true
  /\ (4 <= chooseSymmetry cfg lv random <= maxSymmetry cfg)%Z.
Proof.
  intros Hmin Heven. unfold chooseSymmetry.
  apply Z.even_spec in Heven. destruct Heven as [a Ha].
  set (raw := if jgt (bassLevel lv) (Fin 0.7) && _ then _ else _).
  assert (Hraw : exists b, raw = (2 * b)%Z).
  { unfold raw.
    destruct (jgt (bassLevel lv) (Fin 0.7)
              && jgt (bassLevel lv) (highMidLevel lv)).
    - exists (2 + jsFloor (random * 4))%Z. lia.
    - destruct (jgt (lowMidLevel lv) (Fin 0.6)).
      + exists (3 + jsFloor (random * 4))%Z. lia.
      + exists (4 + jsFloor (random * inject_Z (maxSymmetry cfg - 8) / 2))%Z.
        lia. }
  destruct Hraw as [b Hb]. split; [|lia].
  apply Even_even.
  destruct (Z.min_spec (maxSymmetry cfg) (Z.max 4 raw)) as [[_ E]|[_ E]];
    rewrite E.
  - exists a. exact Ha.
  - destruct (Z.max_spec 4 raw) as [[_ E']|[_ E']]; rewrite E'.
    + exists b. exact Hb.
    + exists 2%Z. reflexivity.
Qed.

(** The rounded interpolation stays between integer bounds of its ends. *)
Lemma interpolateSymmetry_between lo hi s target t :
  0 <= t <= 1 -> (lo <= s <= hi)%Z -> (lo <= target <= hi)%Z ->
  (lo <= interpolateSymmetry s target t <= hi)%Z.
Proof.
  intros Ht Hs Htg. unfold interpolateSymmetry.
  assert (Hs1 : inject_Z lo <= inject_Z s) by (rewrite <- Zle_Qle; lia).
  assert (Hs2 : inject_Z s <= inject_Z hi) by (rewrite <- Zle_Qle; lia).
  assert (Ht1 : inject_Z lo <= inject_Z target) by (rewrite <- Zle_Qle; lia).
  assert (Ht2 : inject_Z target <= inject_Z hi) by (rewrite <- Zle_Qle; lia).
  apply jsRound_between.
  - assert (A : 0 <= (inject_Z s - inject_Z lo) * (1 - t))
      by (apply Qmult_le_0_compat; lra).
    assert (B : 0 <= (inject_Z target - inject_Z lo) * t)
      by (apply Qmult_le_0_compat; lra).
    lra.
  - assert (A : 0 <= (inject_Z hi - inject_Z s) * (1 - t))
      by (apply Qmult_le_0_compat; lra).
    assert (B : 0 <= (inject_Z hi - inject_Z target) * t)
      by (apply Qmult_le_0_compat; lra).
    lra.
Qed.

(** At progress 1 the interpolation is the target. *)
Lemma interpolateSymmetry_done s target t :
  t == 1 -> interpolateSymmetry s target t = target.
Proof.
  intro Ht. unfold interpolateSymmetry.
  rewrite <- (jsRound_Z target) at 2. unfold jsRound.
  apply Qfloor_comp. rewrite Ht. ring.
Qed.

Lemma symmetry_progress_step t0 :
  0 <= t0 <= 1 ->
  0 <= (if Qlt_b t0 1 then Qmin 1 (t0 + 0.02) else t0) <= 1.
Proof.
  intro H. destruct (Qlt_b t0 1); [|exact H]. apply Qmin_unit. lra.
Qed.

Lemma processFrame_invariant cfg st inp :
  (4 <= maxSymmetry cfg)%Z -> Z.even (maxSymmetry cfg) = true ->
  symmetryInvariant cfg st ->
  symmetryInvariant cfg (fst (processFrame cfg st inp)).
Proof.
  intros Hmin Heven (Ht & Hs & Htg & Hlast & Hdone & Hfr).
  destruct (processFrame_symmetry cfg st inp) as (E1 & E2 & E3 & E4 & _).
  destruct (processFrame_beat cfg st inp) as (_ & _ & _ & E5).
  cbv zeta in E1, E2, E3, E4.
  pose proof (chooseSymmetry_range cfg (extractFeatures (dataArray inp))
                (rndSymmetry inp) Hmin Heven) as [Hce Hcr].
  set (st1 := fst (processFrame cfg st inp)) in *.
  unfold symmetryInvariant.
  destruct (outSymmetryChange (snd (processFrame cfg st inp))).
  - change (Qlt_b 0 1) with true in E2, E3. cbv iota in E2, E3.
    assert (Ht1 : 0 <= symmetryTransition st1 <= 1)
      by (rewrite E2; apply Qmin_unit; lra).
    split; [exact Ht1|]. split.
    { rewrite E3. apply interpolateSymmetry_between; [exact Ht1 | lia | lia]. }
    split; [rewrite E1; lia|]. split.
    { intros _. rewrite E1. split; [exact Hce | exact Hcr]. }
    split; [|lia].
    rewrite E2. intro H. vm_compute in H. discriminate.
  - assert (Ht1 : 0 <= symmetryTransition st1 <= 1)
      by (rewrite E2; apply symmetry_progress_step; exact Ht).
    split; [exact Ht1|]. rewrite E1, E4.
    destruct (Qlt_b (symmetryTransition st) 1) eqn:Elt.
    + split.
      { rewrite E3. apply interpolateSymmetry_between; [exact Ht1 | lia | lia]. }
      split; [exact Htg|]. split; [exact Hlast|]. split; [|lia].
      intro H. rewrite E3. apply interpolateSymmetry_done. exact H.
    + rewrite E3. split; [exact Hs|]. split; [exact Htg|].
      split; [exact Hlast|]. split; [|lia].
      intros _. apply Hdone. apply Qlt_b_false in Elt. lra.
Qed.

Lemma draw_invariant cfg st inp :
  (4 <= maxSymmetry cfg)%Z -> Z.even (maxSymmetry cfg) = true ->
  symmetryInvariant cfg st -> symmetryInvariant cfg (fst (draw cfg st inp)).
Proof.
  intros Hmin Heven H.
  assert (Htick : symmetryInvariant cfg (tick st)) by exact H.
  destruct (draw_cases cfg st inp) as [E|E]; rewrite E; cbn [fst].
  - exact Htick.
  - apply processFrame_invariant; assumption.
Qed.

Lemma initialEngine_invariant cfg depth0 :
  symmetryInvariant cfg (initialEngine depth0).
Proof.
  unfold symmetryInvariant. cbn.
  repeat split; try lia; try lra; try discriminate.
Qed.

(** The invariant holds in every state the mounted component can reach. *)
Lemma reachable_invariant hardwareConcurrency isMobile st :
  reachable (fst (mount hardwareConcurrency isMobile))
            (snd (mount hardwareConcurrency isMobile)) st ->
  symmetryInvariant (fst (mount hardwareConcurrency isMobile)) st.
Proof.
  destruct (mount_profile hardwareConcurrency isMobile) as (Hr & He & E0).
  cbv zeta in Hr, He.
  induction 1 as [|st inp _ IH].
  - rewrite E0. apply initialEngine_invariant.
  - apply draw_invariant; [lia | exact He | exact IH].
Qed.

Lemma runDraw_reachable cfg st0 inputs : forall st,
  reachable cfg st0 st -> reachable cfg st0 (fst (runDraw cfg st inputs)).
Proof.
  induction inputs as [|inp rest IH]; intros st H.
  - exact H.
  - cbn [runDraw]. pose proof (reach_draw cfg st0 st inp H) as H1.
    destruct (draw cfg st inp) as [st1 out]. cbn [fst] in H1.
    specialize (IH st1 H1).
    destruct (runDraw cfg st1 rest) as [st2 outs]. exact IH.
Qed.

(** One processed frame and the first symmetry change. *)
Lemma processFrame_fresh cfg st inp :
  symmetryInvariant cfg st -> symmetryFresh st ->
  let r := processFrame cfg st inp in
  symmetryFresh (fst r)
  /\ (outSymmetryChange (snd r) = true -> (0 < lastSymmetryChange (fst r))%Z)
  /\ (outSymmetryChange (snd r) = false ->
      lastSymmetryChange (fst r) = lastSymmetryChange st).
Proof.
  intros (_ & _ & _ & _ & _ & Hfr) (Hl0 & Hfresh).
  destruct (processFrame_symmetry cfg st inp) as (_ & E2 & E3 & E4 & _).
  cbv zeta in E2, E3, E4. cbv zeta. unfold symmetryFresh.
  destruct (outSymmetryChange (snd (processFrame cfg st inp))).
  - rewrite E4. split; [split; [lia | intro; lia]|].
    split; [intros _; lia | discriminate].
  - rewrite E4. split; [|split; [discriminate | reflexivity]].
    split; [exact Hl0|]. intro H0. destruct (Hfresh H0) as [Hs Ht].
    assert (Elt : Qlt_b (symmetryTransition st) 1 = false)
      by (apply Qlt_b_false; lra).
    rewrite Elt in E2, E3. rewrite E2, E3. split; assumption.
Qed.

(** Once [symmetry] is at most the profile's [maxSymmetry], a processed frame
    keeps it there, whether or not a transition is running. *)
Lemma processFrame_within_cap cfg st inp :
  (4 <= maxSymmetry cfg)%Z -> Z.even (maxSymmetry cfg) = true ->
  symmetryInvariant cfg st -> symmetryFresh st ->
  (symmetry st <= maxSymmetry cfg)%Z ->
  (4 <= symmetry (fst (processFrame cfg st inp)) <= maxSymmetry cfg)%Z.
Proof.
  intros Hmin Heven (Ht & Hs & Htg & Hlast & Hdone & Hfr) (Hl0 & Hfresh) Hcap.
  destruct (processFrame_symmetry cfg st inp) as (_ & E2 & E3 & _).
  cbv zeta in E2, E3.
  pose proof (chooseSymmetry_range cfg (extractFeatures (dataArray inp))
                (rndSymmetry inp) Hmin Heven) as [_ Hcr].
  destruct (outSymmetryChange (snd (processFrame cfg st inp))).
  - change (Qlt_b 0 1) with true in E2, E3. cbv iota in E2, E3.
    rewrite E3. apply interpolateSymmetry_between; [|lia|exact Hcr].
    rewrite E2. apply Qmin_unit. lra.
  - destruct (Qlt_b (symmetryTransition st) 1) eqn:Elt.
    + assert (Hchanged : (0 < lastSymmetryChange st)%Z).
      { destruct (Z.eq_dec (lastSymmetryChange st) 0) as [H0|H0]; [|lia].
        destruct (Hfresh H0) as [_ H1]. apply Qlt_b_true in Elt. lra. }
      destruct (Hlast Hchanged) as [_ Hrange].
      rewrite E3. apply interpolateSymmetry_between; [|lia|exact Hrange].
      rewrite E2. apply Qmin_unit. lra.
    + rewrite E3. lia.
Qed.

Lemma tick_fresh st : symmetryFresh (tick st) <-> symmetryFresh st.
Proof. reflexivity. Qed.

(** The same over a run of animation callbacks, with the outputs of the
    processed frames telling whether a symmetry change has happened. *)
Lemma runDraw_fresh cfg inputs :
  (4 <= maxSymmetry cfg)%Z -> Z.even (maxSymmetry cfg) = true ->
  forall st,
  symmetryInvariant cfg st -> symmetryFresh st ->
  let r := runDraw cfg st inputs in
  symmetryFresh (fst r)
  /\ ((symmetry st <= maxSymmetry cfg)%Z ->
      (4 <= symmetry (fst r) <= maxSymmetry cfg)%Z)
  /\ ((lastSymmetryChange st = 0)%Z ->
      existsb outSymmetryChange (snd r) = false ->
      (lastSymmetryChange (fst r) = 0)%Z)
  /\ (existsb outSymmetryChange (snd r) = true ->
      (0 < lastSymmetryChange (fst r))%Z)
  /\ ((0 < lastSymmetryChange st)%Z -> (0 < lastSymmetryChange (fst r))%Z).
Proof.
  intros Hmin Heven.
  induction inputs as [|inp rest IH]; intros st Hinv Hfresh.
  - cbn. split; [exact Hfresh|]. destruct Hinv as (_ & Hs & _).
    repeat split; try lia; try discriminate; auto.
  - cbn [runDraw].
    pose proof (draw_invariant cfg st inp Hmin Heven Hinv) as Hinv1.
    assert (Hstep :
      symmetryFresh (fst (draw cfg st inp))
      /\ ((symmetry st <= maxSymmetry cfg)%Z ->
          (symmetry (fst (draw cfg st inp)) <= maxSymmetry cfg)%Z)
      /\ match snd (draw cfg st inp) with
         | Some o =>
             (outSymmetryChange o = true ->
              (0 < lastSymmetryChange (fst (draw cfg st inp)))%Z)
             /\ (outSymmetryChange o = false ->
                 lastSymmetryChange (fst (draw cfg st inp))
                 = lastSymmetryChange st)
         | None =>
             lastSymmetryChange (fst (draw cfg st inp))
             = lastSymmetryChange st
         end).
    { destruct (draw_cases cfg st inp) as [E|E]; rewrite E; cbn [fst snd].
      - split; [exact Hfresh|]. split; [auto | reflexivity].
      - assert (Hinvt : symmetryInvariant cfg (tick st)) by exact Hinv.
        assert (Hfresht : symmetryFresh (tick st)) by exact Hfresh.
        destruct (processFrame_fresh cfg (tick st) inp Hinvt Hfresht)
          as (F1 & F2 & F3).
        split; [exact F1|]. split; [|split; [exact F2 | exact F3]].
        intro Hcap.
        apply (processFrame_within_cap cfg (tick st) inp Hmin Heven
                 Hinvt Hfresht Hcap). }
    destruct (draw cfg st inp) as [st1 out]. cbn [fst snd] in Hinv1, Hstep.
    destruct Hstep as (S1 & S2 & S3).
    specialize (IH st1 Hinv1 S1). cbv zeta in IH.
    destruct (runDraw cfg st1 rest) as [st2 outs]. cbn [fst snd] in *.
    destruct IH as (I1 & I2 & I3 & I4 & I5).
    split; [exact I1|]. split; [intro Hcap; apply I2; apply S2; exact Hcap|].
    destruct out as [o|].
    + destruct S3 as [S3 S4]. cbn [existsb].
      destruct (outSymmetryChange o) eqn:Eo; cbn [orb].
      * split; [discriminate|]. split; intros _; apply I5; apply S3;
          reflexivity.
      * specialize (S4 eq_refl). rewrite S4 in *.
        split; [exact I3|]. split; [exact I4 | exact I5].
    + rewrite S3 in *. split; [exact I3|]. split; [exact I4 | exact I5].
Qed.

Lemma mount_fresh hardwareConcurrency isMobile :
  symmetryFresh (snd (mount hardwareConcurrency isMobile)).
Proof.
  destruct (mount_profile hardwareConcurrency isMobile) as (_ & _ & E0).
  rewrite E0. unfold symmetryFresh. cbn. split; [lia|].
  intros _. split; reflexivity.
Qed.

(** C1 (as amended).  After any run of animation callbacks from the mounted
    state, [symmetry] is an integer between 4 and the larger of 8 (its initial
    value) and the profile's [maxSymmetry], hence at most [maxSymmetry] under
    the profiles with [maxSymmetry] at least 8.  As long as no symmetry change
    has happened it is 8.  Once it is at most [maxSymmetry] it stays within
    [4, maxSymmetry] after every later callback, transitions included.  And
    once a symmetry change has happened, whenever no symmetry transition is
    active ([symmetryTransition] = 1) it equals [targetSymmetry] and is an
    even integer within [4, maxSymmetry]. *)
Theorem symmetry_within_bounds
    (hardwareConcurrency : option Z) (isMobile : bool)
    (inputs later : list FrameInput) :
  let cfg := fst (mount hardwareConcurrency isMobile) in
  let st0 := snd (mount hardwareConcurrency isMobile) in
  let st := fst (runDraw cfg st0 inputs) in
  let outs := snd (runDraw cfg st0 inputs) in
  (4 <= symmetry st <= Z.max 8 (maxSymmetry cfg))%Z
  /\ ((8 <= maxSymmetry cfg)%Z -> (4 <= symmetry st <= maxSymmetry cfg)%Z)
  /\ (existsb outSymmetryChange outs = false ->
      symmetry st = 8%Z /\ symmetryTransition st == 1)
  /\ ((symmetry st <= maxSymmetry cfg)%Z ->
      (4 <= symmetry (fst (runDraw cfg st later)) <= maxSymmetry cfg)%Z)
  /\ (existsb outSymmetryChange outs = true -> symmetryTransition st == 1 ->
      symmetry st = targetSymmetry st
      /\ Z.even (symmetry st) = true
      /\ (4 <= symmetry st <= maxSymmetry cfg)%Z).
Proof.
  intros cfg st0 st outs.
  destruct (mount_profile hardwareConcurrency isMobile) as (Hr & He & _).
  cbv zeta in Hr, He. fold cfg in Hr, He.
  assert (Hmin : (4 <= maxSymmetry cfg)%Z) by lia.
  assert (Hinv0 : symmetryInvariant cfg st0)
    by (apply reachable_invariant; apply reach_mount).
  assert (Hinv : symmetryInvariant cfg st).
  { apply reachable_invariant. apply runDraw_reachable. apply reach_mount. }
  destruct (runDraw_fresh cfg inputs Hmin He st0 Hinv0
              (mount_fresh hardwareConcurrency isMobile))
    as (Hfresh & _ & Hnone & Hsome & _).
  fold st in Hfresh, Hnone, Hsome. fold outs in Hnone, Hsome.
  destruct (runDraw_fresh cfg later Hmin He st Hinv Hfresh)
    as (_ & Hstay & _).
  destruct Hinv as (_ & Hs & _ & Hlast & Hdone & _).
  split; [exact Hs|]. split; [lia|]. split.
  { intro Hno. destruct Hfresh as [_ Hfresh]. apply Hfresh. apply Hnone.
    - destruct (mount_profile hardwareConcurrency isMobile) as (_ & _ & E0).
      unfold st0. rewrite E0. reflexivity.
    - exact Hno. }
  split; [exact Hstay|].
  intros Hc Ht. specialize (Hlast (Hsome Hc)). specialize (Hdone Ht).
  rewrite Hdone. split; [reflexivity|]. exact Hlast.
Qed.

(** ** Rotational copies *)

Lemma symmetryCopies_length n : length (symmetryCopies n) = Z.to_nat n.
Proof.
  unfold symmetryCopies, forIndices. rewrite !length_map, length_seq.
  reflexivity.
Qed.

Lemma renderLayers_copies cfg symmetry current target progress :
  renderLayers cfg symmetry current target progress <> []
  /\ Forall (fun layer =>
               length (layerCopies layer)
               = Z.to_nat (Z.min symmetry (maxSymmetry cfg)))
            (renderLayers cfg symmetry current target progress).
Proof.
  unfold renderLayers. destruct (Qlt_b progress 1).
  - split; [discriminate|].
    repeat constructor; cbn [layerCopies]; apply symmetryCopies_length.
  - split; [discriminate|].
    repeat constructor; cbn [layerCopies]; apply symmetryCopies_length.
Qed.

(** On the first processed frame no symmetry change can fire: the beat
    cooldown keeps the confidence at 0 and fewer than 120 frames have gone. *)
Lemma first_frame_keeps_symmetry cfg st inp :
  frame st = 0%Z -> lastSymmetryChange st = 0%Z ->
  lastBeat (bdOf st) = 0%Z -> confidence (bdOf st) = 0 ->
  symmetryTransition st = 1 ->
  symmetry (fst (processFrame cfg st inp)) = symmetry st.
Proof.
  intros Hfr Hlc Hlb Hconf Htr.
  destruct (processFrame_symmetry cfg st inp) as (_ & _ & E3 & _ & E5 & _).
  destruct (processFrame_beat cfg st inp) as (B1 & B2 & _).
  cbv zeta in E3, E5, B1, B2.
  pose proof (beatStep_facts (bdOf st) (frame st + 1)
                (bassLevel (extractFeatures (dataArray inp)))) as F.
  cbv zeta in F. rewrite <- B1, <- B2 in F. destruct F as [Ft Ff].
  assert (Hnb : outIsBeat (snd (processFrame cfg st inp)) = false).
  { destruct (outIsBeat (snd (processFrame cfg st inp))); [|reflexivity].
    destruct (Ft eq_refl) as (_ & H & _). lia. }
  destruct (Ff Hnb) as (_ & Hc).
  rewrite Hc, Hconf, Hfr, Hlc in E5. unfold symmetryTrigger in E5.
  change (Qlt_b 0.6 (Qmax 0 (0 - 0.01))) with false in E5.
  change (120 <? 0 + 1 - 0)%Z with false in E5.
  rewrite andb_false_r in E5. cbn [orb andb] in E5.
  rewrite E5, Htr in E3. exact E3.
Qed.

(** C10.  On every processed frame of every run from the mounted state, each
    pattern drawn (one, or the two of a cross-fade) is replicated exactly
    min(symmetry, maxSymmetry) times, which never exceeds [maxSymmetry]; under
    the mobile profile the first processed frame still has [symmetry] = 8 and
    draws 4 copies. *)
Theorem drawn_copies_capped
    (hardwareConcurrency : option Z) (isMobile : bool)
    (inputs : list FrameInput) (inp : FrameInput) :
  let cfg := fst (mount hardwareConcurrency isMobile) in
  let st0 := snd (mount hardwareConcurrency isMobile) in
  let st := fst (runDraw cfg st0 inputs) in
  match draw cfg st inp with
  | (st', Some out) =>
      outLayers out <> []
      /\ Forall (fun layer =>
                   Z.of_nat (length (layerCopies layer))
                   = Z.min (symmetry st') (maxSymmetry cfg)
                   /\ (Z.of_nat (length (layerCopies layer))
                       <= maxSymmetry cfg)%Z)
                (outLayers out)
  | (_, None) => True
  end
  /\ (forall i1 i2 i3,
        let mcfg := fst (mount hardwareConcurrency true) in
        let r := runDraw mcfg (snd (mount hardwareConcurrency true))
                         [i1; i2; i3] in
        maxSymmetry mcfg = 4%Z
        /\ symmetry (fst r) = 8%Z
        /\ length (snd r) = 1%nat
        /\ Forall (fun out =>
                     Forall (fun layer => length (layerCopies layer) = 4%nat)
                            (outLayers out))
                  (snd r)).
Proof.
  intros cfg st0 st. split.
  - assert (Hinv : symmetryInvariant cfg (fst (draw cfg st inp))).
    { apply reachable_invariant. apply reach_draw.
      apply runDraw_reachable. apply reach_mount. }
    destruct (draw_cases cfg st inp) as [E|E]; rewrite E in *; [exact I|].
    cbn [fst] in Hinv. destruct Hinv as (_ & Hs & _).
    destruct (processFrame_symmetry cfg (tick st) inp)
      as (_ & _ & _ & _ & _ & EL).
    cbv zeta in EL. rewrite EL.
    destruct (renderLayers_copies cfg
                (symmetry (fst (processFrame cfg (tick st) inp)))
                (currentPattern (fst (processFrame cfg (tick st) inp)))
                (targetPattern (fst (processFrame cfg (tick st) inp)))
                (patternTransition (fst (processFrame cfg (tick st) inp))))
      as [Hne Hall].
    split; [exact Hne|].
    eapply Forall_impl; [|exact Hall]. cbv beta. intros layer Hl.
    rewrite Hl.
    destruct (mount_profile hardwareConcurrency isMobile) as (Hr & _).
    cbv zeta in Hr. fold cfg in Hr. lia.
  - intros i1 i2 i3 mcfg r.
    assert (Em : mount hardwareConcurrency true
                 = (mobileConfig, initialEngine 1)) by reflexivity.
    subst r mcfg. rewrite Em. cbn [fst snd].
    split; [reflexivity|].
    set (st2 := tick (tick (tick (initialEngine 1)))).
    assert (Er : runDraw mobileConfig (initialEngine 1) [i1; i2; i3]
                 = (fst (processFrame mobileConfig st2 i3),
                    [snd (processFrame mobileConfig st2 i3)])).
    { assert (E : draw mobileConfig (tick (tick (initialEngine 1))) i3
                  = (fst (processFrame mobileConfig st2 i3),
                     Some (snd (processFrame mobileConfig st2 i3)))).
      { unfold draw.
        change (negb (Z.rem (frameCounter (tick (tick (tick (initialEngine 1)))))
                            (drawEveryNthFrame mobileConfig) =? 0)%Z)
          with false.
        cbv iota. fold st2. destruct (processFrame mobileConfig st2 i3).
        reflexivity. }
      cbn [runDraw].
      change (draw mobileConfig (initialEngine 1) i1)
        with (tick (initialEngine 1), @None FrameOutput).
      cbv beta iota.
      change (draw mobileConfig (tick (initialEngine 1)) i2)
        with (tick (tick (initialEngine 1)), @None FrameOutput).
      cbv beta iota.
      rewrite E. reflexivity. }
    rewrite Er. cbn [fst snd length].
    assert (Hsym : symmetry (fst (processFrame mobileConfig st2 i3)) = 8%Z).
    { rewrite first_frame_keeps_symmetry; reflexivity. }
    split; [exact Hsym|]. split; [reflexivity|].
    constructor; [|constructor].
    destruct (processFrame_symmetry mobileConfig st2 i3)
      as (_ & _ & _ & _ & _ & EL).
    cbv zeta in EL. rewrite EL, Hsym.
    destruct (renderLayers_copies mobileConfig 8
                (currentPattern (fst (processFrame mobileConfig st2 i3)))
                (targetPattern (fst (processFrame mobileConfig st2 i3)))
                (patternTransition (fst (processFrame mobileConfig st2 i3))))
      as [_ Hall].
    exact Hall.
Qed.

(** ** Fractal tree *)

Lemma branchCount_app a b :
  branchCount (a ++ b) = (branchCount a + branchCount b)%nat.
Proof. unfold branchCount. rewrite filter_app, length_app. reflexivity. Qed.

(** The tests [drawBranch] makes on a depth that is the natural number [n]. *)
Lemma depth_tests q n :
  q == inject_Z (Z.of_nat n) ->
  jeqb (Fin q) (Fin 0) = (n =? 0)%nat
  /\ jeqb (Fin q) (Fin 1) = (n =? 1)%nat
  /\ jgt (Fin q) (Fin 1) = (1 <? n)%nat
  /\ exists q', jsub (Fin q) (Fin 1) = Fin q'
                /\ q' == inject_Z (Z.of_nat n - 1).
Proof.
  intro Hq. cbn [jeqb jgt jlt jsub jneg jadd].
  assert (B : forall z : Z, Qeq_bool q (inject_Z z) = (Z.of_nat n =? z)%Z).
  { intro z. destruct (Z.of_nat n =? z)%Z eqn:E.
    - apply Qeq_bool_iff. rewrite Hq. apply Z.eqb_eq in E. rewrite E.
      reflexivity.
    - destruct (Qeq_bool q (inject_Z z)) eqn:E'; [|reflexivity].
      apply Qeq_bool_iff in E'. rewrite Hq in E'.
      apply (proj1 (inject_Z_injective _ _)) in E'. lia. }
  repeat split.
  - change 0 with (inject_Z 0). rewrite B.
    destruct n; reflexivity.
  - change 1 with (inject_Z 1). rewrite B.
    destruct n as [|[|n]]; cbn [Nat.eqb]; try reflexivity.
    apply Z.eqb_neq. lia.
  - destruct (1 <? n)%nat eqn:E.
    + apply Qlt_b_true. rewrite Hq. change 1 with (inject_Z 1).
      rewrite <- Zlt_Qlt. apply Nat.ltb_lt in E. lia.
    + apply Qlt_b_false. rewrite Hq. change 1 with (inject_Z 1).
      rewrite <- Zle_Qle. apply Nat.ltb_ge in E. lia.
  - eexists. split; [reflexivity|].
    rewrite Hq. unfold Zminus. rewrite inject_Z_plus. reflexivity.
Qed.

Lemma pow3_pos n : (1 <= 3 ^ n)%nat.
Proof. induction n; cbn [Nat.pow]; lia. Qed.

(** The later revision: the recursion returns for every natural depth, with
    the stated bounds; when the middle branch is taken wherever it can be,
    the number of strokes is (3^depth - 1) / 2. *)
Lemma drawBranch_total lv scale : forall n k len ang q,
  q == inject_Z (Z.of_nat n) ->
  exists ops,
    drawBranch (S n + k) lv scale len ang (Fin q) = Some ops
    /\ (length ops + 1 <= 3 ^ n)%nat
    /\ (2 * branchCount ops + 1 <= 3 ^ n)%nat
    /\ (jgt (bassLevel lv) (Fin 0.6) || jgt (lowMidLevel lv) (Fin 0.7) = true ->
        (2 * branchCount ops + 1 = 3 ^ n)%nat).
Proof.
  induction n as [|n IH]; intros k len ang q Hq.
  - destruct (depth_tests q 0 Hq) as (T0 & _).
    exists []. cbn [Nat.add drawBranch]. rewrite T0.
    cbn. repeat split; lia.
  - destruct (depth_tests q (S n) Hq) as (T0 & T1 & T2 & q' & Es & Hq').
    assert (Hq1 : q' == inject_Z (Z.of_nat n)).
    { rewrite Hq'. apply inject_Z_injective. lia. }
    change (S (S n) + k)%nat with (S (S n + k)). cbn [drawBranch].
    rewrite T0, T1, T2, Es. cbn [Nat.eqb].
    destruct (IH k (jmul len scale) (ang + 1)%Z q' Hq1)
      as (opsR & ER & LR & BR & QR).
    destruct (IH k (jmul len scale) (ang - 1)%Z q' Hq1)
      as (opsL & EL & LL & BL & QL).
    destruct (IH k (jmul (jmul len scale) (Fin 0.8)) ang q' Hq1)
      as (opsM & EM & LM & BM & QM).
    rewrite ER, EL, EM.
    pose proof (pow3_pos n) as Hpos.
    cbn [Nat.pow].
    destruct n as [|n].
    + (* depth 1: a leaf, no middle branch *)
      cbn [Nat.eqb Nat.ltb Nat.leb andb].
      eexists. split; [reflexivity|].
      rewrite !length_app, !branchCount_app.
      cbn [length branchCount filter isStroke Nat.pow] in *.
      repeat split; try intro; lia.
    + change (1 <? S (S n))%nat with true. cbn [Nat.eqb andb].
      destruct (jgt (bassLevel lv) (Fin 0.6)
                || jgt (lowMidLevel lv) (Fin 0.7)) eqn:Emid.
      * eexists. split; [reflexivity|].
        rewrite !length_app, !branchCount_app.
        cbn [length branchCount filter isStroke app] in *.
        specialize (QR eq_refl). specialize (QL eq_refl).
        specialize (QM eq_refl).
        repeat split; try intro; lia.
      * eexists. split; [reflexivity|].
        rewrite !length_app, !branchCount_app.
        cbn [length branchCount filter isStroke app] in *.
        repeat split; try (intro; discriminate); lia.
Qed.

(** The earlier revision: the same, whatever [Math.random()] returns. *)
Lemma earlier_drawBranch_total random scale : forall n k len ang q calls,
  q == inject_Z (Z.of_nat n) ->
  exists ops calls',
    EarlierRevision.drawBranch (S n + k) random scale len ang (Fin q) calls
    = Some (ops, calls')
    /\ (length ops + 1 <= 3 ^ n)%nat
    /\ (2 * branchCount ops + 1 <= 3 ^ n)%nat
    /\ ((forall i, Qlt_b (random i) 0.5 = true) ->
        (2 * branchCount ops + 1 = 3 ^ n)%nat).
Proof.
  induction n as [|n IH]; intros k len ang q calls Hq.
  - destruct (depth_tests q 0 Hq) as (T0 & _).
    exists [], calls. cbn [Nat.add EarlierRevision.drawBranch]. rewrite T0.
    cbn. repeat split; lia.
  - destruct (depth_tests q (S n) Hq) as (T0 & T1 & T2 & q' & Es & Hq').
    assert (Hq1 : q' == inject_Z (Z.of_nat n)).
    { rewrite Hq'. apply inject_Z_injective. lia. }
    change (S (S n) + k)%nat with (S (S n + k)).
    cbn [EarlierRevision.drawBranch].
    rewrite T0, T1, T2, Es. cbn [Nat.eqb].
    destruct (IH k (jmul len scale) (ang + 1)%Z q' calls Hq1)
      as (opsR & calls1 & ER & LR & BR & QR).
    destruct (IH k (jmul len scale) (ang - 1)%Z q' calls1 Hq1)
      as (opsL & calls2 & EL & LL & BL & QL).
    destruct (IH k (jmul (jmul len scale) (Fin 0.8)) ang q' (S calls2) Hq1)
      as (opsM & calls3 & EM & LM & BM & QM).
    rewrite ER, EL.
    pose proof (pow3_pos n) as Hpos.
    cbn [Nat.pow].
    destruct n as [|n].
    + cbn [Nat.eqb Nat.ltb Nat.leb].
      eexists. eexists. split; [reflexivity|].
      rewrite !length_app, !branchCount_app.
      cbn [length branchCount filter isStroke Nat.pow] in *.
      repeat split; try intro; lia.
    + change (1 <? S (S n))%nat with true. cbn [Nat.eqb].
      destruct (Qlt_b (random calls2) 0.5) eqn:Emid.
      * rewrite EM. eexists. eexists. split; [reflexivity|].
        rewrite !length_app, !branchCount_app.
        cbn [length branchCount filter isStroke app] in *.
        repeat split; try lia.
        intro Hall. specialize (QR Hall). specialize (QL Hall).
        specialize (QM Hall). lia.
      * eexists. eexists. split; [reflexivity|].
        rewrite !length_app, !branchCount_app.
        cbn [length branchCount filter isStroke app] in *.
        repeat split; try lia.
        intro Hall. rewrite Hall in Emid. discriminate.
Qed.

(** C7.  For every natural-number [fractalDepth] the recursion of the fractal
    tree returns once the nesting allowed exceeds the depth, in both
    revisions and whatever the middle-branch choices: the drawing operations
    (branch strokes and leaf fills) number fewer than 3^depth, the branch
    strokes at most (3^depth - 1) / 2, with
    equality when the middle branch is taken at every depth above 1. *)
Theorem fractal_tree_terminates
    (depth extra : nat) (lv : Levels) (fractalScale bass : jsnum)
    (random : nat -> Q) :
  (exists ops,
     drawFractalTree (S depth + extra) lv (ofZ (Z.of_nat depth)) fractalScale
     = Some ops
     /\ (length ops < 3 ^ depth)%nat
     /\ (branchCount ops <= 3 ^ depth)%nat
     /\ (2 * branchCount ops + 1 <= 3 ^ depth)%nat
     /\ (jgt (bassLevel lv) (Fin 0.6) || jgt (lowMidLevel lv) (Fin 0.7) = true ->
         (2 * branchCount ops + 1 = 3 ^ depth)%nat))
  /\ (exists ops calls,
        EarlierRevision.drawFractalTree (S depth + extra) random bass
                                        (ofZ (Z.of_nat depth)) fractalScale
        = Some (ops, calls)
        /\ (length ops < 3 ^ depth)%nat
        /\ (branchCount ops <= 3 ^ depth)%nat
        /\ (2 * branchCount ops + 1 <= 3 ^ depth)%nat
        /\ ((forall i, Qlt_b (random i) 0.5 = true) ->
            (2 * branchCount ops + 1 = 3 ^ depth)%nat)).
Proof.
  split.
  - unfold drawFractalTree, ofZ.
    destruct (drawBranch_total lv fractalScale depth extra
                (jadd (jadd (Fin 70) (jmul (bassLevel lv) (Fin 70)))
                      (jmul (lowMidLevel lv) (Fin 30)))
                0%Z (inject_Z (Z.of_nat depth)))
      as (ops & E & L & B & Q); [reflexivity|].
    exists ops. repeat split; try assumption; lia.
  - unfold EarlierRevision.drawFractalTree, ofZ.
    destruct (earlier_drawBranch_total random fractalScale depth extra
                (jadd (Fin 100) (jmul bass (Fin 100)))
                0%Z (inject_Z (Z.of_nat depth)) 0%nat)
      as (ops & calls & E & L & B & Q); [reflexivity|].
    exists ops, calls. repeat split; try assumption; lia.
Qed.

(** A depth that is not a number never reaches the base case: the recursion
    does not return, whatever the nesting allowed. *)
Lemma drawBranch_nan_diverges lv scale : forall fuel len ang,
  drawBranch fuel lv scale len ang NaN = None.
Proof.
  induction fuel as [|fuel IH]; intros len ang; [reflexivity|].
  cbn [drawBranch jeqb jsub jneg jadd]. rewrite IH. reflexivity.
Qed.

(** ** Hue accumulator *)

Lemma Qtrunc_comp a b : a == b -> Qtrunc a = Qtrunc b.
Proof.
  intro H. unfold Qtrunc, Qneg_b.
  assert (E : Qle_bool 0 a = Qle_bool 0 b).
  { destruct (Qle_bool 0 b) eqn:E'.
    - apply Qle_bool_iff. apply Qle_bool_iff in E'. lra.
    - destruct (Qle_bool 0 a) eqn:E''; [|reflexivity].
      apply Qle_bool_iff in E''. rewrite H in E''.
      apply Qle_bool_iff in E''. congruence. }
  rewrite E, (Qfloor_comp _ _ H), (Qceiling_comp _ _ H). reflexivity.
Qed.

Lemma jsRem_comp x x' y : x == x' -> jsRem x y == jsRem x' y.
Proof.
  intro H. unfold jsRem.
  assert (Ed : x / y == x' / y) by (rewrite H; reflexivity).
  rewrite (Qtrunc_comp _ _ Ed), H. reflexivity.
Qed.

(** The accumulator after a frame, when it held [m] half-degrees. *)
Lemma updateHue_half m :
  (0 <= m < 720)%Z ->
  FrequencyBars.updateHue (inject_Z m / 2)
  == inject_Z ((m + 1) mod 720) / 2.
Proof.
  intro Hm. unfold FrequencyBars.updateHue, jsRem, Qtrunc.
  destruct (Z.eq_dec m 719) as [E|E]; [subst m; vm_compute; reflexivity|].
  rewrite Z.mod_small by lia.
  assert (Hnext : inject_Z m / 2 + 0.5 == inject_Z (m + 1) / 2).
  { rewrite inject_Z_plus. change (inject_Z 1) with 1. field. }
  set (h := inject_Z m / 2 + 0.5) in *.
  assert (H0 : inject_Z 0 <= inject_Z (m + 1)) by (rewrite <- Zle_Qle; lia).
  assert (H1 : inject_Z (m + 1) <= inject_Z 719) by (rewrite <- Zle_Qle; lia).
  change (inject_Z 0) with 0 in H0. change (inject_Z 719) with 719 in H1.
  assert (Hh0 : 0 <= h).
  { rewrite Hnext. apply Qle_shift_div_l; lra. }
  assert (Hh1 : h < 360).
  { rewrite Hnext. apply Qlt_shift_div_r; lra. }
  assert (Hq0 : 0 <= h / 360) by (apply Qle_shift_div_l; lra).
  assert (Hq1 : h / 360 < 1) by (apply Qlt_shift_div_r; lra).
  assert (Hpos : Qneg_b (h / 360) = false).
  { unfold Qneg_b. apply negb_false_iff. apply Qle_bool_iff. exact Hq0. }
  rewrite Hpos.
  assert (Hf : Qfloor (h / 360) = 0%Z).
  { assert (A : (0 <= Qfloor (h / 360))%Z).
    { rewrite <- (Qfloor_Z 0). apply Qfloor_resp_le. exact Hq0. }
    assert (B : (Qfloor (h / 360) < 1)%Z).
    { rewrite Zlt_Qlt. eapply Qle_lt_trans; [apply Qfloor_le|].
      exact Hq1. }
    lia. }
  rewrite Hf, <- Hnext. change (inject_Z 0) with 0. ring.
Qed.

Lemma updateHue_iter n :
  Nat.iter n FrequencyBars.updateHue 0
  == inject_Z (Z.of_nat n mod 720) / 2.
Proof.
  induction n as [|n IH].
  - vm_compute. reflexivity.
  - rewrite Nat.iter_succ. unfold FrequencyBars.updateHue at 1.
    transitivity (FrequencyBars.updateHue (inject_Z (Z.of_nat n mod 720) / 2)).
    { apply jsRem_comp. rewrite IH. reflexivity. }
    rewrite updateHue_half by (apply Z.mod_pos_bound; lia).
    rewrite Nat2Z.inj_succ. unfold Z.succ.
    rewrite Zplus_mod_idemp_l. reflexivity.
Qed.

Lemma waveform_updateHue_iter n :
  Nat.iter n WaveformVisualizer.updateHue 0
  = Nat.iter n FrequencyBars.updateHue 0.
Proof. reflexivity. Qed.

(** C8.  From hue = 0, a thousand frames of hue = (hue + 0.5) % 360 leave the
    accumulator at exactly 140, which is (0.5 * 1000) % 360; this holds for
    the update of both visualizers that use it. *)
Theorem hue_after_1000_frames :
  Nat.iter 1000 FrequencyBars.updateHue 0 == 140
  /\ Nat.iter 1000 WaveformVisualizer.updateHue 0 == 140
  /\ jsRem (0.5 * 1000) 360 == 140.
Proof.
  split; [|split].
  - rewrite updateHue_iter. vm_compute. reflexivity.
  - rewrite waveform_updateHue_iter, updateHue_iter. vm_compute. reflexivity.
  - vm_compute. reflexivity.
Qed.

(** ** Concrete runs *)

(** C1 (counterexample).  The stated invariant fails in both of the places it
    names.  Before the first symmetry change: under the mobile profile
    ([maxSymmetry] = 4) the first processed frame leaves [symmetry] at its
    initial 8.  During an active transition: under the high-end profile, 120
    silent processed frames followed by 7 loud ones leave [symmetry] at 7,
    on its way from 8 to the target 4.  And under the low-end profile
    ([maxSymmetry] = 6) the frame of the first symmetry change, frame 121,
    still leaves [symmetry] at 8, on its way to the target 4. *)
Lemma symmetry_even_in_range_fails :
  (let cfg := fst (mount (Some 4%Z) true) in
   let st := fst (runDraw cfg (snd (mount (Some 4%Z) true))
                          (repeat silentInput 3)) in
   frame st = 1%Z /\ lastSymmetryChange st = 0%Z
   /\ ~ (Z.even (symmetry st) = true
         /\ (4 <= symmetry st <= maxSymmetry cfg)%Z))
  /\ (let cfg := fst (mount (Some 8%Z) false) in
      let st := fst (runDraw cfg (snd (mount (Some 8%Z) false))
                             (repeat silentInput 240 ++ repeat loudInput 14)) in
      frame st = 127%Z /\ symmetryTransition st < 1
      /\ ~ (Z.even (symmetry st) = true
            /\ (4 <= symmetry st <= maxSymmetry cfg)%Z))
  /\ (let cfg := fst (mount (Some 4%Z) false) in
      let st := fst (runDraw cfg (snd (mount (Some 4%Z) false))
                             (repeat silentInput 360 ++ repeat loudInput 3)) in
      frame st = 121%Z /\ lastSymmetryChange st = 121%Z
      /\ targetSymmetry st = 4%Z /\ symmetry st = 8%Z
      /\ maxSymmetry cfg = 6%Z).
Proof.
  split; [|split]; cbv zeta.
  - split; [vm_compute; reflexivity|]. split; [vm_compute; reflexivity|].
    assert (E : symmetry (fst (runDraw (fst (mount (Some 4%Z) true))
                                 (snd (mount (Some 4%Z) true))
                                 (repeat silentInput 3))) = 8%Z)
      by (vm_compute; reflexivity).
    rewrite E. change (maxSymmetry (fst (mount (Some 4%Z) true))) with 4%Z.
    lia.
  - split; [vm_compute; reflexivity|]. split; [vm_compute; reflexivity|].
    assert (E : symmetry (fst (runDraw (fst (mount (Some 8%Z) false))
                                 (snd (mount (Some 8%Z) false))
                                 (repeat silentInput 240
                                  ++ repeat loudInput 14))) = 7%Z)
      by (vm_compute; reflexivity).
    rewrite E. cbn [Z.even]. intros [H _]. discriminate H.
  - repeat split; vm_compute; reflexivity.
Qed.

Lemma symmetry_within_bounds_witness :
  let cfg := fst (mount (Some 4%Z) false) in
  let st := fst (runDraw cfg (snd (mount (Some 4%Z) false))
                         (repeat silentInput 360 ++ repeat loudInput 150)) in
  maxSymmetry cfg = 6%Z
  /\ (4 <= symmetry st <= 6)%Z
  /\ Z.even (symmetry st) = true
  /\ (4 <= symmetry (fst (runDraw cfg st (repeat loudInput 30))) <= 6)%Z.
Proof.
  cbv zeta.
  pose proof (symmetry_within_bounds (Some 4%Z) false
                (repeat silentInput 360 ++ repeat loudInput 150)
                (repeat loudInput 30)) as H.
  cbv zeta in H. destruct H as (_ & _ & _ & Hstay & Hdone).
  change (maxSymmetry (fst (mount (Some 4%Z) false))) with 6%Z in *.
  assert (H1 : existsb outSymmetryChange
                 (snd (runDraw (fst (mount (Some 4%Z) false))
                         (snd (mount (Some 4%Z) false))
                         (repeat silentInput 360 ++ repeat loudInput 150)))
               = true)
    by (vm_compute; reflexivity).
  assert (H2 : symmetryTransition
                 (fst (runDraw (fst (mount (Some 4%Z) false))
                         (snd (mount (Some 4%Z) false))
                         (repeat silentInput 360 ++ repeat loudInput 150)))
               == 1)
    by (vm_compute; reflexivity).
  destruct (Hdone H1 H2) as (_ & Heven & Hrange).
  split; [reflexivity|]. split; [exact Hrange|]. split; [exact Heven|].
  apply Hstay. lia.
Defined.

Lemma pattern_transition_progress_witness :
  let cfg := highEndConfig in
  let st := fst (runFrames cfg (initialEngine 2) (repeat silentInput 181)) in
  let r := runFrames cfg (fst (processFrame cfg st loudInput))
                     (repeat loudInput 39) in
  outPatternChange (snd (processFrame cfg st loudInput)) = true
  /\ (length (repeat loudInput 39) <= 39)%nat
  /\ patternTransition (fst r) == 1
  /\ currentPattern (fst r) = targetPattern (fst r).
Proof.
  cbv zeta.
  assert (H1 : outPatternChange
                 (snd (processFrame highEndConfig
                         (fst (runFrames highEndConfig (initialEngine 2)
                                 (repeat silentInput 181)))
                         loudInput)) = true)
    by (vm_compute; reflexivity).
  assert (H2 : (length (repeat loudInput 39) <= 39)%nat)
    by (rewrite repeat_length; lia).
  split; [exact H1|]. split; [exact H2|].
  pose proof (pattern_transition_progress highEndConfig
                (fst (runFrames highEndConfig (initialEngine 2)
                        (repeat silentInput 181)))
                loudInput (repeat loudInput 39) H1 H2) as H.
  cbv zeta in H.
  destruct H as (_ & _ & _ & _ & _ & _ & H).
  apply H. rewrite repeat_length. reflexivity.
Defined.


Lemma fractal_tree_terminates_witness :
  jgt (bassLevel (extractFeatures (dataArray loudInput))) (Fin 0.6)
  || jgt (lowMidLevel (extractFeatures (dataArray loudInput))) (Fin 0.7) = true
  /\ exists ops,
       drawFractalTree 4 (extractFeatures (dataArray loudInput))
                       (ofZ 3) (Fin 0.7) = Some ops
       /\ (2 * branchCount ops + 1 = 27)%nat.
Proof.
  assert (H1 : jgt (bassLevel (extractFeatures (dataArray loudInput))) (Fin 0.6)
               || jgt (lowMidLevel (extractFeatures (dataArray loudInput)))
                      (Fin 0.7) = true)
    by (vm_compute; reflexivity).
  split; [exact H1|].
  destruct (fractal_tree_terminates 3 0
              (extractFeatures (dataArray loudInput)) (Fin 0.7) (Fin 1)
              (fun _ => 0))
    as ((ops & E & _ & _ & _ & Q) & _).
  exists ops. split; [exact E|]. exact (Q H1).
Defined.

(** Under the low-end profile ([enableAdvancedEffects] = false), 181 silent
    processed frames and one loud frame with [Math.random()] = 0.9 make
    SYMMETRICAL_WEB the target pattern. *)
Lemma limited_profile_selects_web :
  let cfg := fst (mount (Some 2%Z) false) in
  let st := fst (runDraw cfg (snd (mount (Some 2%Z) false))
                         (repeat silentInput 543
                          ++ repeat (mkInput (repeat 255%Z 16) 0.9 0) 3)) in
  enableAdvancedEffects cfg = false
  /\ frame st = 182%Z
  /\ targetPattern st = Some SYMMETRICAL_WEB.
Proof. cbv zeta. repeat split; vm_compute; reflexivity. Qed.

(** ** Range of the fractal depth *)

Lemma processFrame_fractalDepth cfg st inp :
  fractalDepth (fst (processFrame cfg st inp))
  = if outSymmetryChange (snd (processFrame cfg st inp))
    then jadd (Fin 2)
              (jfloor (jmul (average (extractFeatures (dataArray inp)))
                            (Fin 2)))
    else fractalDepth st.
Proof.
  unfold processFrame.
  destruct (beatStep (beatDetector (audioState st)) (frame st + 1)
              (bassLevel (extractFeatures (dataArray inp)))) as [bd b].
  reflexivity.
Qed.

(** Mounting sets the depth to 1, 2 or 3, and a symmetry change on a
    non-empty frame of bytes re-rolls it to 2, 3 or 4. *)
Lemma fractalDepth_range cfg st inp hardwareConcurrency isMobile :
  (exists d, (1 <= d <= 3)%Z
             /\ fractalDepth (snd (mount hardwareConcurrency isMobile))
                = ofZ d)
  /\ (dataArray inp <> [] -> Forall isByte (dataArray inp) ->
      outSymmetryChange (snd (processFrame cfg st inp)) = true ->
      exists d, (2 <= d <= 4)%Z
                /\ jsnum_eq (fractalDepth (fst (processFrame cfg st inp)))
                            (ofZ d)).
Proof.
  split.
  - destruct (mount_profile hardwareConcurrency isMobile) as (_ & _ & E).
    rewrite E. cbn [initialEngine fractalDepth].
    exists (snd (detectPerformance hardwareConcurrency isMobile)).
    split; [|reflexivity].
    unfold detectPerformance.
    destruct isMobile; [cbn; lia|].
    destruct hardwareConcurrency as [h|]; [|cbn; lia].
    destruct (h <=? 4)%Z; [cbn; lia|].
    destruct ((4 <? h)%Z && (h <? 8)%Z); [cbn; lia|].
    destruct (8 <=? h)%Z; cbn; lia.
  - intros Hne Hall Hchange.
    rewrite processFrame_fractalDepth, Hchange.
    destruct (extractFeatures_levels (dataArray inp) Hne Hall)
      as (a & b & l & h & t & E & Ha & _).
    rewrite E. cbn [average jmul jfloor jadd].
    exists (2 + Qfloor (a * 2))%Z. split.
    + assert (H0 : (Qfloor 0 <= Qfloor (a * 2))%Z)
        by (apply Qfloor_resp_le; lra).
      assert (H2 : (Qfloor (a * 2) <= Qfloor 2)%Z)
        by (apply Qfloor_resp_le; lra).
      change (Qfloor 0) with 0%Z in H0. change (Qfloor 2) with 2%Z in H2.
      lia.
    + unfold ofZ, jsnum_eq. rewrite inject_Z_plus. reflexivity.
Qed.

(* ===================================================================== *)
(** * Further properties of the engine, the bars, the particles and the
      player *)
(* ===================================================================== *)

(** ** Frame skipping *)

Lemma processFrame_frameCounter cfg st inp :
  frameCounter (fst (processFrame cfg st inp)) = frameCounter st.
Proof.
  unfold processFrame.
  destruct (beatStep (beatDetector (audioState st)) (frame st + 1)
              (bassLevel (extractFeatures (dataArray inp)))) as [bd b].
  reflexivity.
Qed.

Lemma div_succ_step c n :
  (0 <= c)%Z -> (0 < n)%Z ->
  ((c + 1) / n = c / n + (if (Z.rem (c + 1) n =? 0) then 1 else 0))%Z.
Proof.
  intros Hc Hn. rewrite Z.rem_mod_nonneg by lia.
  pose proof (Z.div_mod c n ltac:(lia)) as Hd.
  pose proof (Z.mod_pos_bound c n Hn) as Hm.
  pose proof (Z.div_mod (c + 1) n ltac:(lia)) as Hd1.
  pose proof (Z.mod_pos_bound (c + 1) n Hn) as Hm1.
  destruct ((c + 1) mod n =? 0)%Z eqn:E.
  - apply Z.eqb_eq in E. nia.
  - apply Z.eqb_neq in E. nia.
Qed.

Lemma runDraw_counts cfg inputs : forall st,
  (0 < drawEveryNthFrame cfg)%Z -> (0 <= frameCounter st)%Z ->
  frame st = (frameCounter st / drawEveryNthFrame cfg)%Z ->
  let r := runDraw cfg st inputs in
  frameCounter (fst r) = (frameCounter st + Z.of_nat (length inputs))%Z
  /\ frame (fst r) = (frameCounter (fst r) / drawEveryNthFrame cfg)%Z
  /\ Z.of_nat (length (snd r)) = (frame (fst r) - frame st)%Z.
Proof.
  induction inputs as [|inp rest IH]; intros st Hn Hc Hf.
  - cbn [runDraw fst snd length]. rewrite Z.add_0_r. repeat split; [exact Hf | cbn; lia].
  - cbn [runDraw length].
    pose proof (div_succ_step (frameCounter st) (drawEveryNthFrame cfg) Hc Hn)
      as Hstep.
    unfold draw.
    change (frameCounter (tick st)) with (frameCounter st + 1)%Z.
    destruct (Z.rem (frameCounter st + 1) (drawEveryNthFrame cfg) =? 0)%Z.
    + cbn [negb].
      pose proof (processFrame_frameCounter cfg (tick st) inp) as Efc.
      destruct (processFrame_beat cfg (tick st) inp) as (_ & _ & _ & Efr).
      destruct (processFrame cfg (tick st) inp) as [st1 out].
      cbn [fst snd] in Efc, Efr.
      change (frameCounter (tick st)) with (frameCounter st + 1)%Z in Efc.
      change (frame (tick st)) with (frame st) in Efr.
      specialize (IH st1 Hn). cbv zeta in IH. rewrite Efc, Efr in IH.
      destruct IH as (I1 & I2 & I3); [lia | rewrite Hstep; lia |].
      destruct (runDraw cfg st1 rest) as [st2 outs].
      cbn [fst snd length] in *. repeat split; lia.
    + cbn [negb].
      specialize (IH (tick st) Hn). cbv zeta in IH.
      change (frameCounter (tick st)) with (frameCounter st + 1)%Z in IH.
      change (frame (tick st)) with (frame st) in IH.
      destruct IH as (I1 & I2 & I3); [lia | rewrite Hstep; lia |].
      destruct (runDraw cfg (tick st) rest) as [st2 outs].
      cbn [fst snd length] in *. repeat split; lia.
Qed.

Lemma mount_frameSkip hardwareConcurrency isMobile :
  let cfg := fst (mount hardwareConcurrency isMobile) in
  (drawEveryNthFrame cfg = 2 \/ drawEveryNthFrame cfg = 3)%Z.
Proof.
  unfold mount, detectPerformance.
  destruct isMobile; [cbn; lia|].
  destruct hardwareConcurrency as [h|]; [|cbn; lia].
  destruct (h <=? 4)%Z; [cbn; lia|].
  destruct ((4 <? h)%Z && (h <? 8)%Z); [cbn; lia|].
  destruct (8 <=? h)%Z; cbn; lia.
Qed.

(** X1.  After [n] animation callbacks from the mounted state the callback
    counter is [n], the frame counter is n div drawEveryNthFrame, and exactly
    that many frames have been processed: the others returned early. *)
Theorem frame_skip_counts
    (hardwareConcurrency : option Z) (isMobile : bool)
    (inputs : list FrameInput) :
  let cfg := fst (mount hardwareConcurrency isMobile) in
  let r := runDraw cfg (snd (mount hardwareConcurrency isMobile)) inputs in
  let n := Z.of_nat (length inputs) in
  frameCounter (fst r) = n
  /\ frame (fst r) = (n / drawEveryNthFrame cfg)%Z
  /\ Z.of_nat (length (snd r)) = (n / drawEveryNthFrame cfg)%Z.
Proof.
  intros cfg r n.
  destruct (mount_profile hardwareConcurrency isMobile) as (_ & _ & E0).
  pose proof (mount_frameSkip hardwareConcurrency isMobile) as HN.
  cbv zeta in HN. fold cfg in HN.
  destruct (runDraw_counts cfg inputs
              (snd (mount hardwareConcurrency isMobile)))
    as (I1 & I2 & I3).
  - lia.
  - rewrite E0. cbn. lia.
  - rewrite E0. cbn [initialEngine frame frameCounter].
    symmetry. apply Z.div_0_l. lia.
  - fold r in I1, I2, I3. rewrite E0 in I1, I3.
    cbn [initialEngine frame frameCounter] in I1, I3.
    fold n in I1. rewrite Z.add_0_l in I1. rewrite I1 in I2.
    repeat split; lia.
Qed.

(** ** Choosing the next pattern *)

(** [Math.floor(random * n)] is an index below [n]. *)
Lemma floor_random_index random (n : Z) :
  0 <= random < 1 -> (0 < n)%Z ->
  (0 <= jsFloor (random * inject_Z n) < n)%Z.
Proof.
  intros Hr Hn. unfold jsFloor.
  assert (Hq : inject_Z 0 < inject_Z n) by (rewrite <- Zlt_Qlt; lia).
  change (inject_Z 0) with 0 in Hq.
  assert (H0 : 0 <= random * inject_Z n)
    by (apply Qmult_le_0_compat; lra).
  assert (H1 : random * inject_Z n < inject_Z n).
  { assert (A : 0 < (1 - random) * inject_Z n)
      by (apply Qmult_lt_0_compat; lra).
    lra. }
  split.
  - rewrite <- (Qfloor_Z 0). apply Qfloor_resp_le. exact H0.
  - rewrite Zlt_Qlt. eapply Qle_lt_trans; [apply Qfloor_le|]. exact H1.
Qed.

Lemma arrayGet_random {A : Type} (l : list A) random :
  l <> [] -> 0 <= random < 1 ->
  exists x,
    arrayGet l (jsFloor (random * inject_Z (Z.of_nat (length l)))) = Some x
    /\ In x l.
Proof.
  intros Hne Hr.
  assert (Hlen : (0 < Z.of_nat (length l))%Z)
    by (destruct l; [congruence | cbn [length]; lia]).
  pose proof (floor_random_index random _ Hr Hlen) as Hi.
  unfold arrayGet.
  assert (E : (jsFloor (random * inject_Z (Z.of_nat (length l))) <? 0)%Z = false)
    by lia.
  rewrite E.
  destruct (nth_error l (Z.to_nat (jsFloor (random * inject_Z (Z.of_nat (length l))))))
    as [x|] eqn:En.
  - exists x. split; [reflexivity|]. eapply nth_error_In. exact En.
  - apply nth_error_None in En. lia.
Qed.

(** Filtering the current pattern out never empties the candidate list. *)
Lemma candidates_remain cfg lv current :
  filter (fun p => negb (strictEq p current)) (candidatePatterns cfg lv) <> [].
Proof.
  unfold candidatePatterns.
  destruct (enableAdvancedEffects cfg);
    destruct (jgt (bassLevel lv) (Fin 0.8) && jgt (bassLevel lv) (highMidLevel lv));
    destruct (jgt (highMidLevel lv) (Fin 0.7)
              && jgt (highMidLevel lv) (bassLevel lv));
    destruct (jgt (trebleLevel lv) (Fin 0.7));
    destruct current as [[]|]; discriminate.
Qed.

Lemma strictEq_true p current : strictEq p current = true <-> current = Some p.
Proof.
  unfold strictEq. destruct current as [p'|]; [|split; discriminate].
  destruct p, p'; cbn; split; intro H; congruence.
Qed.

Lemma selectPattern_spec cfg lv current random :
  0 <= random < 1 ->
  exists p,
    selectPattern cfg lv current random = Some p
    /\ In p (candidatePatterns cfg lv)
    /\ current <> Some p.
Proof.
  intro Hr. unfold selectPattern.
  destruct (arrayGet_random
              (filter (fun p => negb (strictEq p current))
                      (candidatePatterns cfg lv))
              random (candidates_remain cfg lv current) Hr) as (p & E & Hin).
  exists p. split; [exact E|].
  apply filter_In in Hin. destruct Hin as [Hin Hneq].
  split; [exact Hin|].
  intro Hc. apply strictEq_true in Hc. rewrite Hc in Hneq. discriminate.
Qed.

(** X2.  Whatever the levels, the profile and the current pattern, a pattern
    change selects a defined pattern, taken from the candidate list and
    different from the current pattern, for every value of [Math.random()]
    in [0, 1). *)
Theorem pattern_choice_defined_and_new
    (cfg : PerformanceConfig) (lv : Levels) (current : PatternVar)
    (random : Q) :
  0 <= random < 1 ->
  exists p,
    selectPattern cfg lv current random = Some p
    /\ In p (candidatePatterns cfg lv)
    /\ current <> Some p.
Proof. apply selectPattern_spec. Qed.

Lemma pattern_choice_defined_and_new_witness :
  0 <= 0.5 < 1
  /\ exists p,
       selectPattern lowEndConfig (extractFeatures (dataArray silentInput))
                     (Some FLOWER) 0.5 = Some p
       /\ Some FLOWER <> Some p.
Proof.
  assert (H : 0 <= 0.5 < 1) by (split; [discriminate | reflexivity]).
  split; [exact H|].
  destruct (pattern_choice_defined_and_new lowEndConfig
              (extractFeatures (dataArray silentInput)) (Some FLOWER) 0.5 H)
    as (p & E & _ & Hneq).
  exists p. split; [exact E | exact Hneq].
Defined.

(** X3.  With [enableAdvancedEffects = false] and no dominant band, the
    target chosen is one of the four patterns kept for less capable devices. *)
Theorem limited_profile_keeps_limited_set
    (cfg : PerformanceConfig) (lv : Levels) (current : PatternVar)
    (random : Q) (p : Pattern) :
  enableAdvancedEffects cfg = false ->
  dominantBand lv = false ->
  selectPattern cfg lv current random = Some p ->
  advancedOnly p = false
  /\ In p [SPIRAL; FLOWER; STARBURST; NESTED_CIRCLES].
Proof.
  intros Hadv Hdom Hsel. unfold selectPattern, arrayGet in Hsel.
  destruct (_ <? 0)%Z; [discriminate|].
  apply nth_error_In in Hsel. apply filter_In in Hsel.
  destruct Hsel as [Hin _].
  unfold candidatePatterns in Hin. unfold dominantBand in Hdom.
  rewrite Hadv in Hin.
  destruct (jgt (bassLevel lv) (Fin 0.8) && jgt (bassLevel lv) (highMidLevel lv));
    [discriminate|].
  destruct (jgt (highMidLevel lv) (Fin 0.7)
            && jgt (highMidLevel lv) (bassLevel lv)); [discriminate|].
  destruct (jgt (trebleLevel lv) (Fin 0.7)); [discriminate|].
  split; [|exact Hin].
  cbn in Hin. destruct Hin as [E|[E|[E|[E|[]]]]]; subst p; reflexivity.
Qed.

Lemma limited_profile_keeps_limited_set_witness :
  selectPattern lowEndConfig (extractFeatures (dataArray silentInput))
                (Some FLOWER) 0.5 = Some STARBURST
  /\ advancedOnly STARBURST = false.
Proof.
  assert (H1 : enableAdvancedEffects lowEndConfig = false) by reflexivity.
  assert (H2 : dominantBand (extractFeatures (dataArray silentInput)) = false)
    by (vm_compute; reflexivity).
  assert (H3 : selectPattern lowEndConfig
                 (extractFeatures (dataArray silentInput))
                 (Some FLOWER) 0.5 = Some STARBURST)
    by (vm_compute; reflexivity).
  split; [exact H3|].
  apply (limited_profile_keeps_limited_set lowEndConfig
           (extractFeatures (dataArray silentInput)) (Some FLOWER) 0.5
           STARBURST H1 H2 H3).
Defined.

(** ** Histories, trend and pattern variables on valid input *)

Lemma processFrame_audio cfg st inp :
  let lv := extractFeatures (dataArray inp) in
  let au' := audioState (fst (processFrame cfg st inp)) in
  energyHistory au' = shiftPush (energyHistory (audioState st)) (average lv)
  /\ energyTrend au' = trendOf (energyHistory au')
  /\ history (bdOf (fst (processFrame cfg st inp)))
     = shiftPush (history (bdOf st)) (bassLevel lv).
Proof.
  unfold processFrame, bdOf, beatStep.
  destruct (jgt _ _ && jgt _ _ && (10 <? _)%Z); cbn; repeat split; reflexivity.
Qed.

Lemma shiftPush_length h v n :
  length h = S n -> length (shiftPush h v) = S n.
Proof.
  intro H. unfold shiftPush. destruct h as [|x h]; [discriminate|].
  cbn [tl]. rewrite length_app. cbn [length] in *. lia.
Qed.

Lemma shiftPush_Forall (P : jsnum -> Prop) h v :
  Forall P h -> P v -> Forall P (shiftPush h v).
Proof.
  intros Hh Hv. unfold shiftPush. apply Forall_app. split.
  - destruct h as [|x h]; [constructor|]. inversion Hh; assumption.
  - constructor; [exact Hv | constructor].
Qed.

Lemma unitLevel_Fin x : unitLevel x -> exists q, x = Fin q /\ 0 <= q <= 1.
Proof.
  destruct x as [q| |s]; cbn; intro H; try contradiction.
  exists q. split; [reflexivity | exact H].
Qed.

(** The trend of eight unit levels is a finite number between -1 and 1. *)
Lemma trendOf_bounded h :
  length h = 8%nat -> Forall unitLevel h ->
  exists t, trendOf h = Fin t /\ -(1) <= t <= 1.
Proof.
  intros Hlen Hall.
  destruct h as [|a [|b [|c [|d [|e [|f [|g [|i [|j h]]]]]]]]];
    try discriminate.
  repeat match goal with
         | H : Forall _ (_ :: _) |- _ => inversion H; clear H; subst
         end.
  repeat match goal with
         | H : unitLevel ?x |- _ =>
             apply unitLevel_Fin in H; destruct H as (? & ? & ?); subst x
         end.
  unfold trendOf, sliceLast3, sliceFirst3, sumList.
  cbn [length Nat.sub skipn firstn fold_left jadd jdiv jsub jneg].
  change (Qzero_b 3) with false. cbv iota.
  eexists. split; [reflexivity|].
  unfold Qdiv. change (/ 3) with (1 # 3). lra.
Qed.

Lemma processFrame_patternSteps cfg st inp :
  patternSteps st -> patternSteps (fst (processFrame cfg st inp)).
Proof.
  intros (k & Hk & Hp).
  destruct (processFrame_pattern cfg st inp) as (Hc & _ & Hpt & _).
  cbv zeta in Hc, Hpt. unfold patternSteps. rewrite Hpt.
  destruct (outPatternChange (snd (processFrame cfg st inp))).
  - exists 1%Z. split; [lia|]. vm_compute. reflexivity.
  - destruct (Z.eq_dec k 40) as [E|E].
    + exists 40%Z. split; [lia|].
      assert (Hone : patternTransition st == 1)
        by (rewrite Hp, E; reflexivity).
      assert (El : Qlt_b (patternTransition st) 1 = false)
        by (apply Qlt_b_false; lra).
      rewrite El, Hone. reflexivity.
    + destruct (pattern_progress_advance _ k Hp) as (Hlt & Hmin & _); [lia|].
      rewrite Hlt. exists (k + 1)%Z. split; [lia | exact Hmin].
Qed.

Lemma patternSteps_unit st :
  patternSteps st -> 0 < patternTransition st <= 1.
Proof.
  intros (k & Hk & Hp). rewrite Hp.
  assert (H1 : inject_Z 1 <= inject_Z k) by (rewrite <- Zle_Qle; lia).
  assert (H2 : inject_Z k <= inject_Z 40) by (rewrite <- Zle_Qle; lia).
  change (inject_Z 1) with 1 in H1. change (inject_Z 40) with 40 in H2.
  lra.
Qed.

Lemma processFrame_engineInvariant cfg st inp :
  validInput inp -> engineInvariant st ->
  engineInvariant (fst (processFrame cfg st inp)).
Proof.
  intros (Hne & Hbytes & Hrp & Hrs)
         (Hel & Heu & Hbl & Hbu & Htr & Hsteps & Hcur & Htgt & Hdone & Hrun & Hd).
  destruct (extractFeatures_levels (dataArray inp) Hne Hbytes)
    as (a & b & l & h & t & Elv & Ha & Hb & _).
  destruct (processFrame_audio cfg st inp) as (A1 & A2 & A3).
  cbv zeta in A1, A2, A3. rewrite Elv in A1, A3. cbn [average bassLevel] in A1, A3.
  assert (Hel' : length (energyHistory
                           (audioState (fst (processFrame cfg st inp)))) = 8%nat)
    by (rewrite A1; apply shiftPush_length; exact Hel).
  assert (Heu' : Forall unitLevel
                   (energyHistory (audioState (fst (processFrame cfg st inp)))))
    by (rewrite A1; apply shiftPush_Forall; [exact Heu | exact Ha]).
  pose proof (processFrame_patternSteps cfg st inp Hsteps) as Hsteps'.
  destruct (processFrame_pattern cfg st inp) as (Hc & Ht & Hpt & Hcu).
  cbv zeta in Hc, Ht, Hpt, Hcu.
  destruct (selectPattern_spec cfg (extractFeatures (dataArray inp))
              (currentPattern st) (rndPattern inp) Hrp)
    as (p & Esel & _ & Hnew).
  unfold engineInvariant.
  split; [exact Hel'|]. split; [exact Heu'|].
  split; [rewrite A3; apply shiftPush_length; exact Hbl|].
  split; [rewrite A3; apply shiftPush_Forall; [exact Hbu | exact Hb]|].
  split; [rewrite A2; apply trendOf_bounded; assumption|].
  split; [exact Hsteps'|].
  assert (Hpat :
    (exists p0, currentPattern (fst (processFrame cfg st inp)) = Some p0)
    /\ (exists p0, targetPattern (fst (processFrame cfg st inp)) = Some p0)
    /\ (patternTransition (fst (processFrame cfg st inp)) == 1 ->
        currentPattern (fst (processFrame cfg st inp))
        = targetPattern (fst (processFrame cfg st inp)))
    /\ (patternTransition (fst (processFrame cfg st inp)) < 1 ->
        currentPattern (fst (processFrame cfg st inp))
        <> targetPattern (fst (processFrame cfg st inp)))).
  { rewrite Hcu, Ht, Hpt.
    destruct (outPatternChange (snd (processFrame cfg st inp))).
    - rewrite Esel.
      change (Qlt_b 0 1) with true. cbv iota.
      change (Qeq_bool (Qmin 1 (0 + 0.025)) 1) with false. cbn [andb].
      split; [exact Hcur|]. split; [exists p; reflexivity|]. split.
      + intro H. vm_compute in H. discriminate.
      + intros _. exact Hnew.
    - destruct Hsteps as (k & Hk & Hp).
      destruct (Z.eq_dec k 40) as [E|E].
      + assert (Hone : patternTransition st == 1)
          by (rewrite Hp, E; reflexivity).
        assert (El : Qlt_b (patternTransition st) 1 = false)
          by (apply Qlt_b_false; lra).
        rewrite El. cbn [andb].
        split; [exact Hcur|]. split; [exact Htgt|]. split; [exact Hdone|].
        exact Hrun.
      + destruct (pattern_progress_advance _ k Hp) as (Hlt & Hmin & Hone);
          [lia|].
        rewrite Hlt. cbn [andb].
        destruct (Qeq_bool (Qmin 1 (patternTransition st + 0.025)) 1) eqn:Eq.
        * split; [exact Htgt|]. split; [exact Htgt|]. split; [reflexivity|].
          intro Hlt1. apply Qeq_bool_iff in Eq. lra.
        * split; [exact Hcur|]. split; [exact Htgt|]. split.
          -- intro H1. apply Qeq_bool_iff in H1. congruence.
          -- intros _. apply Hrun. apply Qlt_b_true in Hlt. exact Hlt. }
  destruct Hpat as (P1 & P2 & P3 & P4).
  split; [exact P1|]. split; [exact P2|]. split; [exact P3|].
  split; [exact P4|].
  rewrite processFrame_fractalDepth.
  destruct (outSymmetryChange (snd (processFrame cfg st inp))); [|exact Hd].
  rewrite Elv. cbn [average jmul jfloor jadd].
  assert (H0 : (Qfloor 0 <= Qfloor (a * 2))%Z) by (apply Qfloor_resp_le; lra).
  assert (H2 : (Qfloor (a * 2) <= Qfloor 2)%Z) by (apply Qfloor_resp_le; lra).
  change (Qfloor 0) with 0%Z in H0. change (Qfloor 2) with 2%Z in H2.
  exists (Z.to_nat (2 + Qfloor (a * 2))). split; [lia|].
  unfold ofZ, jsnum_eq. rewrite Z2Nat.id by lia.
  rewrite inject_Z_plus. reflexivity.
Qed.

Lemma initialEngine_engineInvariant depth0 :
  (1 <= depth0 <= 3)%Z -> engineInvariant (initialEngine depth0).
Proof.
  intro Hd. unfold engineInvariant. cbn.
  split; [reflexivity|].
  split; [repeat constructor; cbn; lra|].
  split; [reflexivity|].
  split; [repeat constructor; cbn; lra|].
  split; [exists 0; split; [reflexivity | lra]|].
  split; [exists 40%Z; split; [lia | reflexivity]|].
  split; [exists FLOWER; reflexivity|].
  split; [exists FLOWER; reflexivity|].
  split; [reflexivity|].
  split; [intro H; lra|].
  exists (Z.to_nat depth0). split; [lia|].
  rewrite Z2Nat.id by lia. reflexivity.
Qed.

Lemma mount_depth hardwareConcurrency isMobile :
  (1 <= snd (detectPerformance hardwareConcurrency isMobile) <= 3)%Z.
Proof.
  unfold detectPerformance.
  destruct isMobile; [cbn; lia|].
  destruct hardwareConcurrency as [h|]; [|cbn; lia].
  destruct (h <=? 4)%Z; [cbn; lia|].
  destruct ((4 <? h)%Z && (h <? 8)%Z); [cbn; lia|].
  destruct (8 <=? h)%Z; cbn; lia.
Qed.

Lemma runDraw_engineInvariant cfg inputs : forall st,
  Forall validInput inputs -> engineInvariant st ->
  engineInvariant (fst (runDraw cfg st inputs)).
Proof.
  induction inputs as [|inp rest IH]; intros st Hall Hinv.
  - exact Hinv.
  - inversion Hall as [|? ? Hv Hrest]; subst.
    cbn [runDraw]. destruct (draw_cases cfg st inp) as [E|E]; rewrite E.
    + specialize (IH (tick st) Hrest Hinv).
      destruct (runDraw cfg (tick st) rest). exact IH.
    + assert (H1 : engineInvariant (fst (processFrame cfg (tick st) inp)))
        by (apply processFrame_engineInvariant; assumption).
      specialize (IH _ Hrest H1).
      destruct (runDraw cfg (fst (processFrame cfg (tick st) inp)) rest).
      exact IH.
Qed.

Lemma mounted_run_invariant hardwareConcurrency isMobile inputs :
  Forall validInput inputs ->
  engineInvariant
    (fst (runDraw (fst (mount hardwareConcurrency isMobile))
                  (snd (mount hardwareConcurrency isMobile)) inputs)).
Proof.
  intro Hall. apply runDraw_engineInvariant; [exact Hall|].
  destruct (mount_profile hardwareConcurrency isMobile) as (_ & _ & E).
  rewrite E. apply initialEngine_engineInvariant. apply mount_depth.
Qed.

Lemma loudInput_valid : validInput loudInput.
Proof.
  unfold validInput. cbn [loudInput frameOf dataArray rndPattern rndSymmetry].
  split; [discriminate|]. split.
  - apply Forall_forall. intros v Hv. apply repeat_spec in Hv. subst v.
    unfold isByte. lia.
  - split; split; try discriminate; reflexivity.
Qed.

Lemma repeat_Forall {A : Type} (P : A -> Prop) x n :
  P x -> Forall P (repeat x n).
Proof.
  intro H. apply Forall_forall. intros y Hy.
  apply repeat_spec in Hy. subst y. exact H.
Qed.

(** X4.  On runs whose frames are non-empty byte arrays, the energy history
    always holds 8 values and the beat history 5, all of them finite numbers
    in [0,1], and the energy trend is a finite number in [-1, 1]. *)
Theorem histories_stay_bounded
    (hardwareConcurrency : option Z) (isMobile : bool)
    (inputs : list FrameInput) :
  Forall validInput inputs ->
  let st := fst (runDraw (fst (mount hardwareConcurrency isMobile))
                         (snd (mount hardwareConcurrency isMobile)) inputs) in
  length (energyHistory (audioState st)) = 8%nat
  /\ Forall unitLevel (energyHistory (audioState st))
  /\ length (history (bdOf st)) = 5%nat
  /\ Forall unitLevel (history (bdOf st))
  /\ exists t, energyTrend (audioState st) = Fin t /\ -(1) <= t <= 1.
Proof.
  intros Hall st.
  destruct (mounted_run_invariant hardwareConcurrency isMobile inputs Hall)
    as (H1 & H2 & H3 & H4 & H5 & _).
  repeat split; assumption.
Qed.

Lemma histories_stay_bounded_witness :
  Forall validInput (repeat loudInput 6)
  /\ length (energyHistory
               (audioState
                  (fst (runDraw (fst (mount (Some 8%Z) false))
                                (snd (mount (Some 8%Z) false))
                                (repeat loudInput 6))))) = 8%nat.
Proof.
  assert (H : Forall validInput (repeat loudInput 6))
    by (apply repeat_Forall; exact loudInput_valid).
  split; [exact H|].
  apply (histories_stay_bounded (Some 8%Z) false (repeat loudInput 6) H).
Defined.

(** X5.  On runs with valid input the pattern variables stay consistent: the
    progress is k * 0.025 for a whole k between 1 and 40, the current and the
    target pattern are always defined, they are equal when the progress is 1
    and different while a cross-fade is running. *)
Theorem pattern_variables_consistent
    (hardwareConcurrency : option Z) (isMobile : bool)
    (inputs : list FrameInput) :
  Forall validInput inputs ->
  let st := fst (runDraw (fst (mount hardwareConcurrency isMobile))
                         (snd (mount hardwareConcurrency isMobile)) inputs) in
  (exists k : Z, (1 <= k <= 40)%Z
                 /\ patternTransition st == inject_Z k * 0.025)
  /\ (exists p, currentPattern st = Some p)
  /\ (exists p, targetPattern st = Some p)
  /\ (patternTransition st == 1 -> currentPattern st = targetPattern st)
  /\ (patternTransition st < 1 -> currentPattern st <> targetPattern st).
Proof.
  intros Hall st.
  destruct (mounted_run_invariant hardwareConcurrency isMobile inputs Hall)
    as (_ & _ & _ & _ & _ & H6 & H7 & H8 & H9 & H10 & _).
  repeat split; assumption.
Qed.

Lemma pattern_variables_consistent_witness :
  Forall validInput (repeat loudInput 6)
  /\ exists p,
       currentPattern
         (fst (runDraw (fst (mount (Some 8%Z) false))
                       (snd (mount (Some 8%Z) false))
                       (repeat loudInput 6))) = Some p.
Proof.
  assert (H : Forall validInput (repeat loudInput 6))
    by (apply repeat_Forall; exact loudInput_valid).
  split; [exact H|].
  apply (pattern_variables_consistent (Some 8%Z) false (repeat loudInput 6) H).
Defined.

Lemma canvasCallCount_app a b :
  canvasCallCount (a ++ b) = (canvasCallCount a + canvasCallCount b)%nat.
Proof. unfold canvasCallCount. rewrite map_app, list_sum_app. reflexivity. Qed.

(** The context calls of a tree of natural depth [n]: at most 3^(n+1) - 2,
    and exactly that many for a depth of at least 1 when the middle branch is
    taken wherever it can be. *)
Lemma drawBranch_canvas_calls lv scale : forall n k len ang q,
  q == inject_Z (Z.of_nat n) ->
  exists ops,
    drawBranch (S n + k) lv scale len ang (Fin q) = Some ops
    /\ (canvasCallCount ops + 2 <= 3 ^ (S n))%nat
    /\ (jgt (bassLevel lv) (Fin 0.6) || jgt (lowMidLevel lv) (Fin 0.7) = true ->
        (1 <= n)%nat -> (canvasCallCount ops + 2 = 3 ^ (S n))%nat).
Proof.
  induction n as [|n IH]; intros k len ang q Hq.
  - destruct (depth_tests q 0 Hq) as (T0 & _).
    exists []. cbn [Nat.add drawBranch]. rewrite T0.
    cbn. repeat split; lia.
  - destruct (depth_tests q (S n) Hq) as (T0 & T1 & T2 & q' & Es & Hq').
    assert (Hq1 : q' == inject_Z (Z.of_nat n)).
    { rewrite Hq'. apply inject_Z_injective. lia. }
    change (S (S n) + k)%nat with (S (S n + k)). cbn [drawBranch].
    rewrite T0, T1, T2, Es. cbn [Nat.eqb].
    destruct (IH k (jmul len scale) (ang + 1)%Z q' Hq1)
      as (opsR & ER & LR & QR).
    destruct (IH k (jmul len scale) (ang - 1)%Z q' Hq1)
      as (opsL & EL & LL & QL).
    destruct (IH k (jmul (jmul len scale) (Fin 0.8)) ang q' Hq1)
      as (opsM & EM & LM & QM).
    rewrite ER, EL, EM.
    destruct n as [|n].
    + (* depth 1: a leaf, and both calls at depth 0 return at once *)
      cbn [Nat.add drawBranch] in ER, EL.
      destruct (depth_tests q' 0 Hq1) as (T0' & _). rewrite T0' in ER, EL.
      cbn [Nat.eqb] in ER, EL.
      injection ER as <-. injection EL as <-.
      cbn [Nat.eqb Nat.ltb Nat.leb andb].
      eexists. split; [reflexivity|]. cbn. split; [lia | intros; lia].
    + change (1 <? S (S n))%nat with true. cbn [Nat.eqb andb].
      assert (E3 : (3 ^ S (S (S n)) = 3 * 3 ^ S (S n))%nat) by reflexivity.
      destruct (jgt (bassLevel lv) (Fin 0.6)
                || jgt (lowMidLevel lv) (Fin 0.7)) eqn:Emid.
      * eexists. split; [reflexivity|].
        rewrite !canvasCallCount_app.
        change (canvasCallCount [StrokeBranch len ang (Fin q)]) with 4%nat.
        change (canvasCallCount []) with 0%nat.
        specialize (QR eq_refl ltac:(lia)). specialize (QL eq_refl ltac:(lia)).
        specialize (QM eq_refl ltac:(lia)).
        split; [lia | intros; lia].
      * eexists. split; [reflexivity|].
        rewrite !canvasCallCount_app.
        change (canvasCallCount [StrokeBranch len ang (Fin q)]) with 4%nat.
        change (canvasCallCount []) with 0%nat.
        split; [lia | intro; discriminate].
Qed.

(** X6.  In every state reached on valid input the fractal depth is a whole
    number d between 1 and 4, so the fractal tree drawn from that state
    returns within a nesting of 5, strokes at most 40 branches and makes at
    most 3^(d+1) - 2 <= 241 calls of context methods (4 per branch, 3 per
    leaf), whatever the levels of the frame; with a bass level above 0.6 or a
    low-mid level above 0.7 it makes exactly 3^(d+1) - 2 of them. *)
Theorem reachable_fractal_tree_bounded
    (hardwareConcurrency : option Z) (isMobile : bool)
    (inputs : list FrameInput) (lv : Levels) :
  Forall validInput inputs ->
  let st := fst (runDraw (fst (mount hardwareConcurrency isMobile))
                         (snd (mount hardwareConcurrency isMobile)) inputs) in
  exists d : nat,
    (1 <= d <= 4)%nat
    /\ jsnum_eq (fractalDepth st) (ofZ (Z.of_nat d))
    /\ exists ops,
         drawFractalTree 5 lv (fractalDepth st) (fractalScale st) = Some ops
         /\ (branchCount ops <= 40)%nat
         /\ (canvasCallCount ops + 2 <= 3 ^ (S d))%nat
         /\ (canvasCallCount ops <= 241)%nat
         /\ (jgt (bassLevel lv) (Fin 0.6) || jgt (lowMidLevel lv) (Fin 0.7)
             = true ->
             (canvasCallCount ops + 2 = 3 ^ (S d))%nat).
Proof.
  intros Hall st.
  destruct (mounted_run_invariant hardwareConcurrency isMobile inputs Hall)
    as (_ & _ & _ & _ & _ & _ & _ & _ & _ & _ & d & Hd & Ed).
  fold st in Ed. exists d. split; [exact Hd|]. split; [exact Ed|].
  unfold drawFractalTree.
  destruct (fractalDepth st) as [q| |s]; cbn [jsnum_eq ofZ] in Ed;
    try contradiction.
  set (len := jadd (jadd (Fin 70) (jmul (bassLevel lv) (Fin 70)))
                   (jmul (lowMidLevel lv) (Fin 30))).
  destruct (drawBranch_total lv (fractalScale st) d (4 - d) len 0%Z q Ed)
    as (ops & E & _ & B & _).
  destruct (drawBranch_canvas_calls lv (fractalScale st) d (4 - d) len 0%Z q Ed)
    as (ops' & E' & C & Ceq).
  rewrite E in E'. injection E' as <-.
  replace (S d + (4 - d))%nat with 5%nat in E by lia.
  exists ops. split; [exact E|].
  assert (Hpow : (3 ^ d <= 3 ^ 4)%nat) by (apply Nat.pow_le_mono_r; lia).
  assert (Hpow' : (3 ^ S d <= 3 ^ 5)%nat) by (apply Nat.pow_le_mono_r; lia).
  change (3 ^ 4)%nat with 81%nat in Hpow.
  change (3 ^ 5)%nat with 243%nat in Hpow'.
  split; [lia|]. split; [exact C|]. split; [lia|].
  intro Hmid. apply Ceq; [exact Hmid | lia].
Qed.

Lemma reachable_fractal_tree_bounded_witness :
  exists ops,
    drawFractalTree 5 (extractFeatures (dataArray loudInput))
      (fractalDepth
         (fst (runDraw (fst (mount (Some 8%Z) false))
                       (snd (mount (Some 8%Z) false))
                       (repeat silentInput 240 ++ repeat loudInput 2))))
      (fractalScale
         (fst (runDraw (fst (mount (Some 8%Z) false))
                       (snd (mount (Some 8%Z) false))
                       (repeat silentInput 240 ++ repeat loudInput 2))))
    = Some ops
    /\ canvasCallCount ops = 241%nat.
Proof.
  assert (H : Forall validInput (repeat silentInput 240 ++ repeat loudInput 2)).
  { apply Forall_app. split; apply repeat_Forall;
      [|exact loudInput_valid].
    unfold validInput, silentInput, frameOf. cbn.
    split; [discriminate|]. split.
    - apply repeat_Forall with (n := 16%nat). unfold isByte. lia.
    - split; split; try discriminate; reflexivity. }
  assert (H4 : jsnum_eq
                 (fractalDepth
                    (fst (runDraw (fst (mount (Some 8%Z) false))
                            (snd (mount (Some 8%Z) false))
                            (repeat silentInput 240 ++ repeat loudInput 2))))
                 (Fin 4))
    by (vm_compute; reflexivity).
  destruct (reachable_fractal_tree_bounded (Some 8%Z) false
              (repeat silentInput 240 ++ repeat loudInput 2)
              (extractFeatures (dataArray loudInput)) H)
    as (d & Hd & Ed & ops & E & _ & _ & _ & Ceq).
  exists ops. split; [exact E|].
  assert (Hmid : jgt (bassLevel (extractFeatures (dataArray loudInput)))
                     (Fin 0.6)
                 || jgt (lowMidLevel (extractFeatures (dataArray loudInput)))
                        (Fin 0.7) = true)
    by (vm_compute; reflexivity).
  specialize (Ceq Hmid).
  assert (E4 : d = 4%nat).
  { destruct (fractalDepth
                (fst (runDraw (fst (mount (Some 8%Z) false))
                        (snd (mount (Some 8%Z) false))
                        (repeat silentInput 240 ++ repeat loudInput 2))))
      as [q| |s]; cbn [jsnum_eq ofZ] in Ed, H4; try contradiction.
    rewrite H4 in Ed. change 4 with (inject_Z 4) in Ed.
    apply (proj1 (inject_Z_injective _ _)) in Ed. lia. }
  rewrite E4 in Ceq. change (3 ^ 5)%nat with 243%nat in Ceq. lia.
Defined.

(** ** Dwell time of patterns and spacing of bass impacts *)

Lemma processFrame_counter cfg st inp :
  let r := processFrame cfg st inp in
  (outPatternChange (snd r) = true ->
     (180 < patternChangeCounter st + 1)%Z
     /\ patternChangeCounter (fst r) = 0%Z)
  /\ (outPatternChange (snd r) = false ->
        patternChangeCounter (fst r) = (patternChangeCounter st + 1)%Z).
Proof.
  unfold processFrame.
  destruct (beatStep (beatDetector (audioState st)) (frame st + 1)
              (bassLevel (extractFeatures (dataArray inp)))) as [bd b].
  cbn [fst snd outPatternChange patternChangeCounter].
  destruct (patternTrigger _ _ _ _ _ _) eqn:E; split; intro H;
    try discriminate.
  - split; [|reflexivity]. unfold patternTrigger in E.
    apply andb_true_iff in E. destruct E as [E _].
    apply andb_true_iff in E. destruct E as [_ E]. lia.
  - reflexivity.
Qed.

Lemma processFrame_impact cfg st inp :
  let r := processFrame cfg st inp in
  (outBassImpact (snd r) = true ->
     (frame st + 1 - lastBassImpact (audioState st) > 30)%Z
     /\ lastBassImpact (audioState (fst r)) = (frame st + 1)%Z)
  /\ (outBassImpact (snd r) = false ->
        lastBassImpact (audioState (fst r)) = lastBassImpact (audioState st)).
Proof.
  unfold processFrame.
  destruct (beatStep (beatDetector (audioState st)) (frame st + 1)
              (bassLevel (extractFeatures (dataArray inp)))) as [bd b].
  cbn [fst snd outBassImpact audioState lastBassImpact].
  destruct (jgt (bassLevel (extractFeatures (dataArray inp)))
                (Fin (bassImpactThreshold (audioState st)))
            && (30 <? frame st + 1 - lastBassImpact (audioState st))%Z) eqn:E;
    split; intro H; try discriminate.
  - split; [|reflexivity]. apply andb_true_iff in E. lia.
  - reflexivity.
Qed.

Lemma runDraw_dwell cfg inputs : forall st,
  let r := runDraw cfg st inputs in
  Forall (fun o => outPatternChange o = true ->
                   (outFrame o - frame st + patternChangeCounter st > 180)%Z)
         (snd r)
  /\ ForallOrdPairs patternChangesApart (snd r).
Proof.
  induction inputs as [|inp rest IH]; intro st.
  - cbn. split; constructor.
  - cbn [runDraw]. destruct (draw_cases cfg st inp) as [E|E]; rewrite E.
    + specialize (IH (tick st)). cbv zeta in IH.
      destruct (runDraw cfg (tick st) rest) as [st2 outs].
      cbn [fst snd] in *. exact IH.
    + destruct (processFrame_beat cfg (tick st) inp) as (_ & _ & E3 & E4).
      destruct (processFrame_counter cfg (tick st) inp) as [Ct Cf].
      cbv zeta in Ct, Cf.
      set (st1 := fst (processFrame cfg (tick st) inp)) in *.
      set (out := snd (processFrame cfg (tick st) inp)) in *.
      specialize (IH st1). cbv zeta in IH.
      destruct (runDraw cfg st1 rest) as [st2 outs].
      cbn [fst snd] in *. destruct IH as [IH1 IH2].
      change (frame (tick st)) with (frame st) in *.
      change (patternChangeCounter (tick st))
        with (patternChangeCounter st) in *.
      destruct (outPatternChange out) eqn:Eb.
      * destruct (Ct eq_refl) as (L1 & L2). split.
        -- constructor; [intros _; lia|].
           eapply Forall_impl; [|exact IH1]. cbv beta. intros o Ho Hb.
           specialize (Ho Hb). lia.
        -- constructor; [|exact IH2].
           eapply Forall_impl; [|exact IH1]. cbv beta. intros o Ho.
           unfold patternChangesApart. intros _ Hb. specialize (Ho Hb). lia.
      * specialize (Cf eq_refl). split.
        -- constructor; [intro Hb; congruence|].
           eapply Forall_impl; [|exact IH1]. cbv beta. intros o Ho Hb.
           specialize (Ho Hb). lia.
        -- constructor; [|exact IH2].
           apply Forall_forall. intros o _. unfold patternChangesApart.
           intro Hb. congruence.
Qed.

(** X7.  In every run from the mounted state a pattern change never comes
    before frame 181, and two pattern changes are always more than 180
    processed frames apart. *)
Theorem pattern_changes_respect_dwell
    (hardwareConcurrency : option Z) (isMobile : bool)
    (inputs : list FrameInput) :
  let outs := snd (runDraw (fst (mount hardwareConcurrency isMobile))
                           (snd (mount hardwareConcurrency isMobile))
                           inputs) in
  Forall (fun o => outPatternChange o = true -> (outFrame o > 180)%Z) outs
  /\ ForallOrdPairs patternChangesApart outs.
Proof.
  intro outs.
  destruct (mount_profile hardwareConcurrency isMobile) as (_ & _ & E0).
  destruct (runDraw_dwell (fst (mount hardwareConcurrency isMobile)) inputs
              (snd (mount hardwareConcurrency isMobile))) as [H1 H2].
  fold outs in H1, H2. split; [|exact H2].
  eapply Forall_impl; [|exact H1]. cbv beta. intros o Ho Hb.
  specialize (Ho Hb). rewrite E0 in Ho.
  cbn [initialEngine frame patternChangeCounter] in Ho. lia.
Qed.

Lemma runDraw_impacts cfg inputs : forall st,
  let r := runDraw cfg st inputs in
  Forall (fun o => outBassImpact o = true ->
                   (outFrame o - lastBassImpact (audioState st) > 30)%Z)
         (snd r)
  /\ ForallOrdPairs bassImpactsApart (snd r).
Proof.
  induction inputs as [|inp rest IH]; intro st.
  - cbn. split; constructor.
  - cbn [runDraw]. destruct (draw_cases cfg st inp) as [E|E]; rewrite E.
    + specialize (IH (tick st)). cbv zeta in IH.
      destruct (runDraw cfg (tick st) rest) as [st2 outs].
      cbn [fst snd] in *. exact IH.
    + destruct (processFrame_beat cfg (tick st) inp) as (_ & _ & E3 & _).
      destruct (processFrame_impact cfg (tick st) inp) as [Ct Cf].
      cbv zeta in Ct, Cf.
      set (st1 := fst (processFrame cfg (tick st) inp)) in *.
      set (out := snd (processFrame cfg (tick st) inp)) in *.
      specialize (IH st1). cbv zeta in IH.
      destruct (runDraw cfg st1 rest) as [st2 outs].
      cbn [fst snd] in *. destruct IH as [IH1 IH2].
      change (frame (tick st)) with (frame st) in *.
      change (audioState (tick st)) with (audioState st) in *.
      destruct (outBassImpact out) eqn:Eb.
      * destruct (Ct eq_refl) as (L1 & L2). split.
        -- constructor; [intros _; lia|].
           eapply Forall_impl; [|exact IH1]. cbv beta. intros o Ho Hb.
           specialize (Ho Hb). lia.
        -- constructor; [|exact IH2].
           eapply Forall_impl; [|exact IH1]. cbv beta. intros o Ho.
           unfold bassImpactsApart. intros _ Hb. specialize (Ho Hb). lia.
      * specialize (Cf eq_refl). split.
        -- constructor; [intro Hb; congruence|].
           rewrite <- Cf. exact IH1.
        -- constructor; [|exact IH2].
           apply Forall_forall. intros o _. unfold bassImpactsApart.
           intro Hb. congruence.
Qed.

(** X8.  In every run from the mounted state a bass impact never comes
    before frame 31, and two bass impacts are always more than 30 processed
    frames apart. *)
Theorem bass_impacts_respect_cooldown
    (hardwareConcurrency : option Z) (isMobile : bool)
    (inputs : list FrameInput) :
  let outs := snd (runDraw (fst (mount hardwareConcurrency isMobile))
                           (snd (mount hardwareConcurrency isMobile))
                           inputs) in
  Forall (fun o => outBassImpact o = true -> (outFrame o > 30)%Z) outs
  /\ ForallOrdPairs bassImpactsApart outs.
Proof.
  intro outs.
  destruct (mount_profile hardwareConcurrency isMobile) as (_ & _ & E0).
  destruct (runDraw_impacts (fst (mount hardwareConcurrency isMobile)) inputs
              (snd (mount hardwareConcurrency isMobile))) as [H1 H2].
  fold outs in H1, H2. split; [|exact H2].
  eapply Forall_impl; [|exact H1]. cbv beta. intros o Ho Hb.
  specialize (Ho Hb). rewrite E0 in Ho.
  cbn [initialEngine audioState initialAudioState lastBassImpact] in Ho. lia.
Qed.

(** ** Cross-fade layers *)

Lemma runDraw_patternSteps cfg inputs : forall st,
  patternSteps st -> patternSteps (fst (runDraw cfg st inputs)).
Proof.
  induction inputs as [|inp rest IH]; intros st H.
  - exact H.
  - cbn [runDraw]. destruct (draw_cases cfg st inp) as [E|E]; rewrite E.
    + specialize (IH (tick st) H).
      destruct (runDraw cfg (tick st) rest). exact IH.
    + assert (H1 : patternSteps (fst (processFrame cfg (tick st) inp)))
        by (apply processFrame_patternSteps; exact H).
      specialize (IH _ H1).
      destruct (runDraw cfg (fst (processFrame cfg (tick st) inp)) rest).
      exact IH.
Qed.

(** X9.  Every processed frame of every run from the mounted state draws
    either the current pattern alone at full opacity (progress = 1), or the
    current pattern at opacity 1 - progress and then the target pattern at
    opacity progress (progress < 1, the progress being the one reached on
    that frame): two opacities strictly between 0 and 1 that add up to 1. *)
Theorem cross_fade_opacities
    (hardwareConcurrency : option Z) (isMobile : bool)
    (inputs : list FrameInput) (inp : FrameInput) :
  let cfg := fst (mount hardwareConcurrency isMobile) in
  let st := fst (runDraw cfg (snd (mount hardwareConcurrency isMobile))
                         inputs) in
  match draw cfg st inp with
  | (st', Some out) =>
      (patternTransition st' == 1
       /\ exists l, outLayers out = [l]
                    /\ layerPattern l = currentPattern st'
                    /\ layerAlpha l == 1)
      \/ (patternTransition st' < 1
          /\ exists l1 l2,
               outLayers out = [l1; l2]
               /\ layerPattern l1 = currentPattern st'
               /\ layerPattern l2 = targetPattern st'
               /\ layerAlpha l1 == 1 - patternTransition st'
               /\ layerAlpha l2 == patternTransition st'
               /\ 0 < layerAlpha l1 < 1 /\ 0 < layerAlpha l2 < 1
               /\ layerAlpha l1 + layerAlpha l2 == 1)
  | (_, None) => True
  end.
Proof.
  intros cfg st.
  assert (Hsteps : patternSteps st).
  { apply runDraw_patternSteps.
    destruct (mount_profile hardwareConcurrency isMobile) as (_ & _ & E0).
    rewrite E0. exists 40%Z. split; [lia | reflexivity]. }
  destruct (draw_cases cfg st inp) as [E|E]; rewrite E; [exact I|].
  assert (H1 : patternSteps (fst (processFrame cfg (tick st) inp)))
    by (apply processFrame_patternSteps; exact Hsteps).
  apply patternSteps_unit in H1.
  destruct (processFrame_symmetry cfg (tick st) inp)
    as (_ & _ & _ & _ & _ & EL).
  cbv zeta in EL. rewrite EL. unfold renderLayers.
  destruct (Qlt_b (patternTransition (fst (processFrame cfg (tick st) inp))) 1)
    eqn:Elt.
  - right. apply Qlt_b_true in Elt. split; [exact Elt|].
    eexists. eexists. split; [reflexivity|]. cbn [layerPattern layerAlpha].
    repeat split; try reflexivity; try lra.
  - left. apply Qlt_b_false in Elt. split; [lra|].
    eexists. split; [reflexivity|]. cbn [layerPattern layerAlpha].
    split; reflexivity.
Qed.

(** ** Symmetry transition *)

(** X10.  On every frame the new [symmetry] lies between the old [symmetry]
    and the target in force after the frame, provided the progress was
    within [0,1]: the interpolation never overshoots the target nor moves
    away from it. *)
Theorem symmetry_moves_towards_target
    (cfg : PerformanceConfig) (st : Engine) (inp : FrameInput) :
  0 <= symmetryTransition st <= 1 ->
  let st' := fst (processFrame cfg st inp) in
  (Z.min (symmetry st) (targetSymmetry st')
   <= symmetry st'
   <= Z.max (symmetry st) (targetSymmetry st'))%Z.
Proof.
  intros Ht st'.
  destruct (processFrame_symmetry cfg st inp) as (E1 & E2 & E3 & _).
  cbv zeta in E1, E2, E3. fold st' in E1, E2, E3.
  rewrite <- E1 in E3.
  set (t0 := if outSymmetryChange (snd (processFrame cfg st inp))
             then 0 else symmetryTransition st) in *.
  assert (Ht0 : 0 <= t0 <= 1).
  { unfold t0. destruct (outSymmetryChange _); [lra | exact Ht]. }
  assert (Ht' : 0 <= symmetryTransition st' <= 1)
    by (rewrite E2; apply symmetry_progress_step; exact Ht0).
  rewrite E3. destruct (Qlt_b t0 1); [|lia].
  apply interpolateSymmetry_between; [exact Ht' | lia | lia].
Qed.

Lemma symmetry_moves_towards_target_witness :
  let cfg := fst (mount (Some 8%Z) false) in
  let st := fst (runDraw cfg (snd (mount (Some 8%Z) false))
                         (repeat silentInput 240 ++ repeat loudInput 12)) in
  let st' := fst (processFrame cfg st loudInput) in
  frame st' = 127%Z /\ symmetryTransition st < 1
  /\ symmetry st = 8%Z /\ targetSymmetry st' = 4%Z /\ symmetry st' = 7%Z
  /\ (Z.min (symmetry st) (targetSymmetry st')
      <= symmetry st'
      <= Z.max (symmetry st) (targetSymmetry st'))%Z.
Proof.
  cbv zeta.
  assert (H : 0 <= symmetryTransition
                     (fst (runDraw (fst (mount (Some 8%Z) false))
                             (snd (mount (Some 8%Z) false))
                             (repeat silentInput 240 ++ repeat loudInput 12)))
              <= 1)
    by (split; vm_compute; discriminate).
  split; [vm_compute; reflexivity|]. split; [vm_compute; reflexivity|].
  split; [vm_compute; reflexivity|]. split; [vm_compute; reflexivity|].
  split; [vm_compute; reflexivity|].
  apply (symmetry_moves_towards_target (fst (mount (Some 8%Z) false))
           (fst (runDraw (fst (mount (Some 8%Z) false))
                   (snd (mount (Some 8%Z) false))
                   (repeat silentInput 240 ++ repeat loudInput 12)))
           loudInput H).
Defined.

Lemma symmetry_progress_advance t (j : Z) :
  t == inject_Z j * 0.02 -> (0 <= j < 50)%Z ->
  Qlt_b t 1 = true
  /\ Qmin 1 (t + 0.02) == inject_Z (j + 1) * 0.02.
Proof.
  intros Hp Hj.
  assert (H0 : inject_Z 0 <= inject_Z j) by (rewrite <- Zle_Qle; lia).
  assert (H1 : inject_Z j <= inject_Z 49) by (rewrite <- Zle_Qle; lia).
  change (inject_Z 0) with 0 in H0. change (inject_Z 49) with 49 in H1.
  assert (Hlt : t < 1) by lra.
  split; [apply Qlt_b_true; exact Hlt|].
  rewrite inject_Z_plus. change (inject_Z 1) with 1.
  destruct (Q.min_spec 1 (t + 0.02)) as [[H E]|[H E]]; rewrite E; lra.
Qed.

Lemma runFrames_symmetry_progress cfg inputs : forall st (j : Z),
  symmetryTransition st == inject_Z j * 0.02 ->
  (1 <= j)%Z -> (j + Z.of_nat (length inputs) <= 50)%Z ->
  let r := runFrames cfg st inputs in
  Forall (fun o => outSymmetryChange o = false) (snd r) ->
  symmetryTransition (fst r)
    == inject_Z (j + Z.of_nat (length inputs)) * 0.02
  /\ targetSymmetry (fst r) = targetSymmetry st
  /\ ((j + Z.of_nat (length inputs) = 50)%Z -> inputs <> [] ->
      symmetry (fst r) = targetSymmetry st).
Proof.
  induction inputs as [|inp rest IH]; intros st j Hp Hj Hlen r Hno.
  - subst r. cbn [runFrames fst snd length]. rewrite Z.add_0_r.
    repeat split; try assumption. intros _ H. congruence.
  - subst r. cbn [length] in Hlen. cbn [runFrames] in Hno |- *.
    destruct (processFrame_symmetry cfg st inp) as (E1 & E2 & E3 & _).
    cbv zeta in E1, E2, E3.
    destruct (symmetry_progress_advance _ j Hp) as (Hlt & Hmin); [lia|].
    destruct (processFrame cfg st inp) as [st1 out] eqn:Epf.
    cbn [fst snd] in E1, E2, E3.
    specialize (IH st1 (j + 1)%Z). cbv zeta in IH.
    destruct (runFrames cfg st1 rest) as [st2 outs] eqn:Erf.
    cbn [fst snd] in Hno, IH |- *.
    inversion Hno as [|? ? Hout Hrest]; subst.
    rewrite Hout in E1, E2, E3. rewrite Hlt in E2, E3.
    assert (Hp1 : symmetryTransition st1 == inject_Z (j + 1) * 0.02)
      by (rewrite E2; exact Hmin).
    destruct IH as (I1 & I2 & I3); [exact Hp1 | lia | lia | exact Hrest |].
    cbn [length].
    replace (j + Z.of_nat (S (length rest)))%Z
      with (j + 1 + Z.of_nat (length rest))%Z by lia.
    split; [exact I1|]. split; [congruence|].
    intros H50 _. destruct rest as [|inp2 rest2].
    + cbn [runFrames] in Erf. injection Erf as <- <-.
      rewrite E3. apply interpolateSymmetry_done.
      rewrite Hp1. cbn [length] in H50.
      replace (j + 1)%Z with 50%Z by lia. reflexivity.
    + rewrite I3; [exact E1 | exact H50 | discriminate].
Qed.

(** X11.  A symmetry change resets the progress to 0 and advances it to
    0.02; as long as no further symmetry change fires, the progress after k
    more processed frames is (k + 1) * 0.02 and the target is the one chosen,
    and on the 50th frame the progress is exactly 1 and [symmetry] equals the
    target. *)
Theorem symmetry_transition_progress
    (cfg : PerformanceConfig) (st : Engine) (inp : FrameInput)
    (inputs : list FrameInput) :
  outSymmetryChange (snd (processFrame cfg st inp)) = true ->
  (length inputs <= 49)%nat ->
  let st1 := fst (processFrame cfg st inp) in
  let r := runFrames cfg st1 inputs in
  let k := Z.of_nat (length inputs) in
  Forall (fun o => outSymmetryChange o = false) (snd r) ->
  targetSymmetry st1
  = chooseSymmetry cfg (extractFeatures (dataArray inp)) (rndSymmetry inp)
  /\ symmetryTransition (fst r) == inject_Z (k + 1) * 0.02
  /\ targetSymmetry (fst r) = targetSymmetry st1
  /\ ((k = 49)%Z ->
      symmetryTransition (fst r) == 1
      /\ symmetry (fst r) = targetSymmetry (fst r)).
Proof.
  intros Hchange Hlen st1 r k Hno.
  destruct (processFrame_symmetry cfg st inp) as (E1 & E2 & E3 & _).
  cbv zeta in E1, E2, E3. rewrite Hchange in E1, E2, E3.
  fold st1 in E1, E2, E3.
  change (Qlt_b 0 1) with true in E2, E3. cbv iota in E2, E3.
  assert (Hp1 : symmetryTransition st1 == inject_Z 1 * 0.02)
    by (rewrite E2; vm_compute; reflexivity).
  destruct (runFrames_symmetry_progress cfg inputs st1 1 Hp1)
    as (I1 & I2 & I3); [lia | lia | exact Hno |].
  fold r in I1, I2, I3.
  replace (1 + Z.of_nat (length inputs))%Z with (k + 1)%Z
    in I1, I3 by (unfold k; lia).
  split; [exact E1|]. split; [exact I1|]. split; [exact I2|].
  intro Hk. split.
  - rewrite I1, Hk. reflexivity.
  - rewrite I2. apply I3; [lia|].
    intro E. unfold k in Hk. rewrite E in Hk. discriminate.
Qed.

Lemma symmetry_transition_progress_witness :
  let cfg := highEndConfig in
  let st := fst (runFrames cfg (initialEngine 2) (repeat silentInput 120)) in
  let r := runFrames cfg (fst (processFrame cfg st loudInput))
                     (repeat loudInput 49) in
  outSymmetryChange (snd (processFrame cfg st loudInput)) = true
  /\ (length (repeat loudInput 49) <= 49)%nat
  /\ Forall (fun o => outSymmetryChange o = false) (snd r)
  /\ symmetryTransition (fst r) == 1
  /\ symmetry (fst r) = targetSymmetry (fst r).
Proof.
  cbv zeta.
  assert (H1 : outSymmetryChange
                 (snd (processFrame highEndConfig
                         (fst (runFrames highEndConfig (initialEngine 2)
                                 (repeat silentInput 120)))
                         loudInput)) = true)
    by (vm_compute; reflexivity).
  assert (H2 : (length (repeat loudInput 49) <= 49)%nat)
    by (rewrite repeat_length; lia).
  assert (H3 : Forall (fun o => outSymmetryChange o = false)
                 (snd (runFrames highEndConfig
                         (fst (processFrame highEndConfig
                                 (fst (runFrames highEndConfig
                                         (initialEngine 2)
                                         (repeat silentInput 120)))
                                 loudInput))
                         (repeat loudInput 49)))).
  { apply Forall_forall. intros o Ho.
    apply (proj1 (forallb_forall (fun o => negb (outSymmetryChange o)) _))
      with (x := o) in Ho.
    - apply negb_true_iff in Ho. exact Ho.
    - vm_compute. reflexivity. }
  split; [exact H1|]. split; [exact H2|]. split; [exact H3|].
  pose proof (symmetry_transition_progress highEndConfig
                (fst (runFrames highEndConfig (initialEngine 2)
                        (repeat silentInput 120)))
                loudInput (repeat loudInput 49) H1 H2 H3) as H.
  cbv zeta in H. destruct H as (_ & _ & _ & H).
  apply H. rewrite repeat_length. reflexivity.
Defined.

(** ** The symmetry chosen for balanced or high frequencies *)

Lemma Qfloor_bounds x lo hi :
  inject_Z lo <= x -> x < inject_Z (hi + 1) -> (lo <= Qfloor x <= hi)%Z.
Proof.
  intros Hlo Hhi. split.
  - rewrite <- (Qfloor_Z lo). apply Qfloor_resp_le. exact Hlo.
  - assert (H : (Qfloor x < hi + 1)%Z); [|lia].
    rewrite Zlt_Qlt. eapply Qle_lt_trans; [apply Qfloor_le | exact Hhi].
Qed.

Lemma mount_maxSymmetry hardwareConcurrency isMobile :
  let m := maxSymmetry (fst (mount hardwareConcurrency isMobile)) in
  (m = 4 \/ m = 6 \/ m = 8 \/ m = 10)%Z.
Proof.
  unfold mount, detectPerformance.
  destruct isMobile; [cbn; lia|].
  destruct hardwareConcurrency as [h|]; [|cbn; lia].
  destruct (h <=? 4)%Z; [cbn; lia|].
  destruct ((4 <? h)%Z && (h <? 8)%Z); [cbn; lia|].
  destruct (8 <=? h)%Z; cbn; lia.
Qed.

(** X12.  Under every profile that [detectPerformance] can produce, the
    branch of the symmetry choice for balanced or high frequencies (neither
    bass-dominant nor mid-dominant) always yields min(8, maxSymmetry), for
    every value of [Math.random()] in [0, 1): it never reaches a symmetry
    above 8. *)
Theorem balanced_branch_symmetry
    (hardwareConcurrency : option Z) (isMobile : bool)
    (lv : Levels) (random : Q) :
  0 <= random < 1 ->
  jgt (bassLevel lv) (Fin 0.7) && jgt (bassLevel lv) (highMidLevel lv) = false ->
  jgt (lowMidLevel lv) (Fin 0.6) = false ->
  let cfg := fst (mount hardwareConcurrency isMobile) in
  chooseSymmetry cfg lv random = Z.min 8 (maxSymmetry cfg).
Proof.
  intros Hr Hb Hl cfg. unfold chooseSymmetry. rewrite Hb, Hl.
  pose proof (mount_maxSymmetry hardwareConcurrency isMobile) as HM.
  cbv zeta in HM. fold cfg in HM. unfold jsFloor.
  destruct HM as [E|[E|[E|E]]]; rewrite E.
  - assert (B : (-2 <= Qfloor (random * inject_Z (4 - 8) / 2) <= 0)%Z).
    { apply Qfloor_bounds; change (inject_Z (4 - 8)) with (-4 # 1);
        change (inject_Z (-2)) with (-2 # 1); change (inject_Z (0 + 1)) with 1;
        unfold Qdiv; change (/ 2) with (1 # 2); lra. }
    lia.
  - assert (B : (-1 <= Qfloor (random * inject_Z (6 - 8) / 2) <= 0)%Z).
    { apply Qfloor_bounds; change (inject_Z (6 - 8)) with (-2 # 1);
        change (inject_Z (-1)) with (-1 # 1); change (inject_Z (0 + 1)) with 1;
        unfold Qdiv; change (/ 2) with (1 # 2); lra. }
    lia.
  - assert (B : (0 <= Qfloor (random * inject_Z (8 - 8) / 2) <= 0)%Z).
    { apply Qfloor_bounds; change (inject_Z (8 - 8)) with 0;
        change (inject_Z 0) with 0; change (inject_Z (0 + 1)) with 1;
        unfold Qdiv; change (/ 2) with (1 # 2); lra. }
    lia.
  - assert (B : (0 <= Qfloor (random * inject_Z (10 - 8) / 2) <= 0)%Z).
    { apply Qfloor_bounds; change (inject_Z (10 - 8)) with 2;
        change (inject_Z 0) with 0; change (inject_Z (0 + 1)) with 1;
        unfold Qdiv; change (/ 2) with (1 # 2); lra. }
    lia.
Qed.

Lemma balanced_branch_symmetry_witness :
  0 <= 0.99 < 1
  /\ chooseSymmetry (fst (mount (Some 16%Z) false))
                    (extractFeatures (dataArray silentInput)) 0.99 = 8%Z.
Proof.
  assert (H : 0 <= 0.99 < 1) by (split; [discriminate | reflexivity]).
  split; [exact H|].
  apply (balanced_branch_symmetry (Some 16%Z) false
           (extractFeatures (dataArray silentInput)) 0.99 H);
    vm_compute; reflexivity.
Defined.

(** ** The performance probe *)

(** X13.  A mobile user agent always gets the mobile profile and depth 1,
    whatever the number of cores.  Otherwise more cores never give a cheaper
    profile: [maxPoints], [maxSymmetry] and the initial fractal depth do not
    decrease and the frame-skip rate does not increase. *)
Theorem detectPerformance_monotone (h h' : Z) (cores : option Z) :
  detectPerformance cores true = (mobileConfig, 1%Z)
  /\ ((h <= h')%Z ->
      let lo := detectPerformance (Some h) false in
      let hi := detectPerformance (Some h') false in
      (maxPoints (fst lo) <= maxPoints (fst hi))%Z
      /\ (maxSymmetry (fst lo) <= maxSymmetry (fst hi))%Z
      /\ (drawEveryNthFrame (fst hi) <= drawEveryNthFrame (fst lo))%Z
      /\ (snd lo <= snd hi)%Z).
Proof.
  split; [reflexivity|]. intro Hle. unfold detectPerformance.
  destruct (h <=? 4)%Z eqn:A; destruct (h' <=? 4)%Z eqn:A';
    destruct ((4 <? h)%Z && (h <? 8)%Z) eqn:B;
    destruct ((4 <? h')%Z && (h' <? 8)%Z) eqn:B';
    destruct (8 <=? h)%Z eqn:C; destruct (8 <=? h')%Z eqn:C';
    cbn; try (repeat split; lia);
    try (apply andb_true_iff in B); try (apply andb_true_iff in B');
    try (apply andb_false_iff in B); try (apply andb_false_iff in B');
    lia.
Qed.

Lemma detectPerformance_monotone_witness :
  (2 <= 16)%Z
  /\ (maxSymmetry (fst (detectPerformance (Some 2%Z) false))
      <= maxSymmetry (fst (detectPerformance (Some 16%Z) false)))%Z.
Proof.
  assert (H : (2 <= 16)%Z) by lia.
  split; [exact H|].
  apply (proj2 (detectPerformance_monotone 2 16 None) H).
Defined.

(** ** The depths on which the fractal recursion returns *)

Lemma jsub_one_natural depth (n : nat) :
  jsnum_eq (jsub depth (Fin 1)) (ofZ (Z.of_nat n)) ->
  jsnum_eq depth (ofZ (Z.of_nat (S n))).
Proof.
  destruct depth as [q| |s]; cbn [jsub jneg jadd jsnum_eq ofZ];
    try contradiction.
  intro H. rewrite Nat2Z.inj_succ. unfold Z.succ.
  rewrite inject_Z_plus. change (inject_Z 1) with 1. lra.
Qed.

Lemma drawBranch_returns_natural lv scale : forall fuel len ang depth ops,
  drawBranch fuel lv scale len ang depth = Some ops ->
  exists n : nat, (n < fuel)%nat /\ jsnum_eq depth (ofZ (Z.of_nat n)).
Proof.
  induction fuel as [|fuel IH]; intros len ang depth ops H; [discriminate|].
  cbn [drawBranch] in H.
  destruct (jeqb depth (Fin 0)) eqn:E0.
  - exists 0%nat. split; [lia|].
    destruct depth as [q| |s]; cbn [jeqb] in E0; try discriminate.
    apply Qeq_bool_iff in E0. exact E0.
  - destruct (drawBranch fuel lv scale (jmul len scale) (ang + 1)
                (jsub depth (Fin 1))) as [opsR|] eqn:ER; [|discriminate].
    destruct (IH _ _ _ _ ER) as (n & Hn & En).
    exists (S n). split; [lia|]. apply jsub_one_natural. exact En.
Qed.

(** X14.  [drawBranch] returns exactly when its depth is a natural number
    below the nesting allowed: on a negative, fractional, infinite or NaN
    depth the base case [depth === 0] is never met and the recursion does not
    return. *)
Theorem drawBranch_returns_iff_natural
    (fuel : nat) (lv : Levels) (scale len : jsnum) (ang : Z) (depth : jsnum) :
  (exists ops, drawBranch fuel lv scale len ang depth = Some ops)
  <-> (exists n : nat, (n < fuel)%nat /\ jsnum_eq depth (ofZ (Z.of_nat n))).
Proof.
  split.
  - intros (ops & H). eapply drawBranch_returns_natural. exact H.
  - intros (n & Hn & En).
    destruct depth as [q| |s]; cbn [jsnum_eq ofZ] in En; try contradiction.
    destruct (drawBranch_total lv scale n (fuel - S n) len ang q En)
      as (ops & E & _).
    replace (S n + (fuel - S n))%nat with fuel in E by lia.
    exists ops. exact E.
Qed.

(** ** Period of the hue accumulator *)

(** X15.  The hue accumulator of the simple visualizers always lies in
    [0, 360): after n frames it is (n mod 720) / 2, so it repeats with a
    period of 720 frames. *)
Theorem hue_cycles_every_720_frames (n : nat) :
  Nat.iter n FrequencyBars.updateHue 0 == inject_Z (Z.of_nat n mod 720) / 2
  /\ 0 <= Nat.iter n FrequencyBars.updateHue 0 < 360
  /\ Nat.iter (n + 720) FrequencyBars.updateHue 0
     == Nat.iter n FrequencyBars.updateHue 0
  /\ Nat.iter n WaveformVisualizer.updateHue 0
     = Nat.iter n FrequencyBars.updateHue 0.
Proof.
  pose proof (updateHue_iter n) as E.
  pose proof (Z.mod_pos_bound (Z.of_nat n) 720 ltac:(lia)) as Hm.
  assert (H0 : inject_Z 0 <= inject_Z (Z.of_nat n mod 720))
    by (rewrite <- Zle_Qle; lia).
  assert (H1 : inject_Z (Z.of_nat n mod 720) <= inject_Z 719)
    by (rewrite <- Zle_Qle; lia).
  change (inject_Z 0) with 0 in H0. change (inject_Z 719) with 719 in H1.
  split; [exact E|]. split; [|split; [|reflexivity]].
  - rewrite E. unfold Qdiv. change (/ 2) with (1 # 2). lra.
  - rewrite updateHue_iter, E.
    replace (Z.of_nat (n + 720) mod 720)%Z with (Z.of_nat n mod 720)%Z;
      [reflexivity|].
    rewrite Nat2Z.inj_add. change (Z.of_nat 720) with (1 * 720)%Z.
    rewrite Z.mod_add by lia. reflexivity.
Qed.

(** ** The bass level of the simpler visualizers *)

Lemma bandSum_firstn hi l : forall i,
  (0 <= i)%Z ->
  bandSum 0 hi i l = sumZ (firstn (Z.to_nat (hi - i)) l).
Proof.
  induction l as [|v rest IH]; intros i Hi.
  - cbn [bandSum]. rewrite firstn_nil. reflexivity.
  - cbn [bandSum]. rewrite IH by lia.
    assert (E0 : (0 <=? i)%Z = true) by lia. rewrite E0. cbn [andb].
    destruct (i <? hi)%Z eqn:E.
    + replace (Z.to_nat (hi - i)) with (S (Z.to_nat (hi - (i + 1)))) by lia.
      cbn [firstn sumZ fold_right]. reflexivity.
    + replace (Z.to_nat (hi - i)) with 0%nat by lia.
      replace (Z.to_nat (hi - (i + 1))) with 0%nat by lia.
      reflexivity.
Qed.

Lemma sumZ_firstn_bound n data :
  Forall isByte data ->
  (0 <= sumZ (firstn n data) <= 255 * Z.of_nat (Nat.min n (length data)))%Z.
Proof.
  intro H. pose proof (sumZ_bound (firstn n data)
                         (Forall_isByte_firstn n data H)) as B.
  rewrite length_firstn in B. exact B.
Qed.

(** X16.  The bass level of the simpler visualizers (sum of the first ten
    bins, divided by 10 and by 255 whatever the length) is always within
    [0,1], is 0 on an empty array, where the mandala's own bass level is NaN,
    and equals the mandala's bass level as soon as there are ten bins. *)
Theorem simpleBassLevel_range (dataArray : list Z) :
  Forall isByte dataArray ->
  0 <= simpleBassLevel dataArray <= 1
  /\ (dataArray = [] -> simpleBassLevel dataArray == 0)
  /\ ((10 <= length dataArray)%nat ->
      jsnum_eq (bassLevel (extractFeatures dataArray))
               (Fin (simpleBassLevel dataArray))).
Proof.
  intro Hall. unfold simpleBassLevel.
  pose proof (sumZ_firstn_bound 10 dataArray Hall) as B.
  assert (B0 : inject_Z 0 <= inject_Z (sumZ (firstn 10 dataArray)))
    by (rewrite <- Zle_Qle; lia).
  assert (B1 : inject_Z (sumZ (firstn 10 dataArray)) <= inject_Z 2550)
    by (rewrite <- Zle_Qle; lia).
  change (inject_Z 0) with 0 in B0. change (inject_Z 2550) with 2550 in B1.
  split; [|split].
  - split.
    + apply Qle_shift_div_l; [lra|]. apply Qle_shift_div_l; lra.
    + apply Qle_shift_div_r; [lra|]. apply Qle_shift_div_r; lra.
  - intro E. subst dataArray. reflexivity.
  - intro Hlen. unfold extractFeatures.
    destruct (frame_sums dataArray) as (Eb & _).
    cbv zeta in Eb. cbn [bassLevel]. rewrite Eb.
    cbn [ranges bassRange].
    assert (E10 : Z.min 10 (Z.of_nat (length dataArray)) = 10%Z) by lia.
    rewrite E10, bandSum_firstn by lia.
    rewrite firstn_firstn.
    replace (Nat.min (Z.to_nat (10 - 0))
                     (Z.to_nat (Z.min 200 (Z.of_nat (length dataArray)))))
      with 10%nat by lia.
    unfold ofZ, jdiv. change (Qzero_b (inject_Z 10)) with false.
    change (Qzero_b 255) with false. cbv iota. cbn [jsnum_eq]. reflexivity.
Qed.

Lemma simpleBassLevel_range_witness :
  Forall isByte (dataArray loudInput)
  /\ jsnum_eq (bassLevel (extractFeatures (dataArray loudInput)))
              (Fin (simpleBassLevel (dataArray loudInput))).
Proof.
  assert (H : Forall isByte (dataArray loudInput))
    by (apply loudInput_valid).
  split; [exact H|].
  apply (simpleBassLevel_range (dataArray loudInput) H).
  cbn. lia.
Defined.

(** ** Frequency bars: layout and smoothing *)



Lemma barsLoop_spec clientHeight w s bass hue values : forall prev i x,
  length prev = length values ->
  let r := FrequencyBarsFrame.barsLoop clientHeight w s bass hue i x
                                       values prev in
  length (fst r) = length values
  /\ map FrequencyBarsFrame.barIndex (snd r)
     = filter (fun k => 2 <=? k)%Z
              (map (fun j => (i + Z.of_nat j)%Z) (seq 0 (length values)))
  /\ Forall (fun b =>
               FrequencyBarsFrame.barX b
               == x + inject_Z (FrequencyBarsFrame.barIndex b - i) * (w + s)
               /\ FrequencyBarsFrame.barW b = w)
            (snd r).
Proof.
  induction values as [|v rest IH]; intros prev i x Hlen.
  - destruct prev; [|discriminate]. cbn. repeat split; constructor.
  - destruct prev as [|p prev]; [discriminate|].
    cbn [length] in Hlen. injection Hlen as Hlen.
    specialize (IH prev (i + 1)%Z (x + (w + s)) Hlen). cbv zeta in IH.
    destruct IH as (I1 & I2 & I3).
    cbn [FrequencyBarsFrame.barsLoop].
    assert (Eshift :
      map (fun j => (i + Z.of_nat j)%Z) (seq 1 (length rest))
      = map (fun j => (i + 1 + Z.of_nat j)%Z) (seq 0 (length rest))).
    { rewrite <- seq_shift, map_map. apply map_ext. intro j. lia. }
    assert (Hrest :
      Forall (fun b =>
                FrequencyBarsFrame.barX b
                == x + inject_Z (FrequencyBarsFrame.barIndex b - i) * (w + s)
                /\ FrequencyBarsFrame.barW b = w)
             (snd (FrequencyBarsFrame.barsLoop clientHeight w s bass hue
                     (i + 1) (x + (w + s)) rest prev))).
    { eapply Forall_impl; [|exact I3]. cbv beta. intros b [Hx Hw].
      split; [|exact Hw]. rewrite Hx.
      replace (FrequencyBarsFrame.barIndex b - i)%Z
        with (FrequencyBarsFrame.barIndex b - (i + 1) + 1)%Z by lia.
      rewrite inject_Z_plus. change (inject_Z 1) with 1. ring. }
    cbn [length seq map filter]. rewrite Z.add_0_r, Eshift.
    destruct (i <? 2)%Z eqn:E.
    + assert (E2 : (2 <=? i)%Z = false) by lia. rewrite E2.
      cbn [fst snd length]. split; [lia|]. split; [exact I2 | exact Hrest].
    + assert (E2 : (2 <=? i)%Z = true) by lia. rewrite E2.
      cbn [fst snd length map]. split; [lia|]. split; [f_equal; exact I2|].
      constructor; [|exact Hrest].
      cbn [FrequencyBarsFrame.barX FrequencyBarsFrame.barIndex
           FrequencyBarsFrame.barW].
      split; [|reflexivity]. rewrite Z.sub_diag. change (inject_Z 0) with 0.
      ring.
Qed.


Lemma filter_from_two n :
  filter (fun k => 2 <=? k)%Z (map (fun j => (0 + Z.of_nat j)%Z) (seq 0 n))
  = map Z.of_nat (seq 2 (n - 2)).
Proof.
  destruct n as [|[|m]]; [reflexivity | reflexivity |].
  cbn [seq map filter]. change (2 <=? 0 + Z.of_nat 0)%Z with false.
  change (2 <=? 0 + Z.of_nat 1)%Z with false. cbv iota.
  replace (S (S m) - 2)%nat with m by lia.
  generalize (seq 2 m) (fun k => proj1 (in_seq m 2 k)).
  intros l Hl. induction l as [|k l IH]; [reflexivity|].
  cbn [map filter].
  assert (Hk : (2 <= k)%nat) by (apply (Hl k); left; reflexivity).
  assert (E : (2 <=? 0 + Z.of_nat k)%Z = true) by lia.
  rewrite E, Z.add_0_l. f_equal. apply IH.
  intros j Hj. apply Hl. right. exact Hj.
Qed.

(** X17.  [FrequencyBars] draws one bar for each usable bin from index 2 on
    (usable = min(bufferLength, 256)); bar i starts at i * 1.8 * width /
    usable and is 1.5 * width / usable wide.  The row is therefore 1.8 times
    as wide as the canvas: every bar whose index is at least usable / 1.8
    starts at or beyond the right edge. *)
Theorem frequency_bars_layout
    (clientWidth clientHeight hue : Q) (dataArray : list Z)
    (prevBarHeights : list Q) :
  0 <= clientWidth -> dataArray <> [] ->
  length prevBarHeights = length dataArray ->
  let usable := Z.min (Z.of_nat (length dataArray)) 256 in
  let bars := snd (FrequencyBarsFrame.drawBars clientWidth clientHeight hue
                                               dataArray prevBarHeights) in
  map FrequencyBarsFrame.barIndex bars
  = map Z.of_nat (seq 2 (Z.to_nat usable - 2))
  /\ Forall (fun b =>
               FrequencyBarsFrame.barX b
               == inject_Z (FrequencyBarsFrame.barIndex b)
                  * (1.8 * clientWidth / inject_Z usable)
               /\ FrequencyBarsFrame.barW b
                  == 1.5 * clientWidth / inject_Z usable
               /\ (inject_Z usable
                   <= 1.8 * inject_Z (FrequencyBarsFrame.barIndex b) ->
                   clientWidth <= FrequencyBarsFrame.barX b))
            bars.
Proof.
  intros HW Hne Hlen usable bars.
  assert (HN : (1 <= Z.of_nat (length dataArray))%Z)
    by (destruct dataArray; [congruence | cbn [length]; lia]).
  assert (Hu : (1 <= usable)%Z) by (unfold usable; lia).
  assert (Huq : 0 < inject_Z usable).
  { change 0 with (inject_Z 0). rewrite <- Zlt_Qlt. lia. }
  unfold bars, FrequencyBarsFrame.drawBars. fold usable. cbn [snd].
  set (n := Z.to_nat usable).
  set (w := clientWidth / inject_Z usable * 1.5).
  assert (Hl : length (firstn n prevBarHeights) = length (firstn n dataArray))
    by (rewrite !length_firstn, Hlen; reflexivity).
  destruct (barsLoop_spec clientHeight w (w * 0.2)
              (simpleBassLevel dataArray) hue (firstn n dataArray)
              (firstn n prevBarHeights) 0%Z 0 Hl) as (_ & I2 & I3).
  assert (Hn : length (firstn n dataArray) = n)
    by (rewrite length_firstn; unfold n, usable; lia).
  rewrite Hn in I2. split.
  - rewrite I2. apply filter_from_two.
  - eapply Forall_impl; [|exact I3]. cbv beta. intros b [Hx Hw].
    assert (Ex : FrequencyBarsFrame.barX b
                 == inject_Z (FrequencyBarsFrame.barIndex b)
                    * (1.8 * clientWidth / inject_Z usable)).
    { rewrite Hx. rewrite Z.sub_0_r. unfold w. field. lra. }
    split; [exact Ex|]. split.
    + rewrite Hw. unfold w. field. lra.
    + intro Hov. rewrite Ex.
      set (k := inject_Z (FrequencyBarsFrame.barIndex b)) in *.
      assert (A : 0 <= clientWidth * (1.8 * k - inject_Z usable))
        by (apply Qmult_le_0_compat; lra).
      assert (E' : k * (1.8 * clientWidth / inject_Z usable)
                   == (k * 1.8 * clientWidth) / inject_Z usable)
        by (field; lra).
      rewrite E'. apply Qle_shift_div_l; [exact Huq|]. lra.
Qed.

Lemma frequency_bars_layout_witness :
  0 <= 100 /\ [255; 255; 255; 0; 128]%Z <> []
  /\ length [0; 0; 0; 0; 0] = length [255; 255; 255; 0; 128]%Z
  /\ map FrequencyBarsFrame.barIndex
         (snd (FrequencyBarsFrame.drawBars 100 200 0
                 [255; 255; 255; 0; 128]%Z [0; 0; 0; 0; 0]))
     = [2; 3; 4]%Z.
Proof.
  assert (H1 : 0 <= 100) by discriminate.
  assert (H2 : [255; 255; 255; 0; 128]%Z <> []) by discriminate.
  assert (H3 : length [0; 0; 0; 0; 0] = length [255; 255; 255; 0; 128]%Z)
    by reflexivity.
  split; [exact H1|]. split; [exact H2|]. split; [exact H3|].
  apply (proj1 (frequency_bars_layout 100 200 0 [255; 255; 255; 0; 128]%Z
                  [0; 0; 0; 0; 0] H1 H2 H3)).
Defined.






(** ** Particles of the advanced visualizer *)




(** ** Frequency and waveform lookups of the pattern functions *)

Lemma scaledIndex_range i n (m : Z) :
  0 <= i < n -> (0 < m)%Z ->
  (0 <= scaledIndex i n (inject_Z m) < m)%Z.
Proof.
  intros Hi Hm. unfold scaledIndex.
  apply floor_random_index; [|exact Hm]. split.
  - apply Qle_shift_div_l; lra.
  - apply Qlt_shift_div_r; lra.
Qed.

Lemma Qmin_inject a b : Qmin (inject_Z a) (inject_Z b) == inject_Z (Z.min a b).
Proof.
  destruct (Z.min_spec a b) as [[H E]|[H E]]; rewrite E.
  - apply Q.min_l. rewrite <- Zle_Qle. lia.
  - apply Q.min_r. rewrite <- Zle_Qle. lia.
Qed.

Lemma scaledIndex_capped i n (cap len : Z) :
  0 <= i < n -> (0 < cap)%Z -> (0 < len)%Z ->
  (0 <= scaledIndex i n (Qmin (inject_Z cap) (inject_Z len))
   < Z.min cap len)%Z.
Proof.
  intros Hi Hc Hl.
  assert (E : scaledIndex i n (Qmin (inject_Z cap) (inject_Z len))
              = scaledIndex i n (inject_Z (Z.min cap len))).
  { unfold scaledIndex, jsFloor. apply Qfloor_comp.
    rewrite Qmin_inject. reflexivity. }
  rewrite E. apply scaledIndex_range; [exact Hi | lia].
Qed.

(** X20.  The frequency lookups of [drawSpiral], [drawStarburst] and
    [drawNestedCircles], made for a loop index below the loop bound, fall
    inside a non-empty array and below the cap of 64, 128 and 100 bins that
    each function sets: none of them reads past the end. *)
Theorem capped_lookups_in_bounds (i bound : Q) (len : Z) :
  0 <= i < bound -> (0 < len)%Z ->
  (0 <= spiralFreqIndex i bound len < Z.min 64 len)%Z
  /\ (0 <= starburstFreqIndex i bound len < Z.min 128 len)%Z
  /\ (0 <= circlesFreqIndex i bound len < Z.min 100 len)%Z.
Proof.
  intros Hi Hl.
  unfold spiralFreqIndex, starburstFreqIndex, circlesFreqIndex.
  split; [apply (scaledIndex_capped i bound 64 len Hi); lia|].
  split; [apply (scaledIndex_capped i bound 128 len Hi); lia|].
  apply (scaledIndex_capped i bound 100 len Hi); lia.
Qed.

Lemma capped_lookups_in_bounds_witness :
  (0 <= starburstFreqIndex 39 40 16 < Z.min 128 16)%Z.
Proof.
  assert (H1 : 0 <= 39 < 40) by (split; [discriminate | reflexivity]).
  assert (H2 : (0 < 16)%Z) by lia.
  exact (proj1 (proj2 (capped_lookups_in_bounds 39 40 16 H1 H2))).
Defined.

(** X21.  The lookups over the whole array, the frequency bin of a web ring
    point or of a web dot in [drawSymmetricalWeb] and the waveform sample of
    [drawWavePattern], fall inside a non-empty array for every loop index
    below the loop bound (360 degrees, or the number of dots). *)
Theorem full_range_lookups_in_bounds (i dotCount : Q) (len : Z) :
  0 <= i -> (0 < len)%Z ->
  (i < dotCount -> (0 <= webDotFreqIndex i dotCount len < len)%Z)
  /\ (i < 360 ->
      (0 <= webFreqIndex i len < len)%Z /\ (0 <= waveIndex i len < len)%Z).
Proof.
  intros Hi Hl. unfold webDotFreqIndex, webFreqIndex, waveIndex.
  split.
  - intro Hd. apply scaledIndex_range; [lra | exact Hl].
  - intro H360. split; apply scaledIndex_range; try exact Hl; lra.
Qed.

Lemma full_range_lookups_in_bounds_witness :
  (0 <= waveIndex 359 1024 < 1024)%Z.
Proof.
  assert (H1 : 0 <= 359) by discriminate.
  assert (H2 : (0 < 1024)%Z) by lia.
  assert (H3 : 359 < 360) by reflexivity.
  exact (proj2 (proj2 (full_range_lookups_in_bounds 359 1 1024 H1 H2) H3)).
Defined.

(** ** Path loops over the degrees *)

Lemma degreeLoop_returns step : forall fuel i,
  2 <= step -> 360 - i <= 2 * inject_Z (Z.of_nat fuel) ->
  exists points,
    degreeLoop fuel i step = Some points
    /\ (length points <= fuel)%nat
    /\ Forall (fun a => i <= a < 360) points.
Proof.
  induction fuel as [|fuel IH]; intros i Hs Hi.
  - exists []. cbn [degreeLoop].
    assert (E : Qlt_b i 360 = false).
    { apply Qlt_b_false. change (inject_Z (Z.of_nat 0)) with 0 in Hi. lra. }
    rewrite E. split; [reflexivity|]. split; [cbn; lia | constructor].
  - cbn [degreeLoop]. destruct (Qlt_b i 360) eqn:E.
    + apply Qlt_b_true in E.
      destruct (IH (i + step) Hs) as (pts & Ep & Lp & Fp).
      { rewrite Nat2Z.inj_succ in Hi. unfold Z.succ in Hi.
        rewrite inject_Z_plus in Hi. change (inject_Z 1) with 1 in Hi. lra. }
      rewrite Ep. exists (i :: pts). split; [reflexivity|].
      split; [cbn [length]; lia|].
      constructor; [lra|].
      eapply Forall_impl; [|exact Fp]. cbv beta. intros a Ha. lra.
    + exists []. split; [reflexivity|]. split; [cbn; lia | constructor].
Qed.

Lemma Qmax_lower a b : a <= Qmax a b.
Proof. apply Q.le_max_l. Qed.

(** X22.  For all finite levels the path loops over the degrees of
    [drawFlower], [drawWavePattern], [drawSymmetricalWeb] and
    [drawCenterMandala] advance by at least 2 degrees, so each of them ends
    after at most 180 points, all of them on degrees in [0, 360). *)
Theorem degree_loops_terminate (lowMid treble : Q) :
  let ends step :=
    exists points,
      degreeLoop 180 0 step = Some points
      /\ (length points <= 180)%nat
      /\ Forall (fun a => 0 <= a < 360) points in
  ends (flowerStep treble) /\ ends (flowerDetailStep lowMid treble)
  /\ ends (waveAngleStep treble) /\ ends (webAngleStep treble)
  /\ ends (centerAngleStep treble).
Proof.
  intro ends.
  assert (H : forall step, 2 <= step -> ends step).
  { intros step Hs. apply degreeLoop_returns; [exact Hs|].
    change (inject_Z (Z.of_nat 180)) with 180. lra. }
  unfold flowerStep, flowerDetailStep, waveAngleStep, webAngleStep,
    centerAngleStep.
  repeat split; apply H; try apply Qmax_lower.
  - eapply Qle_trans; [|apply (Qmax_lower 3)]. lra.
  - eapply Qle_trans; [|apply (Qmax_lower 3)]. lra.
Qed.

(** ** The earlier revision of the mandala *)

Lemma earlier_draw_frozen st data rnd :
  EarlierMandala.frame st = 0%Z ->
  EarlierMandala.lastSymmetryChange st = 0%Z ->
  let st' := fst (EarlierMandala.draw st data rnd) in
  EarlierMandala.frame st' = 0%Z
  /\ EarlierMandala.lastSymmetryChange st' = 0%Z
  /\ EarlierMandala.symmetry st' = EarlierMandala.symmetry st
  /\ EarlierMandala.fractalDepth st' = EarlierMandala.fractalDepth st
  /\ EarlierMandala.fractalScale st' = EarlierMandala.fractalScale st
  /\ EarlierMandala.frameCounter st' = (EarlierMandala.frameCounter st + 1)%Z
  /\ snd (EarlierMandala.draw st data rnd) <> EarlierMandala.Skipped.
Proof.
  intros Hf Hl. unfold EarlierMandala.draw.
  rewrite Z.rem_1_r. change (negb (0 =? 0)%Z) with false. cbv iota.
  rewrite Hf, Hl. change (60 <? 0 - 0)%Z with false. cbn [andb].
  cbn [fst snd EarlierMandala.frame EarlierMandala.lastSymmetryChange
       EarlierMandala.symmetry EarlierMandala.fractalDepth
       EarlierMandala.fractalScale EarlierMandala.frameCounter].
  repeat split; try reflexivity.
  destruct (0 <? EarlierMandala.symmetry st)%Z; [|discriminate].
  destruct (EarlierMandala.patternFunction _); discriminate.
Qed.

(** X23.  In the earlier revision the draw loop never increments [frame], so
    the test [frame - lastSymmetryChange > 60] never holds: over every run,
    whatever the audio and the random values, the symmetry stays 8 and the
    fractal depth and scale stay 3 and 0.7; and no callback is skipped. *)
Theorem earlier_symmetry_never_changes
    (inputs : list (list Z * EarlierMandala.Randoms)) :
  let r := EarlierMandala.run EarlierMandala.initialEngine inputs in
  EarlierMandala.frame (fst r) = 0%Z
  /\ EarlierMandala.symmetry (fst r) = 8%Z
  /\ EarlierMandala.fractalDepth (fst r) = 3%Z
  /\ EarlierMandala.fractalScale (fst r) = 0.7
  /\ EarlierMandala.frameCounter (fst r) = Z.of_nat (length inputs)
  /\ Forall (fun res => res <> EarlierMandala.Skipped) (snd r).
Proof.
  assert (G : forall inputs st,
            EarlierMandala.frame st = 0%Z ->
            EarlierMandala.lastSymmetryChange st = 0%Z ->
            let r := EarlierMandala.run st inputs in
            EarlierMandala.frame (fst r) = 0%Z
            /\ EarlierMandala.symmetry (fst r) = EarlierMandala.symmetry st
            /\ EarlierMandala.fractalDepth (fst r)
               = EarlierMandala.fractalDepth st
            /\ EarlierMandala.fractalScale (fst r)
               = EarlierMandala.fractalScale st
            /\ EarlierMandala.frameCounter (fst r)
               = (EarlierMandala.frameCounter st
                  + Z.of_nat (length inputs))%Z
            /\ Forall (fun res => res <> EarlierMandala.Skipped) (snd r)).
  { clear inputs. induction inputs as [|[data rnd] rest IH]; intros st Hf Hl.
    - cbn. repeat split; try lia; constructor.
    - cbn [EarlierMandala.run length].
      destruct (earlier_draw_frozen st data rnd Hf Hl)
        as (F1 & F2 & F3 & F4 & F5 & F6 & F7).
      destruct (EarlierMandala.draw st data rnd) as [st1 res].
      cbn [fst snd] in F1, F2, F3, F4, F5, F6, F7.
      specialize (IH st1 F1 F2). cbv zeta in IH.
      destruct (EarlierMandala.run st1 rest) as [st2 results].
      cbn [fst snd] in *.
      destruct IH as (I1 & I2 & I3 & I4 & I5 & I6).
      repeat split; try congruence; try lia.
      constructor; assumption. }
  intro r. destruct (G inputs EarlierMandala.initialEngine eq_refl eq_refl)
    as (I1 & I2 & I3 & I4 & I5 & I6).
  fold r in I1, I2, I3, I4, I5, I6. repeat split; assumption.
Qed.

Lemma earlier_run_frozen (inputs : list (list Z * EarlierMandala.Randoms)) :
  forall st,
  EarlierMandala.frame st = 0%Z ->
  EarlierMandala.lastSymmetryChange st = 0%Z ->
  let st' := fst (EarlierMandala.run st inputs) in
  EarlierMandala.frame st' = 0%Z
  /\ EarlierMandala.lastSymmetryChange st' = 0%Z
  /\ EarlierMandala.symmetry st' = EarlierMandala.symmetry st.
Proof.
  induction inputs as [|[data rnd] rest IH]; intros st Hf Hl.
  - cbn. repeat split; assumption.
  - cbn [EarlierMandala.run].
    destruct (earlier_draw_frozen st data rnd Hf Hl)
      as (F1 & F2 & F3 & _).
    destruct (EarlierMandala.draw st data rnd) as [st1 res].
    cbn [fst snd] in F1, F2, F3.
    specialize (IH st1 F1 F2). cbv zeta in IH.
    destruct (EarlierMandala.run st1 rest) as [st2 results].
    cbn [fst snd] in *. destruct IH as (I1 & I2 & I3).
    repeat split; congruence.
Qed.

(** X24.  In the earlier revision a pattern switch that takes the
    [mindBlowingPatterns] branch with a random pick of at least 0.25 sets
    [currentPattern] to 7, 8 or 9, while the table [patterns] has the seven
    entries 0..6: at any point of any run, the symmetry loop of that frame
    calls [patterns[currentPattern]], which is [undefined], and the callback
    ends in a TypeError. *)
Theorem earlier_pattern_switch_leaves_table
    (inputs : list (list Z * EarlierMandala.Randoms))
    (dataArray : list Z) (rnd : EarlierMandala.Randoms) :
  let st := fst (EarlierMandala.run EarlierMandala.initialEngine inputs) in
  (60 <= EarlierMandala.patternChangeCounter st)%Z ->
  0.85 < simpleBassLevel dataArray ->
  EarlierMandala.rndSwitch rnd < 0.15 ->
  EarlierMandala.rndMindBlowing rnd < 0.7 ->
  0.25 <= EarlierMandala.rndPick rnd < 1 ->
  snd (EarlierMandala.draw st dataArray rnd) = EarlierMandala.TypeError
  /\ exists k,
       EarlierMandala.currentPattern
         (fst (EarlierMandala.draw st dataArray rnd)) = Some k
       /\ (7 <= k <= 9)%Z
       /\ EarlierMandala.patternFunction (Some k) = None.
Proof.
  intros st Hc Hb Hs Hm Hp.
  destruct (earlier_run_frozen inputs EarlierMandala.initialEngine
              eq_refl eq_refl) as (F1 & F2 & F3).
  fold st in F1, F2, F3.
  change (EarlierMandala.symmetry EarlierMandala.initialEngine) with 8%Z in F3.
  assert (Hk : (1 <= jsFloor (EarlierMandala.rndPick rnd * inject_Z 4) <= 3)%Z).
  { unfold jsFloor. apply Qfloor_bounds.
    - change (inject_Z 1) with 1. change (inject_Z 4) with 4. lra.
    - change (inject_Z (3 + 1)) with 4. change (inject_Z 4) with 4. lra. }
  unfold EarlierMandala.draw.
  rewrite Z.rem_1_r. change (negb (0 =? 0)%Z) with false. cbv iota.
  rewrite F1, F2, F3. change (60 <? 0 - 0)%Z with false. cbn [andb].
  rewrite (proj2 (Qlt_b_true _ _) Hb), (proj2 (Qlt_b_true _ _) Hs),
    (proj2 (Qlt_b_true _ _) Hm).
  assert (E60 : (60 <? EarlierMandala.patternChangeCounter st + 1)%Z = true)
    by (apply Z.ltb_lt; lia).
  rewrite E60. cbn [andb]. change (0 <? 8)%Z with true. cbv iota.
  change (Z.of_nat (length EarlierMandala.mindBlowingPatterns)) with 4%Z.
  cbn [fst snd EarlierMandala.currentPattern].
  set (k := jsFloor (EarlierMandala.rndPick rnd * inject_Z 4)) in *.
  assert (Ek : k = 1%Z \/ k = 2%Z \/ k = 3%Z) by lia.
  destruct Ek as [Ek|[Ek|Ek]]; rewrite Ek.
  - split; [reflexivity|]. exists 7%Z. repeat split; try reflexivity; lia.
  - split; [reflexivity|]. exists 8%Z. repeat split; try reflexivity; lia.
  - split; [reflexivity|]. exists 9%Z. repeat split; try reflexivity; lia.
Qed.

Lemma earlier_pattern_switch_leaves_table_witness :
  let quiet : list Z * EarlierMandala.Randoms :=
    (repeat 0%Z 16, EarlierMandala.mkRandoms 0 0 0 0 0.5 0.5 0.5) in
  let rnd := EarlierMandala.mkRandoms 0 0 0 0 0.1 0.5 0.5 in
  snd (EarlierMandala.draw
         (fst (EarlierMandala.run EarlierMandala.initialEngine
                 (repeat quiet 60)))
         (repeat 255%Z 16) rnd) = EarlierMandala.TypeError.
Proof.
  intros quiet rnd.
  refine (proj1 (earlier_pattern_switch_leaves_table
                   (repeat quiet 60) (repeat 255%Z 16) rnd _ _ _ _ _)).
  - vm_compute. discriminate.
  - vm_compute. reflexivity.
  - vm_compute. reflexivity.
  - vm_compute. reflexivity.
  - split; vm_compute; [discriminate | reflexivity].
Defined.

(** ** The player *)

Lemma Qfloor_div_pos q (d : positive) :
  Qfloor (q / inject_Z (Zpos d)) = (Qfloor q / Zpos d)%Z.
Proof.
  destruct q as [n m]. unfold Qdiv, Qmult, Qinv, inject_Z, Qfloor.
  cbn [Qnum Qden]. rewrite Z.mul_1_r.
  rewrite Pos.mul_1_l || idtac.
  rewrite Pos2Z.inj_mul. rewrite Z.div_div by lia. reflexivity.
Qed.

Lemma Qfloor_div_60 q : Qfloor (q / 60) = (Qfloor q / 60)%Z.
Proof. exact (Qfloor_div_pos q 60). Qed.

Lemma Qfloor_unique x z :
  inject_Z z <= x -> x < inject_Z (z + 1) -> Qfloor x = z.
Proof.
  intros H1 H2. pose proof (Qfloor_bounds x z z H1 H2). lia.
Qed.

Lemma padStart2_twoDigits s :
  (0 <= s < 60)%Z -> App.padStart2 (decimalText s) = twoDigits s.
Proof.
  intro Hs. rewrite <- (Z2Nat.id s) by lia.
  assert (Hn : (Z.to_nat s < 60)%nat) by lia.
  clear Hs. generalize dependent (Z.to_nat s). clear s. intros n Hn.
  do 60 (destruct n as [|n]; [reflexivity|]). lia.
Qed.

Lemma seconds_of q :
  0 <= q -> Qfloor (jsRem q 60) = (Qfloor q mod 60)%Z.
Proof.
  intro Hq. unfold jsRem, Qtrunc.
  assert (E : Qneg_b (q / 60) = false).
  { unfold Qneg_b. apply negb_false_iff. apply Qle_bool_iff.
    apply Qle_shift_div_l; lra. }
  rewrite E. cbv iota. rewrite Qfloor_div_60.
  pose proof (Qfloor_le q) as H1. pose proof (Qlt_floor q) as H2.
  pose proof (Z.mod_eq (Qfloor q) 60 ltac:(lia)) as Hm.
  apply Qfloor_unique.
  - rewrite Hm. unfold Z.sub.
    rewrite inject_Z_plus, inject_Z_opp, inject_Z_mult.
    change (inject_Z 60) with 60. lra.
  - rewrite Hm. unfold Z.sub.
    rewrite !inject_Z_plus, inject_Z_opp, inject_Z_mult.
    rewrite inject_Z_plus in H2.
    change (inject_Z 60) with 60. change (inject_Z 1) with 1 in *. lra.
Qed.

Lemma numberToString_integer z :
  (Z.abs z < 2 ^ 53)%Z ->
  App.numberToString (Fin (inject_Z z)) = Some (decimalText z).
Proof.
  intro Hz. unfold App.numberToString, App.safeInteger.
  rewrite Qfloor_Z.
  assert (E1 : Qeq_bool (inject_Z z) (inject_Z z) = true)
    by (apply Qeq_bool_iff; reflexivity).
  assert (E2 : (Z.abs z <? 2 ^ 53)%Z = true) by (apply Z.ltb_lt; exact Hz).
  rewrite E1, E2. reflexivity.
Qed.

(** X25.  [formatTime] shows a finite time of at least 0 and below 2^53
    seconds as the whole minutes, a colon and exactly two digits for the
    whole seconds modulo 60; a duration that is not yet known (NaN) as 0:00;
    and the duration of a stream (Infinity) as the text Infinity:NaN. *)
Theorem formatTime_clock (q : Q) :
  0 <= q -> q < inject_Z (2 ^ 53) ->
  App.formatTime (Fin q)
  = Some (String.append (decimalText (Qfloor q / 60))
            (String.append ":" (twoDigits (Qfloor q mod 60))))
  /\ App.formatTime NaN = Some "0:00"%string
  /\ App.formatTime (Inf false) = Some "Infinity:NaN"%string.
Proof.
  intros Hq Hmax. split; [|split; reflexivity].
  assert (Hf0 : (0 <= Qfloor q)%Z).
  { rewrite <- (Qfloor_Z 0). apply Qfloor_resp_le. exact Hq. }
  assert (Hf1 : (Qfloor q < 2 ^ 53)%Z).
  { rewrite Zlt_Qlt. eapply Qle_lt_trans; [apply Qfloor_le | exact Hmax]. }
  unfold App.formatTime. cbn [App.isNaN App.exactTime].
  assert (Ex : Qlt_b (Qabs q) (inject_Z (2 ^ 53)) = true).
  { apply Qlt_b_true. rewrite Qabs_pos by exact Hq. exact Hmax. }
  rewrite Ex. cbn [negb].
  change (jdiv (Fin q) (Fin 60)) with (Fin (q / 60)).
  change (App.jrem (Fin q) (Fin 60)) with (Fin (jsRem q 60)).
  cbn [jfloor]. rewrite Qfloor_div_60. rewrite (seconds_of q Hq).
  pose proof (Z.mod_pos_bound (Qfloor q) 60 ltac:(lia)) as Hs.
  assert (Hm : (0 <= Qfloor q / 60 <= Qfloor q)%Z).
  { split; [apply Z.div_pos; lia|].
    apply Z.div_le_upper_bound; lia. }
  rewrite (numberToString_integer (Qfloor q / 60)) by lia.
  rewrite (numberToString_integer (Qfloor q mod 60)) by lia.
  change App.padStart2 with App.padStart2.
  rewrite padStart2_twoDigits by exact Hs.
  reflexivity.
Qed.

Lemma formatTime_clock_witness :
  App.formatTime (Fin 125.7) = Some "2:05"%string.
Proof.
  assert (H1 : 0 <= 125.7) by discriminate.
  assert (H2 : 125.7 < inject_Z (2 ^ 53)) by reflexivity.
  exact (proj1 (formatTime_clock 125.7 H1 H2)).
Defined.

Lemma findIndexFrom_absent name : forall tracks i,
  ~ In name (map fst tracks) -> App.findIndexFrom i tracks name = (-1)%Z.
Proof.
  induction tracks as [|track rest IH]; intros i Hn; [reflexivity|].
  cbn [App.findIndexFrom]. cbn [map] in Hn.
  destruct (String.eqb (fst track) name) eqn:E.
  - apply String.eqb_eq in E. exfalso. apply Hn. left. exact E.
  - apply IH. intro H. apply Hn. right. exact H.
Qed.

(** X26.  On the six sample tracks [skipToNextTrack] and
    [skipToPreviousTrack] undo each other: from every sample track, Next
    followed by Previous, and Previous followed by Next, play that track
    again (the list is walked as a ring). *)
Theorem skip_round_trip (track : String.string * String.string) :
  In track App.sampleTracks ->
  (exists next,
     App.skipToNextTrack (Some (fst track)) = Some next
     /\ App.skipToPreviousTrack (App.playSampleTrack next) = Some track)
  /\ (exists previous,
        App.skipToPreviousTrack (Some (fst track)) = Some previous
        /\ App.skipToNextTrack (App.playSampleTrack previous) = Some track).
Proof.
  intro Hin. unfold App.sampleTracks in Hin. cbn [In] in Hin.
  repeat (destruct Hin as [Hin|Hin];
          [subst track; split; eexists; split; vm_compute; reflexivity|]).
  destruct Hin.
Qed.

Lemma skip_round_trip_witness :
  exists next,
    App.skipToNextTrack (Some "Orchestral"%string) = Some next
    /\ App.skipToPreviousTrack (App.playSampleTrack next)
       = Some ("Orchestral"%string,
               "https://assets.mixkit.co/music/preview/mixkit-serene-view-443.mp3"%string).
Proof.
  refine (proj1 (skip_round_trip
                   ("Orchestral"%string,
                    "https://assets.mixkit.co/music/preview/mixkit-serene-view-443.mp3"%string) _)).
  unfold App.sampleTracks. cbn [In]. do 5 right. left. reflexivity.
Defined.

(** X27.  When the current track is not a sample track (an uploaded file,
    whose name is not empty), [findIndex] gives -1: Next plays the first
    sample track, and Previous plays the fifth one, "Jazz Groove", not the
    last one; with no current track Previous plays the last one. *)
Theorem skip_from_uploaded_track (name : String.string) :
  name <> String.EmptyString -> ~ In name sampleNames ->
  App.skipToNextTrack (Some name) = nth_error App.sampleTracks 0
  /\ App.skipToPreviousTrack (Some name) = nth_error App.sampleTracks 4
  /\ option_map fst (App.skipToPreviousTrack (Some name))
     = Some "Jazz Groove"%string
  /\ option_map fst (App.skipToPreviousTrack None)
     = Some "Orchestral"%string.
Proof.
  intros Hne Hout.
  assert (E : App.noTrack (Some name) = false).
  { cbn [App.noTrack]. apply String.eqb_neq. exact Hne. }
  unfold App.skipToNextTrack, App.skipToPreviousTrack. rewrite E.
  cbn [App.trackName]. unfold App.findIndex.
  rewrite (findIndexFrom_absent name App.sampleTracks 0 Hout).
  repeat split; reflexivity.
Qed.

Lemma skip_from_uploaded_track_witness :
  option_map fst (App.skipToPreviousTrack (Some "my song.mp3"%string))
  = Some "Jazz Groove"%string.
Proof.
  refine (proj1 (proj2 (proj2 (skip_from_uploaded_track
                                 "my song.mp3"%string _ _)))).
  - discriminate.
  - unfold sampleNames, App.sampleTracks. cbn [map fst In].
    intros [H|[H|[H|[H|[H|[H|H]]]]]]; try discriminate H. exact H.
Defined.
